(** * SkyArchive: the SQM data service and the histogram binning

    A shallow embedding of [js/services/dataService.js] ([calculateMedian],
    [fetchAndParseSqm]) and of the binning loop of [createHistogram] in
    [js/services/visualizationService.js], with the ECMAScript built-ins
    these functions call.  It is followed by the parts of the other
    services that compute: the processing of the panorama manifest in
    [loadAndProcessData], the colours and the popup of the markers in
    [js/services/mapService.js], the lightbox of
    [js/services/galleryService.js] and the select element of
    [initFeaturedVisualizations] in [js/script.js].

    JavaScript numbers are IEEE 754 binary64 values: they are modelled by
    Rocq's primitive floats, whose operations are specified by
    [SpecFloat].  JavaScript strings are sequences of UTF-16 code units. *)

From Stdlib Require Import ZArith NArith Floats Lia Sorted Permutation.
From Stdlib Require DecimalNat.
From stdpp Require Import base option list strings gmap.
From stdpp Require sorting.

#[local] Open Scope Z_scope.

(** ** ECMAScript built-ins *)

Module JS.

(** A string is a sequence of UTF-16 code units. *)
Definition jsString := list N.

(** The code units of an ASCII literal. *)
Fixpoint str (s : String.string) : jsString :=
  match s with
  | String.EmptyString => []
  | String.String c s' => Ascii.N_of_ascii c :: str s'
  end.

(** A property read that may yield [undefined]. *)
Definition jsValue := option jsString.

(** WhiteSpace and LineTerminator code points: what [trim] strips and
    what the regular expression class [\s] matches. *)
Definition isWhiteSpace (c : N) : bool :=
  ((9 <=? c) && (c <=? 13) || (c =? 32) || (c =? 160) || (c =? 5760)
   || (8192 <=? c) && (c <=? 8202) || (c =? 8232) || (c =? 8233)
   || (c =? 8239) || (c =? 8287) || (c =? 12288) || (c =? 65279))%N.

Fixpoint trimStart (s : jsString) : jsString :=
  match s with
  | [] => []
  | c :: s' => if isWhiteSpace c then trimStart s' else s
  end.

Definition trimEnd (s : jsString) : jsString := rev (trimStart (rev s)).

(** [s.trim()] *)
Definition trim (s : jsString) : jsString := trimEnd (trimStart s).

(** [s.startsWith(c)] for a one-character search string. *)
Definition startsWith (c : N) (s : jsString) : bool :=
  match s with
  | c' :: _ => (c' =? c)%N
  | [] => false
  end.

(** [s.split('\n')]: the pieces between line feeds; never empty. *)
Fixpoint split_newline (s : jsString) : list jsString :=
  match s with
  | [] => [[]]
  | c :: s' =>
      if (c =? 10)%N then [] :: split_newline s'
      else match split_newline s' with
           | piece :: pieces => (c :: piece) :: pieces
           | [] => [[c]]
           end
  end.

(** [s.split(/\s+/)]: the pieces between maximal runs of white space.
    [inRun] tells that the previous code unit belonged to a run. *)
Fixpoint split_ws_from (inRun : bool) (s : jsString) : list jsString :=
  match s with
  | [] => [[]]
  | c :: s' =>
      if isWhiteSpace c then
        if inRun then split_ws_from true s' else [] :: split_ws_from true s'
      else match split_ws_from false s' with
           | piece :: pieces => (c :: piece) :: pieces
           | [] => [[c]]
           end
  end.

Definition split_ws (s : jsString) : list jsString := split_ws_from false s.

(** *** Numbers *)

Definition number := float.

Definition NaN : number := nan.
Definition isNaN (x : number) : bool := is_nan x.

(** [a > b], [a >= b], [a < b], [a <= b] *)
Definition gt (a b : number) : bool := (b <? a)%float.
Definition ge (a b : number) : bool := (b <=? a)%float.
Definition lt (a b : number) : bool := (a <? b)%float.
Definition le (a b : number) : bool := (a <=? b)%float.
#[global] Arguments gt (a b)%_float_scope.
#[global] Arguments ge (a b)%_float_scope.
#[global] Arguments lt (a b)%_float_scope.
#[global] Arguments le (a b)%_float_scope.

(** The Number value of an integer: rounded to nearest, ties to even. *)
Definition of_Z (n : Z) : number := SF2Prim (binary_normalize prec emax n 0 false).

(** The Number value of [n / d] for positive [n] and [d], rounded once. *)
Definition of_ratio (neg : bool) (n d : positive) : number :=
  SF2Prim (SFdiv prec emax (S754_finite neg n 0) (S754_finite false d 0)).

(** *** [parseFloat] *)

Definition isDigit (c : N) : bool := ((48 <=? c) && (c <=? 57))%N.

(** DecimalDigits: the longest run of digits, most significant first,
    and what follows it. *)
Fixpoint spanDigits (s : jsString) : list N * jsString :=
  match s with
  | c :: s' =>
      if isDigit c then let '(ds, rest) := spanDigits s' in ((c - 48)%N :: ds, rest)
      else ([], s)
  | [] => ([], [])
  end.

Definition digitsValue (ds : list N) : Z :=
  fold_left (fun acc d => 10 * acc + Z.of_N d) ds 0.

(** ExponentPart, when [s] starts with one: its value. *)
Definition exponentPart (s : jsString) : Z :=
  match s with
  | c :: s' =>
      if ((c =? 101) || (c =? 69))%N then
        match s' with
        | sg :: s'' =>
            if (sg =? 43)%N then
              match spanDigits s'' with ([], _) => 0 | (ds, _) => digitsValue ds end
            else if (sg =? 45)%N then
              match spanDigits s'' with ([], _) => 0 | (ds, _) => - digitsValue ds end
            else match spanDigits s' with ([], _) => 0 | (ds, _) => digitsValue ds end
        | [] => 0
        end
      else 0
  | [] => 0
  end.

(** The Number value of [m * 10^e]. *)
Definition decimalValue (neg : bool) (m e : Z) : number :=
  match m with
  | Zpos p =>
      if 0 <=? e then of_Z ((if neg then Z.neg p else Z.pos p) * 10 ^ e)
      else of_ratio neg p (Z.to_pos (10 ^ (- e)))
  | _ => if neg then (-0)%float else 0%float
  end.

Definition Infinity_chars : jsString := str "Infinity".

Fixpoint isPrefix (p s : jsString) : bool :=
  match p, s with
  | [], _ => true
  | a :: p', b :: s' => (a =? b)%N && isPrefix p' s'
  | _ :: _, [] => false
  end.

(** StrUnsignedDecimalLiteral: the longest prefix of [s] that is one. *)
Definition unsignedDecimal (neg : bool) (s : jsString) : number :=
  if isPrefix Infinity_chars s then (if neg then neg_infinity else infinity)
  else
    let '(ip, rest) := spanDigits s in
    match rest with
    | 46%N :: rest' =>
        let '(fp, rest'') := spanDigits rest' in
        match ip, fp with
        | [], [] => NaN
        | _, _ =>
            decimalValue neg (digitsValue (ip ++ fp))
              (exponentPart rest'' - Z.of_nat (length fp))
        end
    | _ =>
        match ip with
        | [] => NaN
        | _ => decimalValue neg (digitsValue ip) (exponentPart rest)
        end
    end.

(** [parseFloat(s)] for a string [s]. *)
Definition parseFloatString (s : jsString) : number :=
  match trimStart s with
  | 43%N :: s' => unsignedDecimal false s'
  | 45%N :: s' => unsignedDecimal true s'
  | s' => unsignedDecimal false s'
  end.

(** [parseFloat(v)]: [undefined] is first converted to the string
    "undefined", which has no numeric prefix. *)
Definition parseFloat (v : jsValue) : number :=
  match v with
  | Some s => parseFloatString s
  | None => NaN
  end.

(** The truth value of a string or [undefined] in a condition. *)
Definition truthy (v : jsValue) : bool :=
  match v with
  | Some (_ :: _) => true
  | _ => false
  end.

(** *** [Array.prototype.sort]

    ECMAScript leaves the algorithm open but requires it to be stable;
    for a consistent comparator the outcome is then determined.  The
    model is a stable insertion sort.  As in SortCompare, [x] goes after
    [y] only when [compareFn x y > 0]; a NaN result counts as [+0]. *)
Fixpoint sortInsert {A : Type} (compareFn : A -> A -> number) (x : A) (l : list A) : list A :=
  match l with
  | [] => [x]
  | y :: l' => if gt (compareFn x y) 0 then y :: sortInsert compareFn x l' else x :: l
  end.

Fixpoint sort {A : Type} (compareFn : A -> A -> number) (l : list A) : list A :=
  match l with
  | [] => []
  | x :: l' => sortInsert compareFn x (sort compareFn l')
  end.

(** *** [Math.floor] and [Math.round]

    A finite number is [(-1)^s * m * 2^e]; both functions are computed
    exactly on the integers and the result, an integer below [2^53] in
    magnitude whenever [e < 0], is converted back without rounding. *)
Definition significand (s : bool) (m : positive) : Z := if s then Z.neg m else Z.pos m.

Definition Math_floor (x : number) : number :=
  match Prim2SF x with
  | S754_finite s m e =>
      if 0 <=? e then x else of_Z (Z.shiftr (significand s m) (- e))
  | _ => x
  end.

Definition Math_round (x : number) : number :=
  match Prim2SF x with
  | S754_finite s m e =>
      if 0 <=? e then x
      else
        let n := Z.shiftr (2 * significand s m + 2 ^ (- e)) (- e + 1) in
        if (n =? 0) && s then (-0)%float else of_Z n
  | _ => x
  end.

(** The integer a number denotes when it is integral (its truncation
    otherwise, [0] for NaN and the infinities): the array index it
    selects and the count it bounds. *)
Definition toInteger (x : number) : Z :=
  match Prim2SF x with
  | S754_finite s m e =>
      if 0 <=? e then significand s m * 2 ^ e
      else Z.quot (significand s m) (2 ^ (- e))
  | _ => 0
  end.

End JS.

(** ** js/services/dataService.js *)

Module DataService.
Import JS.

(** *** [calculateMedian] *)

(** [sorted[i]]: reading past the end yields [undefined], which the
    arithmetic of the even case would turn into NaN. *)
Definition at_index (a : list number) (i : nat) : number := default NaN (a !! i).

(** The comparator [(a, b) => a - b]. *)
Definition compareNumbers (a b : number) : number := (a - b)%float.

(** The value [calculateMedian(numbers)] returns; [None] is [null].
    The guard [!numbers] concerns [null] and [undefined], which are not
    arrays. *)
Definition calculateMedian (numbers : list number) : option number :=
  if (length numbers =? 0)%nat then None
  else
    let sorted := sort compareNumbers numbers in
    let middleIndex := (length sorted / 2)%nat in
    if (length sorted mod 2 =? 0)%nat then
      Some ((at_index sorted (middleIndex - 1) + at_index sorted middleIndex) / 2)%float
    else Some (at_index sorted middleIndex).

(** The same function with the store written out: arrays live in a heap
    and are passed by reference; [sort] reorders its receiver in place. *)
Definition loc := nat.
Abbreviation heap := (gmap loc (list number)).

(** [[...a]]: a new array holding the elements of [a]. *)
Definition spread (a : loc) (h : heap) : loc * heap :=
  let a' := fresh (dom h) in (a', <[a' := default [] (h !! a)]> h).

(** [a.sort(compareFn)]: sorts [a] in place and returns [a]. *)
Definition sortInPlace (compareFn : number -> number -> number) (a : loc) (h : heap)
  : loc * heap :=
  (a, alter (sort compareFn) a h).

Definition calculateMedianIn (numbers : loc) (h : heap) : option number * heap :=
  match h !! numbers with
  | None => (None, h)
  | Some elems =>
      if (length elems =? 0)%nat then (None, h)
      else
        let '(copy, h1) := spread numbers h in
        let '(sortedRef, h2) := sortInPlace compareNumbers copy h1 in
        let sorted := default [] (h2 !! sortedRef) in
        let middleIndex := (length sorted / 2)%nat in
        if (length sorted mod 2 =? 0)%nat then
          (Some ((at_index sorted (middleIndex - 1) + at_index sorted middleIndex) / 2)%float, h2)
        else (Some (at_index sorted middleIndex), h2)
  end.

(** *** [fetchAndParseSqm]

    The function is [async]; its two [await]s are modelled by handing it
    what they deliver.  The part from [textData.split] to
    [processedData] is the specification's [parse]. *)

(** An element of [polarData]: [{ time, mag, alt, azi }]. *)
Record PolarPoint := mkPolarPoint {
  time : jsValue;
  mag : number;
  alt : number;
  azi : number
}.

(** [processedData] *)
Record ProcessedData := mkProcessedData {
  medianSqm : option number;
  allSqmValues : list number;
  polarData : list PolarPoint
}.

(** The four locals the loop over the lines updates. *)
Record LoopState := mkLoopState {
  dataStarted : bool;
  sqmValuesForMedian : list number;
  allSqmValuesSoFar : list number;
  polarDataSoFar : list PolarPoint
}.

Definition initialState : LoopState := mkLoopState false [] [] [].

(** The code unit of ['#']. *)
Definition hash : N := 35%N.

(** The body of [if (columns.length >= 9)]. *)
Definition processColumns (st : LoopState) (columns : list jsString) : LoopState :=
  let time := columns !! 2%nat in
  let mag := parseFloat (columns !! 5%nat) in
  let alt := parseFloat (columns !! 7%nat) in
  let azi := parseFloat (columns !! 8%nat) in
  if negb (isNaN mag) then
    let all' := allSqmValuesSoFar st ++ [mag] in
    let polar' :=
      if truthy time && negb (isNaN alt) && ge alt 0 && le alt 90
         && negb (isNaN azi) && ge azi 0 && le azi 360
      then polarDataSoFar st ++ [mkPolarPoint time mag alt azi]
      else polarDataSoFar st in
    let forMedian' :=
      if negb (isNaN alt) && gt alt 45
      then sqmValuesForMedian st ++ [mag]
      else sqmValuesForMedian st in
    mkLoopState (dataStarted st) forMedian' all' polar'
  else st.

(** The loop body from [if (line.trim().length === 0) continue;] on. *)
Definition processLine (st : LoopState) (line : jsString) : LoopState :=
  if (length (trim line) =? 0)%nat then st
  else
    let columns := split_ws (trim line) in
    if (9 <=? length columns)%nat then processColumns st columns else st.

(** One iteration of [for (const line of lines)]. *)
Definition loopBody (st : LoopState) (line : jsString) : LoopState :=
  if negb (dataStarted st) then
    if negb (startsWith hash (trim line)) && (0 <? length (trim line))%nat then
      processLine
        (mkLoopState true (sqmValuesForMedian st) (allSqmValuesSoFar st) (polarDataSoFar st))
        line
    else st
  else processLine st line.

Definition runLoop (lines : list jsString) : LoopState := fold_left loopBody lines initialState.

(** What follows the loop: the median and the result object. *)
Definition finish (st : LoopState) : ProcessedData :=
  let medianSqm :=
    if (0 <? length (sqmValuesForMedian st))%nat
    then calculateMedian (sqmValuesForMedian st)
    else None in
  mkProcessedData medianSqm (allSqmValuesSoFar st) (polarDataSoFar st).

(** From [textData.split] to [processedData]: the spec's [parse]. *)
Definition parseSqmText (textData : jsString) : ProcessedData :=
  finish (runLoop (split_newline textData)).

(** What [await fetch(url)] and [await response.text()] deliver:
    a rejection of either promise, or a response with its [ok] flag,
    status and body. *)
Inductive FetchOutcome :=
| Rejected
| Response (ok : bool) (status : N) (textData : jsString).

(** [sqmCache]: an object literal used as a map from URLs to results.
    The map holds the properties the object has of its own. *)
Abbreviation cache := (gmap jsString ProcessedData).

(** The names of the properties that an object literal inherits from
    [Object.prototype]. *)
Definition objectPrototypeNames : list jsString :=
  [ str "constructor"; str "hasOwnProperty"; str "isPrototypeOf";
    str "propertyIsEnumerable"; str "toLocaleString"; str "toString"; str "valueOf";
    str "__proto__"; str "__defineGetter__"; str "__defineSetter__";
    str "__lookupGetter__"; str "__lookupSetter__" ].

(** A value the function can return: a result object, or the value of the
    property of [Object.prototype] with the given name (a function, or the
    prototype itself for [__proto__]). *)
Inductive Returned :=
| Data (processedData : ProcessedData)
| Inherited (name : jsString).

(** [sqmCache[sqmFileUrl]]: the object's own property, else the inherited
    one, else [undefined].  Every value found counts as true. *)
Definition getProperty (sqmCache : cache) (sqmFileUrl : jsString) : option Returned :=
  match sqmCache !! sqmFileUrl with
  | Some cached => Some (Data cached)
  | None =>
      if bool_decide (sqmFileUrl ∈ objectPrototypeNames) then Some (Inherited sqmFileUrl)
      else None
  end.

Definition emptyData : ProcessedData := mkProcessedData None [] [].

(** The [try] block: [inl tt] when it throws, otherwise the value it
    returns and the cache it leaves.  The block is entered only when
    [sqmCache[sqmFileUrl]] is [undefined]; the assignment then gives the
    object a property of its own. *)
Definition tryBlock (sqmFileUrl : jsString) (sqmCache : cache) (net : FetchOutcome)
  : unit + ProcessedData * cache :=
  match net with
  | Rejected => inl tt
  | Response ok _ textData =>
      if negb ok then inl tt
      else
        let processedData := parseSqmText textData in
        inr (processedData, <[sqmFileUrl := processedData]> sqmCache)
  end.

Definition fetchAndParseSqm (sqmFileUrl : jsString) (sqmCache : cache) (net : FetchOutcome)
  : Returned * cache :=
  match getProperty sqmCache sqmFileUrl with
  | Some cached => (cached, sqmCache)
  | None =>
      match tryBlock sqmFileUrl sqmCache net with
      | inr (processedData, sqmCache') => (Data processedData, sqmCache')
      | inl _ => (Data emptyData, sqmCache)
      end
  end.

End DataService.

(** ** js/services/visualizationService.js: the bins of [createHistogram]

    What [createHistogram] computes between [const binWidth = 0.2] and the
    construction of the chart.  Before that it returns [null] when the
    values are missing or empty or the canvas is not found; the drawing
    itself is left to Chart.js. *)

Module VisualizationService.
Import JS.

(** The literals [0.2], [16.0] and [22.0]; [0.2] is read as the nearest
    binary64 value. *)
Definition binWidth : number := 0x1.999999999999ap-3%float.
Definition minRange : number := 16%float.
Definition maxRange : number := 22%float.

Definition numCoreBins : number := Math_round ((maxRange - minRange) / binWidth)%float.

(** A label before it is rendered: ['<16'], [start.toFixed(1)-end.toFixed(1)]
    and ['>22']. *)
Inductive Label :=
| LabelBelow
| LabelRange (start end_ : number)
| LabelAbove.

(** The label pushed by iteration [i] of the [for] loop. *)
Definition coreLabel (i : nat) : Label :=
  let start := (minRange + of_Z (Z.of_nat i) * binWidth)%float in
  let end_ := (start + binWidth)%float in
  LabelRange start end_.

(** [numCoreBins] is integral, so [i < numCoreBins] holds for the first
    [numCoreBins] values of the counter. *)
Definition labels : list Label :=
  [LabelBelow] ++ map coreLabel (seq 0 (Z.to_nat (toInteger numCoreBins))) ++ [LabelAbove].

(** [bins[i]++]; every index the code uses lies inside the array. *)
Definition increment (i : nat) (bins : list nat) : list nat := alter S i bins.

(** The callback of [sqmValues.forEach]. *)
Definition countValue (bins : list nat) (val : number) : list nat :=
  if isNaN val then bins
  else if lt val minRange then increment 0 bins
  else if ge val maxRange then increment (length labels - 1) bins
  else
    let binIndex := (Math_floor ((val - minRange) / binWidth) + 1)%float in
    if gt binIndex 0 && lt binIndex (of_Z (Z.of_nat (length labels) - 1))
    then increment (Z.to_nat (toInteger binIndex)) bins
    else if (val =? minRange)%float then increment 1 bins
    else bins.

(** [bins] once every value has been counted: the spec's [bucketize]
    with the callers' parameters, labels apart. *)
Definition histogramBins (sqmValues : list number) : list nat :=
  fold_left countValue sqmValues (replicate (length labels) 0%nat).

(** The test the code applies to an interior [binIndex = n + 1], and the
    array index that number selects. *)
Definition interiorIndexOk (n : Z) : bool :=
  let binIndex := (of_Z n + 1)%float in
  gt binIndex 0 && lt binIndex (of_Z (Z.of_nat (length labels) - 1))
  && (toInteger binIndex =? n + 1).

End VisualizationService.

(** ** The specification's view of a measurement file *)

Module Spec.
Import JS DataService.

(** A header line: blank, or a comment. *)
Definition isComment (line : jsString) : bool := startsWith hash (trim line).
Definition isBlank (line : jsString) : bool := (length (trim line) =? 0)%nat.
Definition isHeaderLine (line : jsString) : bool := isComment line || isBlank line.

(** The lines from data start on. *)
Fixpoint fromDataStart (lines : list jsString) : list jsString :=
  match lines with
  | [] => []
  | line :: lines' => if isHeaderLine line then fromDataStart lines' else lines
  end.

(** The sample a line yields: none when the line is blank, has fewer
    than 9 fields, or its magnitude does not parse. *)
Definition readSample (line : jsString) : option PolarPoint :=
  if isBlank line then None
  else
    let columns := split_ws (trim line) in
    if (9 <=? length columns)%nat then
      let mag := parseFloat (columns !! 5%nat) in
      if isNaN mag then None
      else Some (mkPolarPoint (columns !! 2%nat) mag
                   (parseFloat (columns !! 7%nat)) (parseFloat (columns !! 8%nat)))
    else None.

Definition samples (lines : list jsString) : list PolarPoint :=
  omap readSample (fromDataStart lines).

(** A sample fit for the polar plot. *)
Definition isPolarSample (p : PolarPoint) : bool :=
  truthy (time p) && negb (isNaN (alt p)) && ge (alt p) 0 && le (alt p) 90
  && negb (isNaN (azi p)) && ge (azi p) 0 && le (azi p) 360.

(** A sample that counts for the median. *)
Definition isHighAltitude (p : PolarPoint) : bool :=
  negb (isNaN (alt p)) && gt (alt p) 45.

(** [Number.isFinite] *)
Definition isFinite (x : number) : bool := negb (isNaN x) && negb (is_infinity x).

(** The state the loop reaches from [st] when a line yields sample [p]. *)
Definition pushSample (st : LoopState) (p : PolarPoint) : LoopState :=
  mkLoopState (dataStarted st)
    (if isHighAltitude p then sqmValuesForMedian st ++ [mag p] else sqmValuesForMedian st)
    (allSqmValuesSoFar st ++ [mag p])
    (if isPolarSample p then polarDataSoFar st ++ [p] else polarDataSoFar st).

(** The state reached once the samples [ps] have been taken in. *)
Definition pushSamples (st : LoopState) (ps : list PolarPoint) : LoopState :=
  fold_left pushSample ps st.

(** A line that yields no sample: it has fewer than 9 fields, or its
    sixth field does not parse. *)
Definition malformed (line : jsString) : bool :=
  let columns := split_ws (trim line) in
  (length columns <? 9)%nat || isNaN (parseFloat (columns !! 5%nat)).

(** A number that is not NaN. *)
Definition isNumber (x : number) : bool := negb (isNaN x).

(** A result every field of which is as the data model requires, for
    magnitudes that satisfy [ok]: every magnitude satisfies [ok]; the
    entries of [polarData] are polar samples, and their magnitudes stand
    among [allSqmValues] in the same order; [medianSqm] is the median of
    some of the magnitudes, and [null] when of none. *)
Definition wellFormedFor (ok : number -> bool) (r : ProcessedData) : Prop :=
  Forall (fun m => ok m = true) (allSqmValues r)
  /\ Forall (fun p => isPolarSample p = true) (polarData r)
  /\ map mag (polarData r) `sublist_of` allSqmValues r
  /\ exists high,
       high `sublist_of` allSqmValues r /\ medianSqm r = calculateMedian high.

(** The data model: a sample has a finite magnitude. *)
Definition wellFormed (r : ProcessedData) : Prop := wellFormedFor isFinite r.

(** The data model with "not NaN" in the place of "finite". *)
Definition wellFormedNumbers (r : ProcessedData) : Prop := wellFormedFor isNumber r.

(** A sequence in ascending order. *)
Definition ascending (l : list number) : Prop := Sorted (fun a b => le a b = true) l.

End Spec.

(** ** The parse with its arrays in a store

    The part of [fetchAndParseSqm] from [textData.split] to
    [processedData] once more, with the three arrays it makes written out
    as locations of a store, [push] changing the array it is called on. *)

Module ParseStore.
Import JS DataService.

(** The arrays of numbers and the arrays of points that exist. *)
Record store := mkStore {
  numberArrays : heap;
  pointArrays : gmap loc (list PolarPoint)
}.

(** [const a = []], for an array that will hold numbers, and for one that
    will hold points. *)
Definition newNumberArray (s : store) : loc * store :=
  let a := fresh (dom (numberArrays s)) in
  (a, mkStore (<[a := []]> (numberArrays s)) (pointArrays s)).

Definition newPointArray (s : store) : loc * store :=
  let a := fresh (dom (pointArrays s)) in
  (a, mkStore (numberArrays s) (<[a := []]> (pointArrays s))).

(** [a.push(x)] *)
Definition pushNumber (a : loc) (x : number) (s : store) : store :=
  mkStore (alter (fun elems => elems ++ [x]) a (numberArrays s)) (pointArrays s).

Definition pushPoint (a : loc) (p : PolarPoint) (s : store) : store :=
  mkStore (numberArrays s) (alter (fun elems => elems ++ [p]) a (pointArrays s)).

(** The constants [sqmValuesForMedian], [allSqmValues] and [polarData]:
    references to arrays. *)
Record Refs := mkRefs {
  sqmValuesForMedianRef : loc;
  allSqmValuesRef : loc;
  polarDataRef : loc
}.

(** The body of [if (columns.length >= 9)]. *)
Definition processColumnsIn (v : Refs) (columns : list jsString) (s : store) : store :=
  let time := columns !! 2%nat in
  let mag := parseFloat (columns !! 5%nat) in
  let alt := parseFloat (columns !! 7%nat) in
  let azi := parseFloat (columns !! 8%nat) in
  if negb (isNaN mag) then
    let s1 := pushNumber (allSqmValuesRef v) mag s in
    let s2 :=
      if truthy time && negb (isNaN alt) && ge alt 0 && le alt 90
         && negb (isNaN azi) && ge azi 0 && le azi 360
      then pushPoint (polarDataRef v) (mkPolarPoint time mag alt azi) s1
      else s1 in
    if negb (isNaN alt) && gt alt 45
    then pushNumber (sqmValuesForMedianRef v) mag s2
    else s2
  else s.

Definition processLineIn (v : Refs) (line : jsString) (s : store) : store :=
  if (length (trim line) =? 0)%nat then s
  else
    let columns := split_ws (trim line) in
    if (9 <=? length columns)%nat then processColumnsIn v columns s else s.

(** One iteration of the loop, on [dataStarted] and the store. *)
Definition loopBodyIn (v : Refs) (st : bool * store) (line : jsString) : bool * store :=
  let '(dataStarted, s) := st in
  if negb dataStarted then
    if negb (startsWith hash (trim line)) && (0 <? length (trim line))%nat
    then (true, processLineIn v line s)
    else (false, s)
  else (true, processLineIn v line s).

(** [processedData]: the median, and the two arrays by reference. *)
Record ResultRef := mkResultRef {
  medianSqmOf : option number;
  allSqmValuesOf : loc;
  polarDataOf : loc
}.

Definition parseSqmTextIn (textData : jsString) (s : store) : ResultRef * store :=
  let lines := split_newline textData in
  let '(forMedian, s1) := newNumberArray s in
  let '(all, s2) := newNumberArray s1 in
  let '(polar, s3) := newPointArray s2 in
  let v := mkRefs forMedian all polar in
  let '(_, s4) := fold_left (loopBodyIn v) lines (false, s3) in
  let '(medianSqm, h5) :=
    if (0 <? length (default [] (numberArrays s4 !! forMedian)))%nat
    then calculateMedianIn forMedian (numberArrays s4)
    else (None, numberArrays s4) in
  (mkResultRef medianSqm all polar, mkStore h5 (pointArrays s4)).

(** The result object with its arrays read out of the store: its
    structure. *)
Definition readResult (r : ResultRef) (s : store) : ProcessedData :=
  mkProcessedData (medianSqmOf r)
    (default [] (numberArrays s !! allSqmValuesOf r))
    (default [] (pointArrays s !! polarDataOf r)).

(** The arrays of [v] hold what the state [st] of the loop holds. *)
Definition holds (v : Refs) (s : store) (st : LoopState) : Prop :=
  numberArrays s !! sqmValuesForMedianRef v = Some (sqmValuesForMedian st)
  /\ numberArrays s !! allSqmValuesRef v = Some (allSqmValuesSoFar st)
  /\ pointArrays s !! polarDataRef v = Some (polarDataSoFar st).

(** The arrays of [s] are in [s'] as they are in [s]. *)
Definition preserved (s s' : store) : Prop :=
  (forall a, is_Some (numberArrays s !! a) -> numberArrays s' !! a = numberArrays s !! a)
  /\ (forall a, is_Some (pointArrays s !! a) -> pointArrays s' !! a = pointArrays s !! a).

End ParseStore.

(** ** Binary64 rounding *)

(** The shift [shr_fexp] applies: none when the exponent is already at or
    above the canonical one. *)
Definition shift_of (m : positive) (e : Z) : Z :=
  Z.max 0 (fexp prec emax (Z.pos (digits2_pos m) + e) - e).

(** ** Measurement files used as examples *)

Module Files.
Import JS.

Definition newline : jsString := [10%N].

(** Altitude 46, azimuth 10, magnitude 20.5, time 12:00:00. *)
Definition lineHigh : jsString := str "1 2024-05-01 12:00:00 25.1 0 20.5 1 46 10".
(** A comment with nine fields, the sixth of which reads as a number. *)
Definition lineComment : jsString := str "# 2024-05-01 13:00:00 25.1 0 19.0 1 60 20".
Definition lineInfinity : jsString := str "1 2024-05-01 12:01:00 25.1 0 Infinity 1 50 10".
Definition lineNoMagnitude : jsString := str "1 2024-05-01 12:02:00 25.1 0 n/a 1 50 10".
Definition lineAltitude30 : jsString := str "1 2024-05-01 12:03:00 25.1 0 21.0 1 30 10".
(** Altitude 80, magnitude 22. *)
Definition lineAltitude80 : jsString := str "1 2024-05-01 12:06:00 25.1 0 22.0 1 80 10".
Definition lineAzimuth400 : jsString := str "1 2024-05-01 12:04:00 25.1 0 20.0 1 50 400".
Definition lineEightFields : jsString := str "1 2024-05-01 12:05:00 25.1 0 20.5 1 46".
Definition header : list jsString := [str "# SQM log"; []; str "   "; str "  # units: mag/arcsec2"].

Definition joinLines (lines : list jsString) : jsString :=
  match lines with
  | [] => []
  | l :: ls => l ++ concat (map (fun l' => newline ++ l') ls)
  end.

(** Four readings after the header: altitudes 30, 46, 80 and 60, with
    magnitudes 21, 20.5, 22 and 19. *)
Definition fourReadings : jsString :=
  joinLines (header ++ [lineAltitude30; lineHigh; lineAltitude80; lineComment]).

End Files.

(** ** Notions used by the further properties *)

(** Lines and their white space. *)
Module Lines.
Import JS.

(** [a.join(sep)] for an array of strings. *)
Fixpoint join (sep : jsString) (a : list jsString) : jsString :=
  match a with
  | [] => []
  | [s] => s
  | s :: rest => s ++ sep ++ join sep rest
  end.

Definition noLineFeed (s : jsString) : Prop := Forall (fun c => c <> 10%N) s.
Definition allWhiteSpace (s : jsString) : Prop := Forall (fun c => isWhiteSpace c = true) s.

(** A string that does not end in white space. *)
Definition endsClean (s : jsString) : Prop :=
  match last s with
  | Some c => isWhiteSpace c = false
  | None => True
  end.

End Lines.

Module HistogramIndex.
Import JS VisualizationService.

(** The bin a value is counted in, when it is counted. *)
Definition bucketOf (val : number) : option nat :=
  if isNaN val then None
  else if lt val minRange then Some 0%nat
  else if ge val maxRange then Some (length labels - 1)%nat
  else
    let binIndex := (Math_floor ((val - minRange) / binWidth) + 1)%float in
    if gt binIndex 0 && lt binIndex (of_Z (Z.of_nat (length labels) - 1))
    then Some (Z.to_nat (toInteger binIndex))
    else if (val =? minRange)%float then Some 1%nat
    else None.

End HistogramIndex.

(** ** [createHistogram] as a whole *)

Module HistogramChart.
Import JS VisualizationService.

(** What [createHistogram] hands to the chart it returns, or [None] when
    it returns [null]: before any bin is made for [null], [undefined] and
    the empty array, and when the canvas is not found.  [sqmValues = None]
    stands for [null] and [undefined]. *)
Definition createHistogram (canvasFound : bool) (sqmValues : option (list number))
  : option (list Label * list nat) :=
  match sqmValues with
  | None => None
  | Some values =>
      if (length values =? 0)%nat then None
      else if negb canvasFound then None
      else Some (labels, histogramBins values)
  end.

End HistogramChart.

(** The order of the numbers. *)
Module NumberOrder.

(** A key that orders the numbers as the comparisons do: the class
    (negative infinity, negative, zero, positive, positive infinity), then
    exponent and significand. *)
Definition orderKey (x : spec_float) : Z * Z * Z :=
  match x with
  | S754_infinity true => (-2, 0, 0)
  | S754_finite true m e => (-1, - e, - Z.pos m)
  | S754_zero _ => (0, 0, 0)
  | S754_nan => (0, 0, 0)
  | S754_finite false m e => (1, e, Z.pos m)
  | S754_infinity false => (2, 0, 0)
  end.

Definition keyLt (k1 k2 : Z * Z * Z) : Prop :=
  let '(a1, b1, c1) := k1 in
  let '(a2, b2, c2) := k2 in
  a1 < a2 \/ (a1 = a2 /\ (b1 < b2 \/ (b1 = b2 /\ c1 < c2))).

End NumberOrder.

(** ** [js/services/mapService.js] *)

Module MapService.
Import JS.

#[local] Set Warnings "-inexact-float".


(** The fill colour of a marker, from [representativeSqm]. *)
Definition markerColor (representativeSqm : number) : jsString :=
  if isNaN representativeSqm then str "#808080"
  else if ge representativeSqm 21.76 then str "#000000"
  else if ge representativeSqm 21.6 then str "#4D4D4D"
  else if ge representativeSqm 21.3 then str "#1F3A75"
  else if ge representativeSqm 20.8 then str "#004EB3"
  else if ge representativeSqm 20.3 then str "#2E8A00"
  else if ge representativeSqm 19.25 then str "#DADA00"
  else if ge representativeSqm 18.5 then str "#FF5600"
  else if ge representativeSqm 18.0 then str "#DF73FF"
  else str "#E5C9FF".

(** [color: markerColor === '#000000' ? '#CCCCCC' : '#000'] *)
Definition markerOutline (markerColor : jsString) : jsString :=
  if bool_decide (markerColor = str "#000000") then str "#CCCCCC" else str "#000".

(** [const representativeSqm = parseFloat(item.medianSqm)] and the colour
    chosen from it. *)
Definition itemColor (medianSqm : jsValue) : jsString := markerColor (parseFloat medianSqm).

Record LegendEntry := mkLegendEntry {
  sqm : jsString;
  color : jsString;
  outline : jsValue;
  label : jsString
}.

(** [legendData]; U+2265 is the sign of "greater than or equal to", U+2013
    the dash. *)
Definition legendData : list LegendEntry :=
  [ mkLegendEntry (8805%N :: str " 21.76") (str "#000000") (Some (str "#CCCCCC")) (str "Class 1");
    mkLegendEntry (str "21.6" ++ 8211%N :: str "21.75") (str "#4D4D4D") None (str "Class 2");
    mkLegendEntry (str "21.3" ++ 8211%N :: str "21.6") (str "#1F3A75") None (str "Class 3");
    mkLegendEntry (str "20.8" ++ 8211%N :: str "21.3") (str "#004EB3") None (str "Class 4");
    mkLegendEntry (str "20.3" ++ 8211%N :: str "20.8") (str "#2E8A00") None (str "Class 4.5");
    mkLegendEntry (str "19.25" ++ 8211%N :: str "20.3") (str "#DADA00") None (str "Class 5");
    mkLegendEntry (str "18.5" ++ 8211%N :: str "19.25") (str "#FF5600") None (str "Class 6");
    mkLegendEntry (str "18.0" ++ 8211%N :: str "18.5") (str "#DF73FF") None (str "Class 7");
    mkLegendEntry (str "< 18.0") (str "#E5C9FF") None (str "Class 8/9");
    mkLegendEntry (str "N/A") (str "#808080") (Some (str "#FF0000")) (str "No Data") ].

(** The place of a colour in the legend, counted from the top. *)
Fixpoint legendIndex (c : jsString) (legend : list LegendEntry) : nat :=
  match legend with
  | [] => 0
  | e :: rest => if bool_decide (color e = c) then 0 else S (legendIndex c rest)
  end.

End MapService.

(** ** Arrays and [Math.min] *)

Module JSArray.
Import JS.

Definition isNegativeZero (x : number) : bool :=
  match Prim2SF x with
  | S754_zero true => true
  | _ => false
  end.

Definition isPositiveZero (x : number) : bool :=
  match Prim2SF x with
  | S754_zero false => true
  | _ => false
  end.

(** [Math.min(a, b)]: NaN when an argument is NaN; [-0] is below [+0]. *)
Definition Math_min (a b : number) : number :=
  if isNaN a || isNaN b then NaN
  else if isNegativeZero b && isPositiveZero a then b
  else if lt b a then b
  else a.

(** ToIntegerOrInfinity of the language definition. *)
Inductive integerOrInfinity : Type :=
| NegativeInfinity
| Integer (z : Z)
| PositiveInfinity.

Definition toIntegerOrInfinity (x : number) : integerOrInfinity :=
  match Prim2SF x with
  | S754_nan => Integer 0
  | S754_zero _ => Integer 0
  | S754_infinity true => NegativeInfinity
  | S754_infinity false => PositiveInfinity
  | S754_finite _ _ _ => Integer (toInteger x)
  end.

(** The place in an array of length [len] that a relative index of
    [slice] stands for: counted from the end when negative, and kept
    within [0, len]. *)
Definition relativeIndex (len : nat) (r : integerOrInfinity) : nat :=
  match r with
  | NegativeInfinity => 0
  | Integer z =>
      if z <? 0 then Z.to_nat (Z.max (Z.of_nat len + z) 0)
      else Z.to_nat (Z.min z (Z.of_nat len))
  | PositiveInfinity => len
  end.

(** [a.slice(start, end)]; [end_ = None] when the argument is left out. *)
Definition slice {A : Type} (a : list A) (start : number) (end_ : option number) : list A :=
  let len := length a in
  let k := relativeIndex len (toIntegerOrInfinity start) in
  let final :=
    match end_ with
    | None => len
    | Some e => relativeIndex len (toIntegerOrInfinity e)
    end in
  take (final - k) (drop k a).

End JSArray.

(** ** [loadAndProcessData] of [js/services/dataService.js] *)

Module PanoData.
Import JS JSArray.

(** An entry of the panorama manifest: the fields the code reads. *)
Record PanoItem := mkPanoItem {
  locality : jsValue;
  region : jsValue;
  country : jsValue;
  latitude : option number;
  longitude : option number;
  sqmFileUrl : jsValue
}.

(** What [processPanoItem] returns: the item's own fields and the ones it
    adds or overrides. *)
Record ProcessedPano := mkProcessedPano {
  item : PanoItem;
  medianSqm : jsString;
  allSqmValues : list number;
  polarData : list DataService.PolarPoint;
  locationName : jsString;
  isFeatured : bool
}.

(** Whether a number read from the manifest counts as true. *)
Definition numberTruthy (x : option number) : bool :=
  match x with
  | Some v => negb (isNaN v) && negb (v =? 0)%float
  | None => false
  end.

(** The value of a coordinate in a call of [toFixed]. *)
Definition numberOf (x : option number) : number := default NaN x.

Section WithToFixed.

(** [x.toFixed(digits)] *)
Variable toFixed : number -> nat -> jsString.

(** [[item.locality, item.region, item.country].filter(Boolean).join(', ')]
    and the two fallbacks. *)
Definition locationNameOf (item : PanoItem) : jsString :=
  let locationName :=
    Lines.join (str ", ")
      (omap (fun v : jsValue => if truthy v then v else None)
            [locality item; region item; country item]) in
  if negb (truthy (Some locationName))
     && numberTruthy (latitude item) && numberTruthy (longitude item)
  then str "Lat: " ++ toFixed (numberOf (latitude item)) 3
       ++ str ", Lon: " ++ toFixed (numberOf (longitude item)) 3
  else if negb (truthy (Some locationName)) then str "Unknown Location"
  else locationName.

(** [processPanoItem(item, isFeaturedFlag)], after [sqmResult] has been
    awaited. *)
Definition processPanoItem (item : PanoItem) (isFeaturedFlag : bool)
    (sqmResult : DataService.ProcessedData) : ProcessedPano :=
  {| item := item;
     medianSqm :=
       match DataService.medianSqm sqmResult with
       | Some m => toFixed m 2
       | None => str "N/A"
       end;
     allSqmValues := DataService.allSqmValues sqmResult;
     polarData := DataService.polarData sqmResult;
     locationName := locationNameOf item;
     isFeatured := isFeaturedFlag |}.

(** [Math.min(panoManifest.length, MAX_FEATURED_PANORAMAS_CONFIG)] *)
Definition featuredItemsCount (panoManifest : list PanoItem) (MAX : number) : number :=
  Math_min (of_Z (Z.of_nat (length panoManifest))) MAX.

(** The calls [processPanoItem(item, flag)] made, in the order of the
    results: the featured ones, then the remaining ones. *)
Definition processCalls (panoManifest : list PanoItem) (MAX : number) : list (PanoItem * bool) :=
  let featuredItemsCount := featuredItemsCount panoManifest MAX in
  map (fun item => (item, true)) (slice panoManifest 0%float (Some featuredItemsCount))
  ++ map (fun item => (item, false)) (slice panoManifest featuredItemsCount None).

(** [processedPanoData]; [sqmResults] are the results of the calls of
    [fetchAndParseSqm], in the order of the calls. *)
Definition processedPanoData (panoManifest : list PanoItem) (MAX : number)
    (sqmResults : list DataService.ProcessedData) : list ProcessedPano :=
  zip_with (fun call sqmResult => processPanoItem call.1 call.2 sqmResult)
           (processCalls panoManifest MAX) sqmResults.

End WithToFixed.

(** [panoData.filter(item => item.isFeatured)] of [initializeUI]. *)
Definition featuredPanoData (panoData : list ProcessedPano) : list ProcessedPano :=
  List.filter isFeatured panoData.

(** Manifest entries used as examples: a place with names, and a place
    on the equator without any. *)
Definition zermatt : PanoItem :=
  mkPanoItem (Some (str "Zermatt")) None (Some (str "CH")) None None None.
Definition equator : PanoItem :=
  mkPanoItem None (Some []) None (Some 0%float) (Some 7.5%float) None.

End PanoData.

(** ** [js/services/galleryService.js]: the lightbox *)

Module GalleryService.
Import JS JSArray.

(** An entry of the astrophotography manifest: the fields the lightbox
    reads. *)
Record AstroItem := mkAstroItem {
  imageName : jsValue;
  mediumImageName : jsValue;
  title : jsValue
}.

(** The arrows of the lightbox element: [true] for [display: block],
    [false] for [display: none]. *)
Record Arrows := mkArrows {
  prevArrow : bool;
  nextArrow : bool
}.

(** The two variables of the module, and the lightbox element once it has
    been created. *)
Record Lightbox := mkLightbox {
  currentAstroGalleryIndex : Z;
  astroGalleryItems : list AstroItem;
  lightbox : option Arrows
}.

Definition initialLightbox : Lightbox :=
  {| currentAstroGalleryIndex := 0; astroGalleryItems := []; lightbox := None |}.

(** [astroGalleryItems[index]] *)
Definition itemAt (items : list AstroItem) (index : Z) : option AstroItem :=
  if index <? 0 then None else items !! Z.to_nat index.

Definition updateLightboxView (index : Z) (st : Lightbox) : Lightbox :=
  let len := Z.of_nat (length (astroGalleryItems st)) in
  if (index <? 0) || (index >=? len) then st
  else
    let st := {| currentAstroGalleryIndex := index;
                 astroGalleryItems := astroGalleryItems st;
                 lightbox := lightbox st |} in
    match lightbox st, itemAt (astroGalleryItems st) index with
    | Some _, Some _ =>
        {| currentAstroGalleryIndex := index;
           astroGalleryItems := astroGalleryItems st;
           lightbox := Some {| prevArrow := negb (index =? 0);
                               nextArrow := negb (index =? len - 1) |} |}
    | _, _ => st
    end.

(** [openLightbox(index, items)]; the element is created with both arrows
    displayed. *)
Definition openLightbox (index : Z) (items : list AstroItem) (st : Lightbox) : Lightbox :=
  let created :=
    match lightbox st with
    | Some arrows => arrows
    | None => {| prevArrow := true; nextArrow := true |}
    end in
  updateLightboxView index
    {| currentAstroGalleryIndex := index; astroGalleryItems := items; lightbox := Some created |}.

Definition closeLightbox (st : Lightbox) : Lightbox :=
  {| currentAstroGalleryIndex := 0; astroGalleryItems := []; lightbox := lightbox st |}.

(** The listener of the button [.lightbox-prev]. *)
Definition onPrev (st : Lightbox) : Lightbox :=
  if currentAstroGalleryIndex st >? 0
  then updateLightboxView (currentAstroGalleryIndex st - 1) st
  else st.

(** The listener of the button [.lightbox-next]. *)
Definition onNext (st : Lightbox) : Lightbox :=
  if currentAstroGalleryIndex st <? Z.of_nat (length (astroGalleryItems st)) - 1
  then updateLightboxView (currentAstroGalleryIndex st + 1) st
  else st.

(** [a.findIndex(p)]: the first place whose element satisfies [p], or
    [-1]. *)
Fixpoint findIndexFrom {A : Type} (p : A -> bool) (a : list A) (i : Z) : Z :=
  match a with
  | [] => -1
  | x :: rest => if p x then i else findIndexFrom p rest (i + 1)
  end.

Definition findIndex {A : Type} (p : A -> bool) (a : list A) : Z := findIndexFrom p a 0.

(** [fullItem.imageName === item.imageName] *)
Definition sameImageName (item fullItem : AstroItem) : bool :=
  bool_decide (imageName fullItem = imageName item).

(** [itemsToFeature] of [initFeaturedAstroGallery]. *)
Definition itemsToFeature (astroData : list AstroItem) (maxItems : number) : list AstroItem :=
  slice astroData 0%float (Some maxItems).

(** The click listener of the slide made for [item] in
    [initFeaturedAstroGallery]. *)
Definition onFeaturedSlideClick (astroData : list AstroItem) (item : AstroItem)
    (st : Lightbox) : Lightbox :=
  let originalIndex := findIndex (sameImageName item) astroData in
  openLightbox originalIndex astroData st.

(** The click listener of the gallery item at place [index] in
    [initAstroGallery]. *)
Definition onGalleryItemClick (astroData : list AstroItem) (index : nat)
    (st : Lightbox) : Lightbox :=
  openLightbox (Z.of_nat index) astroData st.

(** What a visitor can do. *)
Inductive Event : Type :=
| ClickGalleryItem (astroData : list AstroItem) (index : nat)
| ClickFeaturedSlide (astroData : list AstroItem) (maxItems : number) (slide : nat)
| ClickPrev
| ClickNext
| ClickClose.

(** An event that can occur: a gallery item or a slide that exists, and
    the buttons of a lightbox that has been created. *)
Definition possible (st : Lightbox) (ev : Event) : bool :=
  match ev with
  | ClickGalleryItem astroData index => bool_decide (index < length astroData)%nat
  | ClickFeaturedSlide astroData maxItems slide =>
      bool_decide (slide < length (itemsToFeature astroData maxItems))%nat
  | ClickPrev | ClickNext | ClickClose => bool_decide (is_Some (lightbox st))
  end.

Definition handle (st : Lightbox) (ev : Event) : Lightbox :=
  if possible st ev then
    match ev with
    | ClickGalleryItem astroData index => onGalleryItemClick astroData index st
    | ClickFeaturedSlide astroData maxItems slide =>
        match itemsToFeature astroData maxItems !! slide with
        | Some item => onFeaturedSlideClick astroData item st
        | None => st
        end
    | ClickPrev => onPrev st
    | ClickNext => onNext st
    | ClickClose => closeLightbox st
    end
  else st.

Definition handleAll (events : list Event) : Lightbox := fold_left handle events initialLightbox.

(** What holds of the lightbox at any time. *)
Definition consistent (st : Lightbox) : Prop :=
  let n := Z.of_nat (length (astroGalleryItems st)) in
  (astroGalleryItems st = [] /\ currentAstroGalleryIndex st = 0
   \/ 0 <= currentAstroGalleryIndex st < n)
  /\ (astroGalleryItems st <> [] ->
      exists arrows, lightbox st = Some arrows
        /\ prevArrow arrows = negb (currentAstroGalleryIndex st =? 0)
        /\ nextArrow arrows = negb (currentAstroGalleryIndex st =? n - 1)).

(** Pictures used as examples; the third has the image name of the
    first. *)
Definition m31 : AstroItem :=
  mkAstroItem (Some (str "m31.jpg")) (Some (str "m31_medium.jpg")) (Some (str "M31")).
Definition m42 : AstroItem :=
  mkAstroItem (Some (str "m42.jpg")) (Some (str "m42_medium.jpg")) (Some (str "M42")).
Definition m31again : AstroItem :=
  mkAstroItem (Some (str "m31.jpg")) (Some (str "m31_wide.jpg")) (Some (str "M31, wide field")).

End GalleryService.

(** ** Calls of [fetchAndParseSqm] one after the other *)

Module Fetches.
Import JS DataService.

(** A call and what the network answers to it. *)
Definition Request : Type := jsString * FetchOutcome.

(** The calls [requests], each awaited before the next is made: the
    results in order, and the cache they leave. *)
Fixpoint fetchAll (requests : list Request) (sqmCache : cache) : list Returned * cache :=
  match requests with
  | [] => ([], sqmCache)
  | (sqmFileUrl, net) :: rest =>
      let '(result, sqmCache') := fetchAndParseSqm sqmFileUrl sqmCache net in
      let '(results, final) := fetchAll rest sqmCache' in
      (result :: results, final)
  end.

(** The body of the first answer to [sqmFileUrl] that is a response with
    [ok] set. *)
Fixpoint firstSuccess (sqmFileUrl : jsString) (requests : list Request) : option jsString :=
  match requests with
  | [] => None
  | (url, Response true _ textData) :: rest =>
      if bool_decide (url = sqmFileUrl) then Some textData else firstSuccess sqmFileUrl rest
  | _ :: rest => firstSuccess sqmFileUrl rest
  end.

(** What the call for [sqmFileUrl] returns when the object has no property
    of that name of its own and [textData] is the body of the first
    successful answer so far, if there has been one. *)
Definition answer (sqmFileUrl : jsString) (textData : option jsString) : Returned :=
  if bool_decide (sqmFileUrl ∈ objectPrototypeNames) then Inherited sqmFileUrl
  else match textData with
       | Some text => Data (parseSqmText text)
       | None => Data emptyData
       end.

End Fetches.

(** ** [initFeaturedVisualizations] of [js/script.js] *)

Module FeaturedVisualizations.
Import JS JSArray.

(** The decimal digits of a numeral, most significant first. *)
Fixpoint uintDigits (d : Decimal.uint) : list N :=
  match d with
  | Decimal.Nil => []
  | Decimal.D0 d' => 0%N :: uintDigits d'
  | Decimal.D1 d' => 1%N :: uintDigits d'
  | Decimal.D2 d' => 2%N :: uintDigits d'
  | Decimal.D3 d' => 3%N :: uintDigits d'
  | Decimal.D4 d' => 4%N :: uintDigits d'
  | Decimal.D5 d' => 5%N :: uintDigits d'
  | Decimal.D6 d' => 6%N :: uintDigits d'
  | Decimal.D7 d' => 7%N :: uintDigits d'
  | Decimal.D8 d' => 8%N :: uintDigits d'
  | Decimal.D9 d' => 9%N :: uintDigits d'
  end.

(** [String(index)] for the index of a [forEach]: what [option.value =
    index] stores. *)
Definition indexToString (index : nat) : jsString :=
  map (fun d => (48 + d)%N) (uintDigits (Nat.to_uint index)).

(** [parseInt(string, 10)] *)
Definition parseInt10 (string : jsString) : number :=
  let S := trimStart string in
  let sign := match S with 45%N :: _ => true | _ => false end in
  let S := match S with
           | 43%N :: S' => S'
           | 45%N :: S' => S'
           | _ => S
           end in
  match spanDigits S with
  | ([], _) => NaN
  | (Z, _) =>
      let mathInt := digitsValue Z in
      if mathInt =? 0 then (if sign then (-0)%float else 0%float)
      else of_Z (if sign then - mathInt else mathInt)
  end.

(** Whether a number is an integer (the infinities and NaN are not). *)
Definition isIntegral (x : number) : bool :=
  match Prim2SF x with
  | S754_zero _ => true
  | S754_finite _ m e => (0 <=? e) || (Z.pos m mod 2 ^ (- e) =? 0)
  | _ => false
  end.

(** [a[x]] for a number [x]: an element when [x] is an index. *)
Definition elementAt {A : Type} (a : list A) (x : number) : option A :=
  if isIntegral x && (0 <=? toInteger x) then a !! Z.to_nat (toInteger x) else None.

(** The values of the options made by [featuredData.forEach]. *)
Definition optionValues {A : Type} (featuredData : list A) : list jsString :=
  imap (fun index _ => indexToString index) featuredData.

(** [updateVisualizations] when the select element has the value
    [value]: the entry whose charts are drawn, or [None] when the empty
    charts are. *)
Definition updateVisualizations {A : Type} (featuredData : list A) (value : jsString)
  : option A :=
  let selectedIndex := parseInt10 value in
  if negb (isNaN selectedIndex) then elementAt featuredData selectedIndex else None.

End FeaturedVisualizations.

(** ** The popup of a marker in [initMap] *)

Module MapPopup.
Import JS PanoData.

(** A value in a template literal. *)
Definition inTemplate (v : jsValue) : jsString := default (str "undefined") v.

(** [item.locationName || item.locality || 'Unknown Location'], the title
    of the popup, of a slide and of a gallery entry. *)
Definition popupTitle (p : ProcessedPano) : jsString :=
  if truthy (Some (locationName p)) then locationName p
  else if truthy (locality (item p)) then inTemplate (locality (item p))
  else str "Unknown Location".

(** The line with the structured location that the popup gets after its
    title, when it gets one. *)
Definition structuredLocationLine (p : ProcessedPano) : option jsString :=
  let it := item p in
  if truthy (locality it) && truthy (region it) && truthy (country it)
     && negb (bool_decide
                (locationName p
                 = inTemplate (locality it) ++ str ", " ++ inTemplate (region it)
                   ++ str ", " ++ inTemplate (country it)))
  then
    let structuredLocation :=
      Lines.join (str ", ")
        (omap (fun v : jsValue => if truthy v then v else None)
              [locality it; region it; country it]) in
    if truthy (Some structuredLocation) then Some structuredLocation else None
  else None.

End MapPopup.

(** ** Numbers that compare as equal *)

Module NumberValue.
Import JS NumberOrder.

Definition isZero (x : number) : bool :=
  match Prim2SF x with
  | S754_zero _ => true
  | _ => false
  end.

(** The same number, up to the sign of zero. *)
Definition sameValue (a b : number) : Prop := a = b \/ (isZero a = true /\ isZero b = true).

(** The same result of [calculateMedian], up to the sign of zero. *)
Definition sameMedian (r r' : option number) : Prop :=
  match r, r' with
  | Some m, Some m' => sameValue m m'
  | None, None => True
  | _, _ => False
  end.

Definition keyLe (k1 k2 : Z * Z * Z) : Prop := keyLt k1 k2 \/ k1 = k2.

End NumberValue.

(** ** Facts about binary64 arithmetic

    Derived from [SpecFloat], the specification the primitive operations
    satisfy. *)

Section Rounding.

Lemma digits_bounds (p : positive) :
  2 ^ (Z.pos (digits2_pos p) - 1) <= Z.pos p < 2 ^ Z.pos (digits2_pos p).
Proof.
  induction p as [p IH|p IH|]; cbn [digits2_pos]; [| |cbn; lia];
    rewrite Pos2Z.inj_succ;
    replace (Z.succ (Z.pos (digits2_pos p)) - 1) with (Z.succ (Z.pos (digits2_pos p) - 1)) by lia;
    rewrite !Z.pow_succ_r by lia; lia.
Qed.

Lemma shr_1_m (mrs : shr_record) :
  0 <= shr_m mrs -> shr_m (shr_1 mrs) = shr_m mrs / 2.
Proof.
  destruct mrs as [m r s]. cbn [shr_m]. intros Hm.
  destruct m as [|[p|p|]|p]; cbn [shr_1 shr_m]; try lia.
  all: try reflexivity.
  - rewrite Pos2Z.inj_xI. apply Z.div_unique with 1; lia.
  - rewrite Pos2Z.inj_xO. apply Z.div_unique with 0; lia.
Qed.

Lemma shr_iter_m (n : positive) (mrs : shr_record) :
  0 <= shr_m mrs -> shr_m (SpecFloat.iter_pos shr_1 n mrs) = shr_m mrs / 2 ^ Z.pos n.
Proof.
  revert mrs. induction n as [n IH|n IH|]; intros mrs Hm; cbn [SpecFloat.iter_pos].
  - assert (H1 : 0 <= shr_m (shr_1 mrs)) by (rewrite shr_1_m by lia; apply Z.div_pos; lia).
    assert (H2 : 0 <= shr_m (SpecFloat.iter_pos shr_1 n (shr_1 mrs)))
      by (rewrite IH by lia; apply Z.div_pos; [lia | apply Z.pow_pos_nonneg; lia]).
    rewrite IH, IH, shr_1_m by lia.
    rewrite !Z.div_div by (try apply Z.pow_pos_nonneg; lia).
    f_equal. replace (Z.pos n~1) with (1 + Z.pos n + Z.pos n) by lia.
    rewrite !Z.pow_add_r by lia. lia.
  - assert (H2 : 0 <= shr_m (SpecFloat.iter_pos shr_1 n mrs))
      by (rewrite IH by lia; apply Z.div_pos; [lia | apply Z.pow_pos_nonneg; lia]).
    rewrite IH, IH by lia.
    rewrite !Z.div_div by (try apply Z.pow_pos_nonneg; lia).
    f_equal. replace (Z.pos n~0) with (Z.pos n + Z.pos n) by lia.
    rewrite !Z.pow_add_r by lia. lia.
  - rewrite shr_1_m by lia. reflexivity.
Qed.

Lemma shr_record_of_loc_m (m : Z) (l : location) : shr_m (shr_record_of_loc m l) = m.
Proof. destruct l as [|[| |]]; reflexivity. Qed.

Lemma shr_fexp_spec (m : positive) (e : Z) (l : location) :
  shr_m (fst (shr_fexp prec emax (Z.pos m) e l)) = Z.pos m / 2 ^ shift_of m e
  /\ snd (shr_fexp prec emax (Z.pos m) e l) = e + shift_of m e.
Proof.
  unfold shr_fexp, shr, shift_of. cbn [Zdigits2].
  destruct (fexp prec emax (Z.pos (digits2_pos m) + e) - e) as [|n|n] eqn:Hn; cbn [fst snd].
  - rewrite shr_record_of_loc_m. cbn. rewrite Z.div_1_r. split; lia.
  - rewrite shr_iter_m by (rewrite shr_record_of_loc_m; lia).
    rewrite shr_record_of_loc_m. rewrite Z.max_r by lia. split; reflexivity.
  - rewrite shr_record_of_loc_m. rewrite Z.max_l by lia. cbn. rewrite Z.div_1_r. split; lia.
Qed.

Lemma shift_lt_digits (m : positive) (e : Z) :
  SpecFloat.emin prec emax <= e -> shift_of m e < Z.pos (digits2_pos m).
Proof.
  unfold shift_of, fexp. intros He.
  assert (prec = 53) by reflexivity. lia.
Qed.

Lemma shifted_pos (m : positive) (n : Z) :
  0 <= n < Z.pos (digits2_pos m) -> 0 < Z.pos m / 2 ^ n.
Proof.
  intros Hn. apply Z.div_str_pos. split; [apply Z.pow_pos_nonneg; lia|].
  transitivity (2 ^ (Z.pos (digits2_pos m) - 1)); [|apply digits_bounds].
  apply Z.pow_le_mono_r; lia.
Qed.

Lemma round_nearest_even_bounds (m : Z) (l : location) :
  m <= round_nearest_even m l <= m + 1.
Proof.
  unfold round_nearest_even. destruct l as [|[| |]]; try lia.
  destruct (Z.even m); lia.
Qed.

(** Rounding a positive significand at an exponent not below [emin]:
    the result is positive, finite or infinite, and it exceeds the
    significand by at most the weight of the bits shifted out. *)
Lemma binary_round_aux_pos (q : positive) (e : Z) (l : location) :
  SpecFloat.emin prec emax <= e ->
  exists m3 e3,
    binary_round_aux prec emax false (Z.pos q) e l
      = (if e3 <=? emax - prec then S754_finite false m3 e3 else S754_infinity false)
    /\ e + shift_of q e <= e3
    /\ Z.pos m3 * 2 ^ (e3 - e) <= Z.pos q + 2 ^ shift_of q e.
Proof.
  intros He. unfold binary_round_aux.
  destruct (shr_fexp_spec q e l) as [Hm1 He1].
  destruct (shr_fexp prec emax (Z.pos q) e l) as [mrs1 e1]. cbn [fst snd] in Hm1, He1.
  pose proof (shift_lt_digits q e He) as Hlt.
  assert (Hn1 : 0 <= shift_of q e) by (unfold shift_of; lia).
  pose proof (shifted_pos q (shift_of q e) (conj Hn1 Hlt)) as Hpos1.
  pose proof (round_nearest_even_bounds (shr_m mrs1) (loc_of_shr_record mrs1)) as Hr.
  destruct (round_nearest_even (shr_m mrs1) (loc_of_shr_record mrs1)) as [|m2|m2] eqn:Hm2; try lia.
  destruct (shr_fexp_spec m2 e1 loc_Exact) as [Hm3 He3].
  destruct (shr_fexp prec emax (Z.pos m2) e1 loc_Exact) as [mrs3 e3]. cbn [fst snd] in Hm3, He3.
  assert (He1' : SpecFloat.emin prec emax <= e1) by lia.
  pose proof (shift_lt_digits m2 e1 He1') as Hlt2.
  assert (Hn2 : 0 <= shift_of m2 e1) by (unfold shift_of; lia).
  pose proof (shifted_pos m2 (shift_of m2 e1) (conj Hn2 Hlt2)) as Hpos3.
  rewrite Hm3 in *. destruct (Z.pos m2 / 2 ^ shift_of m2 e1) as [|m3|m3] eqn:Hq3; try lia.
  exists m3, e3. split; [reflexivity|]. split; [lia|].
  replace (e3 - e) with (shift_of m2 e1 + shift_of q e) by lia.
  rewrite Z.pow_add_r by lia.
  assert (H3 : Z.pos m3 * 2 ^ shift_of m2 e1 <= Z.pos m2).
  { rewrite <- Hq3. rewrite Z.mul_comm. apply Z.mul_div_le. apply Z.pow_pos_nonneg; lia. }
  assert (H1 : shr_m mrs1 * 2 ^ shift_of q e <= Z.pos q).
  { rewrite Hm1. rewrite Z.mul_comm. apply Z.mul_div_le. apply Z.pow_pos_nonneg; lia. }
  assert (Hp : 0 < 2 ^ shift_of q e) by (apply Z.pow_pos_nonneg; lia).
  nia.
Qed.

End Rounding.

Section Order.

Lemma bounded_canonical (m : positive) (e : Z) :
  bounded prec emax m e = true ->
  SpecFloat.emin prec emax <= e
  /\ Z.pos (digits2_pos m) <= prec
  /\ (SpecFloat.emin prec emax < e -> Z.pos (digits2_pos m) = prec).
Proof.
  unfold bounded, canonical_mantissa, fexp. intros H.
  apply andb_true_iff in H as [H _]. apply Z.eqb_eq in H.
  assert (prec = 53) by reflexivity. lia.
Qed.

Lemma iter_xO_value (m d : positive) : Z.pos (Pos.iter xO m d) = Z.pos m * 2 ^ Z.pos d.
Proof.
  induction d as [|d IH] using Pos.peano_ind.
  - cbn. lia.
  - rewrite Pos.iter_succ, Pos2Z.inj_xO, IH, Pos2Z.inj_succ, Z.pow_succ_r by lia. lia.
Qed.

Lemma shl_align_value (m : positive) (e e' : Z) :
  e' <= e -> Z.pos (fst (shl_align m e e')) = Z.pos m * 2 ^ (e - e')
             /\ snd (shl_align m e e') = e'.
Proof.
  intros He. unfold shl_align. destruct (e' - e) as [|d|d] eqn:Hd; cbn [fst snd]; try lia.
  - replace (e - e') with 0 by lia. cbn. lia.
  - rewrite iter_xO_value. replace (e - e') with (Z.pos d) by lia. lia.
Qed.

Lemma shl_align_keep (m : positive) (e e' : Z) :
  e <= e' -> shl_align m e e' = (m, e).
Proof.
  intros He. unfold shl_align. destruct (e' - e) as [|d|d] eqn:Hd; try reflexivity; lia.
Qed.

(** On canonical significands the order by exponent, then by significand,
    is the order of the values. *)
Lemma lex_compare_value (mx my : positive) (ex ey : Z) :
  bounded prec emax mx ex = true -> bounded prec emax my ey = true ->
  match ey ?= ex with
  | Lt => Lt
  | Gt => Gt
  | Eq => Pos.compare_cont Eq my mx
  end = (Z.pos my * 2 ^ (ey - Z.min ex ey) ?= Z.pos mx * 2 ^ (ex - Z.min ex ey)).
Proof.
  intros Hx Hy.
  destruct (bounded_canonical _ _ Hx) as (Hex & Hdx & Hnx).
  destruct (bounded_canonical _ _ Hy) as (Hey & Hdy & Hny).
  pose proof (digits_bounds mx) as Hbx. pose proof (digits_bounds my) as Hby.
  assert (Hprec : prec = 53) by reflexivity.
  destruct (Z.compare_spec ey ex) as [Heq|Hlt|Hgt].
  - subst ey. rewrite Z.min_id, Z.sub_diag. cbn [Z.pow]. rewrite !Z.mul_1_r.
    reflexivity.
  - rewrite Z.min_r by lia. rewrite Z.sub_diag. cbn [Z.pow]. rewrite Z.mul_1_r.
    symmetry. apply Z.compare_lt_iff.
    rewrite Hnx in Hbx by lia.
    assert (H2 : 2 ^ 1 <= 2 ^ (ex - ey)) by (apply Z.pow_le_mono_r; lia).
    assert (Hm : Z.pos my < 2 ^ prec).
    { eapply Z.lt_le_trans; [apply Hby|]. apply Z.pow_le_mono_r; lia. }
    rewrite Hprec in *. change (2 ^ 1) with 2 in H2.
    change (2 ^ 53) with 9007199254740992 in *. change (2 ^ (53 - 1)) with 4503599627370496 in *.
    nia.
  - rewrite Z.min_l by lia. rewrite Z.sub_diag. cbn [Z.pow]. rewrite Z.mul_1_r.
    symmetry. apply Z.compare_gt_iff.
    rewrite Hny in Hby by lia.
    assert (H2 : 2 ^ 1 <= 2 ^ (ey - ex)) by (apply Z.pow_le_mono_r; lia).
    assert (Hm : Z.pos mx < 2 ^ prec).
    { eapply Z.lt_le_trans; [apply Hbx|]. apply Z.pow_le_mono_r; lia. }
    rewrite Hprec in *. change (2 ^ 1) with 2 in H2.
    change (2 ^ 53) with 9007199254740992 in *. change (2 ^ (53 - 1)) with 4503599627370496 in *.
    nia.
Qed.

Lemma binary_round_aux_neg (m e : Z) (l : location) :
  SFltb (S754_zero false) (binary_round_aux prec emax true m e l) = false.
Proof.
  unfold binary_round_aux.
  destruct (shr_fexp prec emax m e l) as [mrs1 e1].
  destruct (shr_fexp prec emax _ e1 loc_Exact) as [mrs3 e3].
  destruct (shr_m mrs3); [reflexivity| |reflexivity].
  destruct (e3 <=? emax - prec); reflexivity.
Qed.

Lemma binary_round_pos (p : positive) (e : Z) :
  SpecFloat.emin prec emax <= e ->
  SFltb (S754_zero false) (binary_round prec emax false p e) = true.
Proof.
  intros He. unfold binary_round.
  set (f := fexp prec emax (Z.pos (digits2_pos p) + e)).
  assert (Hf : SpecFloat.emin prec emax <= f) by (unfold f, fexp; lia).
  destruct (shl_align p e f) as [mz ez] eqn:Hal.
  assert (Hez : SpecFloat.emin prec emax <= ez).
  { destruct (Z.le_gt_cases f e) as [Hle|Hgt].
    - destruct (shl_align_value p e f Hle) as [_ Hs]. rewrite Hal in Hs. cbn in Hs. lia.
    - rewrite shl_align_keep in Hal by lia. injection Hal as <- <-. lia. }
  destruct (binary_round_aux_pos mz ez loc_Exact Hez) as (m3 & e3 & -> & _).
  destruct (e3 <=? emax - prec); reflexivity.
Qed.

Lemma binary_normalize_sign (d e : Z) :
  SpecFloat.emin prec emax <= e ->
  SFltb (S754_zero false) (binary_normalize prec emax d e false) = (0 <? d).
Proof.
  intros He. destruct d as [|p|p]; cbn [binary_normalize].
  - reflexivity.
  - apply binary_round_pos. exact He.
  - unfold binary_round. destruct (shl_align _ _ _). apply binary_round_aux_neg.
Qed.

(** The sign of a difference tells the order of its operands; rounding
    never turns a difference that is not zero into zero. *)
Lemma SFsub_sign (x y : spec_float) :
  valid_binary x = true -> valid_binary y = true ->
  SFltb (S754_zero false) (SF64sub x y) = SFltb y x.
Proof.
  intros Hx Hy.
  destruct x as [sx|sx| |sx mx ex], y as [sy|sy| |sy my ey];
    try reflexivity;
    try (destruct sx; try destruct sy; reflexivity);
    try (destruct sy; reflexivity).
  cbn [valid_binary] in Hx, Hy.
  unfold SF64sub, SFsub.
  destruct (bounded_canonical _ _ Hx) as (Hex & _). destruct (bounded_canonical _ _ Hy) as (Hey & _).
  rewrite binary_normalize_sign by lia.
  destruct (shl_align_value mx ex (Z.min ex ey)) as [-> _]; [lia|].
  destruct (shl_align_value my ey (Z.min ex ey)) as [-> _]; [lia|].
  pose proof (lex_compare_value mx my ex ey Hx Hy) as Hc.
  assert (Hpx : 0 < Z.pos mx * 2 ^ (ex - Z.min ex ey))
    by (apply Z.mul_pos_pos; [lia | apply Z.pow_pos_nonneg; lia]).
  assert (Hpy : 0 < Z.pos my * 2 ^ (ey - Z.min ex ey))
    by (apply Z.mul_pos_pos; [lia | apply Z.pow_pos_nonneg; lia]).
  assert (Hc' : match ey ?= ex with
                | Lt => Gt
                | Gt => Lt
                | Eq => CompOpp (Pos.compare_cont Eq my mx)
                end
                = CompOpp (Z.pos my * 2 ^ (ey - Z.min ex ey) ?= Z.pos mx * 2 ^ (ex - Z.min ex ey)))
    by (rewrite <- Hc; destruct (ey ?= ex); reflexivity).
  unfold SFltb, SFcompare.
  destruct sx, sy; cbn [cond_Zopp]; rewrite ?Hc, ?Hc';
    try destruct (Z.compare_spec (Z.pos my * 2 ^ (ey - Z.min ex ey))
                                 (Z.pos mx * 2 ^ (ex - Z.min ex ey)));
    cbn [CompOpp];
    first [apply Z.ltb_lt; lia | apply Z.ltb_ge; lia].
Qed.

Lemma SFcompare_antisym (x y : spec_float) :
  SFcompare y x = option_map CompOpp (SFcompare x y).
Proof.
  destruct x as [sx|sx| |sx mx ex], y as [sy|sy| |sy my ey]; cbn [SFcompare option_map];
    try reflexivity;
    try (destruct sx; try destruct sy; reflexivity);
    try (destruct sy; reflexivity).
  change (Pos.compare_cont Eq my mx) with (Pos.compare_cont (CompOpp Eq) my mx).
  rewrite <- Pos.compare_cont_antisym, (Z.compare_antisym ex ey).
  destruct sx, sy, (ex ?= ey), (Pos.compare_cont Eq mx my); reflexivity.
Qed.

Lemma SFcompare_refl (x : spec_float) : x <> S754_nan -> SFcompare x x = Some Eq.
Proof.
  destruct x as [s|s| |s m e]; cbn [SFcompare]; intros H; try congruence.
  - destruct s; reflexivity.
  - rewrite Z.compare_refl. destruct s; rewrite Pos.compare_cont_refl; reflexivity.
Qed.

End Order.

(** ** The loop over the lines and the samples of the file *)

Section LoopRefinement.
Import JS DataService Spec.

(** After the blank-line test, a line either yields a sample, which is
    pushed, or leaves the state alone. *)
Lemma processLine_readSample (st : LoopState) (line : jsString) :
  processLine st line =
    match readSample line with
    | Some p => pushSample st p
    | None => st
    end.
Proof.
  unfold processLine, readSample, isBlank.
  destruct (length (trim line) =? 0)%nat; [reflexivity|].
  destruct (9 <=? length (split_ws (trim line)))%nat; [|reflexivity].
  unfold processColumns.
  destruct (isNaN (parseFloat (split_ws (trim line) !! 5%nat))); reflexivity.
Qed.

Lemma readSample_header (line : jsString) :
  isBlank line = true -> readSample line = None.
Proof. unfold readSample. intros ->. reflexivity. Qed.

(** Once data has started, the flag stays set and each line is handled
    on its own. *)
Lemma loopBody_started (st : LoopState) (line : jsString) :
  dataStarted st = true -> loopBody st line = processLine st line.
Proof. unfold loopBody. intros ->. reflexivity. Qed.

Lemma pushSample_started (st : LoopState) (p : PolarPoint) :
  dataStarted (pushSample st p) = dataStarted st.
Proof. reflexivity. Qed.

Lemma processLine_started (st : LoopState) (line : jsString) :
  dataStarted (processLine st line) = dataStarted st.
Proof. rewrite processLine_readSample. destruct (readSample line); reflexivity. Qed.

(** Before data start, a header line is skipped whole. *)
Lemma loopBody_header (st : LoopState) (line : jsString) :
  dataStarted st = false -> isHeaderLine line = true -> loopBody st line = st.
Proof.
  unfold loopBody, isHeaderLine, isComment, isBlank. intros -> Hh. simpl.
  destruct (startsWith hash (trim line)); simpl in *; [reflexivity|].
  destruct (length (trim line)); [reflexivity | discriminate].
Qed.

(** The first data line sets the flag and is then processed. *)
Lemma loopBody_first_data (st : LoopState) (line : jsString) :
  dataStarted st = false -> isHeaderLine line = false ->
  loopBody st line =
    processLine
      (mkLoopState true (sqmValuesForMedian st) (allSqmValuesSoFar st) (polarDataSoFar st))
      line.
Proof.
  unfold loopBody, isHeaderLine, isComment, isBlank. intros -> Hh. simpl.
  apply orb_false_iff in Hh as [-> Hb]. simpl.
  destruct (length (trim line)); [discriminate | reflexivity].
Qed.

(** A line is processed when data has started or starts with it; the
    buffers it is processed against are those of the state. *)
Lemma loopBody_reached (st : LoopState) (line : jsString) :
  dataStarted st = true \/ isHeaderLine line = false ->
  loopBody st line =
    processLine
      (mkLoopState true (sqmValuesForMedian st) (allSqmValuesSoFar st) (polarDataSoFar st))
      line.
Proof.
  intros Hreached. destruct (dataStarted st) eqn:Hst.
  - rewrite loopBody_started by exact Hst. destruct st; cbn in Hst; subst; reflexivity.
  - destruct Hreached as [Hs | Hh]; [discriminate Hs|].
    apply loopBody_first_data; assumption.
Qed.

Lemma fold_started (lines : list jsString) (st : LoopState) :
  dataStarted st = true ->
  fold_left loopBody lines st = pushSamples st (omap readSample lines).
Proof.
  revert st. induction lines as [|line lines IH]; intros st Hst; [reflexivity|].
  cbn [fold_left omap list_omap]. rewrite loopBody_started by exact Hst.
  rewrite IH by (rewrite processLine_started; exact Hst).
  rewrite processLine_readSample.
  destruct (readSample line); reflexivity.
Qed.

Lemma fold_header (lines : list jsString) (st : LoopState) :
  dataStarted st = false ->
  fold_left loopBody lines st = fold_left loopBody (fromDataStart lines) st.
Proof.
  intros Hst. induction lines as [|line lines IH]; [reflexivity|].
  cbn [fromDataStart]. destruct (isHeaderLine line) eqn:Hh; [|reflexivity].
  cbn [fold_left]. rewrite loopBody_header by assumption. exact IH.
Qed.

Lemma fromDataStart_head (lines : list jsString) (line : jsString) (rest : list jsString) :
  fromDataStart lines = line :: rest -> isHeaderLine line = false.
Proof.
  induction lines as [|l lines IH]; [discriminate|].
  cbn [fromDataStart]. destruct (isHeaderLine l) eqn:Hh; [exact IH|].
  intros [= -> ->]. exact Hh.
Qed.

Lemma pushSamples_fields (ps : list PolarPoint) (st : LoopState) :
  sqmValuesForMedian (pushSamples st ps)
    = sqmValuesForMedian st ++ map mag (List.filter isHighAltitude ps)
  /\ allSqmValuesSoFar (pushSamples st ps) = allSqmValuesSoFar st ++ map mag ps
  /\ polarDataSoFar (pushSamples st ps) = polarDataSoFar st ++ List.filter isPolarSample ps.
Proof.
  revert st. induction ps as [|p ps IH]; intros st.
  - cbn. rewrite !app_nil_r. auto.
  - cbn [pushSamples fold_left]. fold (pushSamples (pushSample st p) ps).
    destruct (IH (pushSample st p)) as (Hm & Ha & Hp).
    rewrite Hm, Ha, Hp. cbn [pushSample sqmValuesForMedian allSqmValuesSoFar polarDataSoFar
                              List.filter map].
    destruct (isHighAltitude p), (isPolarSample p);
      cbn [map]; rewrite <- ?app_assoc; auto.
Qed.

(** The loop computes the three projections of the samples. *)
Lemma runLoop_samples (lines : list jsString) :
  sqmValuesForMedian (runLoop lines) = map mag (List.filter isHighAltitude (samples lines))
  /\ allSqmValuesSoFar (runLoop lines) = map mag (samples lines)
  /\ polarDataSoFar (runLoop lines) = List.filter isPolarSample (samples lines).
Proof.
  unfold runLoop, samples. rewrite fold_header by reflexivity.
  destruct (fromDataStart lines) as [|line rest] eqn:Hd; [cbn; auto|].
  pose proof (fromDataStart_head _ _ _ Hd) as Hh.
  cbn [fold_left]. rewrite loopBody_first_data by (try reflexivity; exact Hh).
  rewrite fold_started by (rewrite processLine_started; reflexivity).
  rewrite processLine_readSample. cbn [omap list_omap].
  destruct (readSample line) as [p|].
  - change (pushSamples (pushSample ?s p) ?ps) with (pushSamples s (p :: ps)).
    exact (pushSamples_fields (p :: _) (mkLoopState true [] [] [])).
  - exact (pushSamples_fields _ (mkLoopState true [] [] [])).
Qed.

End LoopRefinement.

(** ** Claims about the parser *)

Section ParserClaims.
Import JS DataService Spec Files.

Lemma blank_has_one_column (line : jsString) :
  isBlank line = true -> length (split_ws (trim line)) = 1%nat.
Proof.
  unfold isBlank. destruct (trim line); [reflexivity | discriminate].
Qed.

Lemma calculateMedian_None (numbers : list number) :
  calculateMedian numbers = None <-> numbers = [].
Proof.
  unfold calculateMedian. destruct numbers as [|x xs]; [tauto|].
  cbn [length Nat.eqb]. split; [|discriminate].
  destruct (_ =? 0)%nat; discriminate.
Qed.

Lemma finish_median (st : LoopState) :
  medianSqm (finish st) = calculateMedian (sqmValuesForMedian st).
Proof.
  unfold finish. cbn [medianSqm].
  destruct (sqmValuesForMedian st); reflexivity.
Qed.

(** C1, as stated, fails: a line whose trimmed form starts with '#' and
    that follows the first data line is split and read like any other
    line; here its sixth field, 19.0, enters [allSqmValues], the median
    and [polarData]. *)
Lemma C1_comment_after_data_start_is_counted :
  isComment lineComment = true
  /\ allSqmValues (parseSqmText (joinLines [lineHigh])) = [20.5%float]
  /\ allSqmValues (parseSqmText (joinLines [lineHigh; lineComment])) = [20.5%float; 19%float]
  /\ medianSqm (parseSqmText (joinLines [lineHigh])) = Some 20.5%float
  /\ medianSqm (parseSqmText (joinLines [lineHigh; lineComment])) = Some 19.75%float
  /\ length (polarData (parseSqmText (joinLines [lineHigh; lineComment]))) = 2%nat.
Proof. vm_compute. repeat split; reflexivity. Qed.

(** C1, amended: a line whose trimmed form starts with '#' and that
    stands before data start contributes nothing: the loop state is
    unchanged, and the outcome is that of the file without the line.
    After data start the loop does not look for '#': such a line with at
    least nine fields and a sixth field that parses adds that number to
    [allSqmValues]. *)
Theorem C1_header_comments_are_ignored
    (headerLines : list jsString) (line : jsString) (rest : list jsString) :
  Forall (fun l => isHeaderLine l = true) headerLines ->
  isComment line = true ->
  (forall st, dataStarted st = false -> loopBody st line = st)
  /\ runLoop (headerLines ++ line :: rest) = runLoop (headerLines ++ rest)
  /\ (forall st, dataStarted st = true ->
       (9 <= length (split_ws (trim line)))%nat ->
       isNaN (parseFloat (split_ws (trim line) !! 5%nat)) = false ->
       allSqmValuesSoFar (loopBody st line)
         = allSqmValuesSoFar st ++ [parseFloat (split_ws (trim line) !! 5%nat)]).
Proof.
  intros Hhead Hc.
  assert (Hh : isHeaderLine line = true) by (unfold isHeaderLine; rewrite Hc; reflexivity).
  split; [|split].
  - intros st Hst. apply loopBody_header; assumption.
  - unfold runLoop. rewrite !fold_left_app.
    assert (Hst : dataStarted (fold_left loopBody headerLines initialState) = false
                  /\ fold_left loopBody headerLines initialState = initialState).
    { clear -Hhead. induction Hhead as [|l ls Hl _ IH]; [split; reflexivity|].
      cbn [fold_left]. rewrite loopBody_header by (try reflexivity; exact Hl). exact IH. }
    destruct Hst as [_ ->]. cbn [fold_left].
    rewrite loopBody_header by (try reflexivity; exact Hh). reflexivity.
  - intros st Hst Hlen Hmag. rewrite loopBody_started by exact Hst.
    unfold processLine.
    destruct (length (trim line) =? 0)%nat eqn:Hb.
    { rewrite (blank_has_one_column line Hb) in Hlen. lia. }
    apply Nat.leb_le in Hlen. rewrite Hlen.
    unfold processColumns. rewrite Hmag. reflexivity.
Qed.

Lemma C1_header_comments_are_ignored_witness :
  runLoop (header ++ lineComment :: [lineHigh]) = runLoop (header ++ [lineHigh])
  /\ allSqmValuesSoFar (loopBody (mkLoopState true [] [20.5%float] []) lineComment)
     = [20.5%float; 19%float].
Proof.
  assert (Hhead : Forall (fun l => isHeaderLine l = true) header)
    by (repeat constructor).
  assert (Hc : isComment lineComment = true) by reflexivity.
  destruct (C1_header_comments_are_ignored header lineComment [lineHigh] Hhead Hc)
    as (_ & Hrun & Hafter).
  split; [exact Hrun|].
  apply (Hafter (mkLoopState true [] [20.5%float] [])); vm_compute; [reflexivity | lia | reflexivity].
Defined.

(** C2, as stated, fails: a sixth field that reads "Infinity" parses to a
    number that is not finite, and the line is kept, because the loop tests
    [!isNaN(mag)]. *)
Lemma C2_infinite_magnitude_is_kept :
  let columns := split_ws (trim lineInfinity) in
  let st := runLoop [lineHigh] in
  dataStarted st = true
  /\ (9 <= length columns)%nat
  /\ isFinite (parseFloat (columns !! 5%nat)) = false
  /\ allSqmValuesSoFar st = [20.5%float]
  /\ allSqmValuesSoFar (loopBody st lineInfinity) = [20.5%float; infinity]
  /\ allSqmValues (parseSqmText (joinLines [lineHigh; lineInfinity])) = [20.5%float; infinity].
Proof. vm_compute. repeat split; solve [reflexivity | lia]. Qed.

(** C2, amended: for a line reached after data start (the first data
    line included), fewer than 9 fields, or at least 9 fields with a
    field 5 that parses to NaN, leave every buffer as it was; a field 5
    that parses to an infinity is kept. *)
Theorem C2_malformed_lines_are_dropped (st : LoopState) (line : jsString) :
  let columns := split_ws (trim line) in
  dataStarted st = true \/ isHeaderLine line = false ->
  (length columns < 9)%nat
  \/ ((9 <= length columns)%nat /\ isNaN (parseFloat (columns !! 5%nat)) = true) ->
  allSqmValuesSoFar (loopBody st line) = allSqmValuesSoFar st
  /\ polarDataSoFar (loopBody st line) = polarDataSoFar st
  /\ sqmValuesForMedian (loopBody st line) = sqmValuesForMedian st
  /\ (dataStarted st = true -> loopBody st line = st).
Proof.
  intros columns Hreached Hbad.
  assert (Hskip : forall st', processLine st' line = st').
  { intros st'. unfold processLine. fold columns.
    destruct (length (trim line) =? 0)%nat; [reflexivity|].
    destruct Hbad as [Hlt | [Hge Hnan]].
    - apply Nat.leb_gt in Hlt. rewrite Hlt. reflexivity.
    - apply Nat.leb_le in Hge. rewrite Hge. unfold processColumns.
      rewrite Hnan. reflexivity. }
  rewrite (loopBody_reached st line Hreached), Hskip. cbn.
  repeat split. intros Hst. destruct st; cbn in Hst; subst; reflexivity.
Qed.

Lemma C2_malformed_lines_are_dropped_witness :
  loopBody (runLoop [lineHigh]) lineEightFields = runLoop [lineHigh]
  /\ loopBody (runLoop [lineHigh]) lineNoMagnitude = runLoop [lineHigh]
  /\ allSqmValuesSoFar (loopBody initialState lineNoMagnitude) = [].
Proof.
  split; [|split].
  - apply (C2_malformed_lines_are_dropped (runLoop [lineHigh]) lineEightFields);
      [left; reflexivity | left; vm_compute; lia | reflexivity].
  - apply (C2_malformed_lines_are_dropped (runLoop [lineHigh]) lineNoMagnitude);
      [left; reflexivity | right; vm_compute; split; [lia | reflexivity] | reflexivity].
  - apply (C2_malformed_lines_are_dropped initialState lineNoMagnitude);
      [right; reflexivity | right; vm_compute; split; [lia | reflexivity]].
Defined.


Lemma polar_push_neq (l : list PolarPoint) (p : PolarPoint) : l <> l ++ [p].
Proof.
  intros H. apply (f_equal (@length _)) in H. rewrite length_app in H. cbn in H. lia.
Qed.

(** C7: for a data line whose magnitude parses, the sample is appended to
    [polarData] exactly when time is non-empty, altitude parses and lies in
    [0, 90], and azimuth parses and lies in [0, 360]; its magnitude enters
    [allSqmValues] either way.  Over a whole file [polarData] is the
    sequence of samples that pass this test, so a sample with azimuth 400
    is in [allSqmValues] and not in [polarData]. *)
Theorem C7_polar_sample_condition (st : LoopState) (line : jsString) (textData : jsString) :
  let columns := split_ws (trim line) in
  let p := mkPolarPoint (columns !! 2%nat) (parseFloat (columns !! 5%nat))
             (parseFloat (columns !! 7%nat)) (parseFloat (columns !! 8%nat)) in
  let r := parseSqmText textData in
  (dataStarted st = true \/ isHeaderLine line = false ->
   (9 <= length columns)%nat ->
   isNaN (mag p) = false ->
   allSqmValuesSoFar (loopBody st line) = allSqmValuesSoFar st ++ [mag p]
   /\ (polarDataSoFar (loopBody st line) = polarDataSoFar st ++ [p]
       <-> (exists t c, time p = Some (c :: t))
           /\ isNaN (alt p) = false /\ ge (alt p) 0 = true /\ le (alt p) 90 = true
           /\ isNaN (azi p) = false /\ ge (azi p) 0 = true /\ le (azi p) 360 = true)
   /\ (polarDataSoFar (loopBody st line) = polarDataSoFar st ++ [p]
       \/ polarDataSoFar (loopBody st line) = polarDataSoFar st))
  /\ polarData r = List.filter isPolarSample (samples (split_newline textData))
  /\ (forall q, In q (samples (split_newline textData)) -> azi q = 400%float ->
       In (mag q) (allSqmValues r) /\ ~ In q (polarData r)).
Proof.
  intros columns p r. split; [|split].
  - intros Hreached Hlen Hmag. rewrite (loopBody_reached st line Hreached).
    unfold processLine. fold columns.
    destruct (length (trim line) =? 0)%nat eqn:Hb.
    { unfold columns in Hlen. rewrite (blank_has_one_column line Hb) in Hlen. lia. }
    apply Nat.leb_le in Hlen. rewrite Hlen. unfold processColumns.
    change (parseFloat (columns !! 5%nat)) with (mag p). rewrite Hmag.
    cbn [negb allSqmValuesSoFar polarDataSoFar].
    change (columns !! 2%nat) with (time p).
    change (parseFloat (columns !! 7%nat)) with (alt p).
    change (parseFloat (columns !! 8%nat)) with (azi p).
    split; [reflexivity|].
    destruct (truthy (time p)) eqn:Ht;
      [destruct (isNaN (alt p)) eqn:Ha1; [|destruct (ge (alt p) 0) eqn:Ha2;
        [destruct (le (alt p) 90) eqn:Ha3; [destruct (isNaN (azi p)) eqn:Hz1;
          [|destruct (ge (azi p) 0) eqn:Hz2; [destruct (le (azi p) 360) eqn:Hz3|]]|]|]]|];
      cbn [negb andb];
      try (split; [split; [intros H; exfalso; exact (polar_push_neq _ _ H)
                          | intros (Hx & ? & ? & ? & ? & ? & ?);
                            try discriminate;
                            destruct Hx as (t & c & Hx); rewrite Hx in Ht; discriminate Ht]
                  | right; reflexivity]).
    split; [|left; reflexivity]. split; [|reflexivity].
    intros _. repeat split; try reflexivity.
    destruct (time p) as [[|c t]|]; try discriminate Ht. exists t, c. reflexivity.
  - unfold r, parseSqmText, finish. cbn [polarData].
    apply runLoop_samples.
  - intros q Hin Hazi.
    destruct (runLoop_samples (split_newline textData)) as (_ & Ha & Hp).
    unfold r, parseSqmText, finish. cbn [allSqmValues polarData]. split.
    + rewrite Ha. apply in_map. exact Hin.
    + rewrite Hp, filter_In. intros [_ Hq]. unfold isPolarSample in Hq.
      rewrite Hazi in Hq. rewrite !andb_true_iff in Hq.
      destruct Hq as [_ Hq]. discriminate Hq.
Qed.

Lemma C7_polar_sample_condition_witness :
  let st := runLoop [lineHigh] in
  allSqmValuesSoFar (loopBody st lineAzimuth400) = [20.5%float; 20%float]
  /\ polarDataSoFar (loopBody st lineAzimuth400) = polarDataSoFar st.
Proof.
  intros st.
  destruct (C7_polar_sample_condition st lineAzimuth400 []) as (Hstep & _ & _).
  destruct Hstep as (Hall & Hiff & Hor); [left; reflexivity | vm_compute; lia | reflexivity |].
  split; [rewrite Hall; vm_compute; reflexivity|].
  destruct Hor as [Hpush | Hkeep]; [|exact Hkeep].
  apply Hiff in Hpush. destruct Hpush as (_ & _ & _ & _ & _ & _ & H360).
  vm_compute in H360. discriminate H360.
Defined.

End ParserClaims.

(** ** Claims about the result as a whole *)

Section ResultClaims.
Import JS DataService Spec Files.

Lemma sublist_map_filter {A B : Type} (f : A -> B) (keep : A -> bool) (l : list A) :
  map f (List.filter keep l) `sublist_of` map f l.
Proof.
  induction l as [|x l IH]; cbn [List.filter map]; [constructor|].
  destruct (keep x); cbn [map]; constructor; exact IH.
Qed.

Lemma readSample_mag (line : jsString) (p : PolarPoint) :
  readSample line = Some p -> isNaN (mag p) = false.
Proof.
  unfold readSample. destruct (isBlank line); [discriminate|].
  destruct (9 <=? _)%nat; [|discriminate].
  destruct (isNaN (parseFloat (split_ws (trim line) !! 5%nat))) eqn:Hm; [discriminate|].
  intros [= <-]. exact Hm.
Qed.

Lemma omap_readSample_mag (lines : list jsString) :
  Forall (fun p => isNaN (mag p) = false) (omap readSample lines).
Proof.
  induction lines as [|line lines IH]; cbn [omap list_omap]; [constructor|].
  destruct (readSample line) as [p|] eqn:Hp; [|exact IH].
  constructor; [exact (readSample_mag line p Hp) | exact IH].
Qed.

Lemma fromDataStart_all_header (lines : list jsString) :
  Forall (fun l => isHeaderLine l = true) lines -> fromDataStart lines = [].
Proof.
  induction 1 as [|l ls Hl _ IH]; [reflexivity|].
  cbn [fromDataStart]. rewrite Hl. exact IH.
Qed.

Lemma parseSqmText_wellFormedNumbers (textData : jsString) :
  wellFormedNumbers (parseSqmText textData).
Proof.
  destruct (runLoop_samples (split_newline textData)) as (Hm & Ha & Hp).
  pose proof (omap_readSample_mag (fromDataStart (split_newline textData))) as Hmag.
  fold (samples (split_newline textData)) in Hmag.
  unfold wellFormedNumbers, wellFormedFor, parseSqmText.
  rewrite finish_median, Hm. unfold finish. cbn [allSqmValues polarData].
  rewrite Ha, Hp. split; [|split; [|split]].
  - rewrite List.Forall_map. eapply List.Forall_impl; [|exact Hmag].
    intros p Hp'. unfold isNumber. cbn beta in Hp'. rewrite Hp'. reflexivity.
  - rewrite List.Forall_forall. intros p Hin. apply filter_In in Hin as [_ Hpolar]. exact Hpolar.
  - apply sublist_map_filter.
  - exists (map mag (List.filter isHighAltitude (samples (split_newline textData)))).
    split; [apply sublist_map_filter | reflexivity].
Qed.

Lemma readSample_malformed (line : jsString) :
  readSample line = None <-> malformed line = true.
Proof.
  unfold readSample, malformed. destruct (isBlank line) eqn:Hb.
  - rewrite (blank_has_one_column line Hb). cbn. tauto.
  - destruct (Nat.leb_spec 9 (length (split_ws (trim line)))) as [Hge|Hlt].
    + assert (Hlt : (length (split_ws (trim line)) <? 9)%nat = false) by (apply Nat.ltb_ge; lia).
      rewrite Hlt. cbn [orb].
      destruct (isNaN (parseFloat (split_ws (trim line) !! 5%nat))); split; congruence.
    + assert (Hlt' : (length (split_ws (trim line)) <? 9)%nat = true) by (apply Nat.ltb_lt; lia).
      rewrite Hlt'. cbn [orb]. tauto.
Qed.

Lemma omap_readSample_nil (lines : list jsString) :
  omap readSample lines = [] <-> Forall (fun l => malformed l = true) lines.
Proof.
  induction lines as [|l lines IH]; cbn [omap list_omap].
  - split; [constructor | reflexivity].
  - destruct (readSample l) as [p|] eqn:Hp.
    + split; [discriminate|]. intros H. apply Forall_cons in H. destruct H as [H _].
      apply readSample_malformed in H. congruence.
    + rewrite IH. split.
      * intros H. constructor; [apply readSample_malformed; exact Hp | exact H].
      * intros H. apply Forall_cons in H. tauto.
Qed.

(** C8, as stated, fails: the data model asks for a finite magnitude in
    every sample, and the result of a file with a sixth field that reads
    "Infinity" holds an infinite one. *)
Lemma C8_infinite_magnitude_is_not_well_formed :
  allSqmValues (parseSqmText (joinLines [lineHigh; lineInfinity])) = [20.5%float; infinity]
  /\ isFinite infinity = false
  /\ ~ wellFormed (parseSqmText (joinLines [lineHigh; lineInfinity])).
Proof.
  split; [vm_compute; reflexivity|]. split; [reflexivity|].
  intros (Hall & _).
  assert (Hvals : allSqmValues (parseSqmText (joinLines [lineHigh; lineInfinity]))
                  = [20.5%float; infinity]) by (vm_compute; reflexivity).
  rewrite Hvals in Hall. apply Forall_cons in Hall. destruct Hall as [_ Hall].
  apply Forall_cons in Hall. destruct Hall as [Hinf _]. discriminate Hinf.
Qed.

(** C8, amended: the [try] block throws exactly when the transport fails
    or the response is not [ok], whatever the text is; on a response that
    was read it yields the parsed result, which is as the data model
    requires with "not NaN" in the place of "finite".  A malformed line
    after the data start is dropped: the result is that of the file
    without the line.  The result is the empty one exactly when every
    line from the data start on is malformed, as for a file of comment and
    blank lines only. *)
Theorem C8_parse_always_returns
    (sqmFileUrl : jsString) (sqmCache : cache) (net : FetchOutcome) (textData : jsString) :
  let lines := split_newline textData in
  let r := parseSqmText textData in
  ((exists out, tryBlock sqmFileUrl sqmCache net = inr out)
   <-> exists status text, net = Response true status text)
  /\ (forall status,
        tryBlock sqmFileUrl sqmCache (Response true status textData)
        = inr (r, <[sqmFileUrl := r]> sqmCache))
  /\ wellFormedNumbers r
  /\ (forall pre line post,
        lines = pre ++ line :: post -> dataStarted (runLoop pre) = true ->
        malformed line = true ->
        r = finish (runLoop (pre ++ post)))
  /\ (r = emptyData <-> Forall (fun l => malformed l = true) (fromDataStart lines))
  /\ (Forall (fun l => isHeaderLine l = true) lines -> r = emptyData).
Proof.
  intros lines r.
  assert (Hempty : r = emptyData <-> samples lines = []).
  { destruct (runLoop_samples lines) as (Hm & Ha & Hp). split.
    - intros Hr. apply (f_equal allSqmValues) in Hr.
      unfold r, parseSqmText, finish in Hr. cbn [allSqmValues emptyData] in Hr.
      fold lines in Hr. rewrite Ha in Hr. destruct (samples lines); [reflexivity | discriminate Hr].
    - intros Hs. rewrite Hs in Hm, Ha, Hp. cbn in Hm, Ha, Hp.
      unfold r, parseSqmText, finish, emptyData. fold lines. rewrite Hm, Ha, Hp. reflexivity. }
  split; [|split; [|split; [|split; [|split]]]].
  - destruct net as [|[] status text]; cbn [tryBlock negb]; split.
    + intros [out H]. discriminate H.
    + intros (status & text & H). discriminate H.
    + intros _. exists status, text. reflexivity.
    + intros _. eexists. reflexivity.
    + intros [out H]. discriminate H.
    + intros (status' & text' & H). discriminate H.
  - intros status. reflexivity.
  - apply parseSqmText_wellFormedNumbers.
  - intros pre line post Hlines Hstarted Hbad.
    unfold r, parseSqmText. fold lines. rewrite Hlines. f_equal.
    unfold runLoop in *. rewrite !fold_left_app. cbn [fold_left]. f_equal.
    rewrite loopBody_started by exact Hstarted. rewrite processLine_readSample.
    apply readSample_malformed in Hbad. rewrite Hbad. reflexivity.
  - rewrite Hempty. unfold samples. apply omap_readSample_nil.
  - intros Hhead. apply Hempty. unfold samples.
    rewrite (fromDataStart_all_header _ Hhead). reflexivity.
Qed.

Lemma C8_parse_always_returns_witness :
  parseSqmText (joinLines header) = emptyData
  /\ parseSqmText (joinLines [lineHigh; lineEightFields; lineAltitude30])
     = parseSqmText (joinLines [lineHigh; lineAltitude30])
  /\ wellFormedNumbers (parseSqmText (joinLines [lineHigh; lineInfinity])).
Proof.
  destruct (C8_parse_always_returns (str "data/sqm.txt") ∅ Rejected (joinLines header))
    as (_ & _ & _ & _ & _ & Hhead).
  destruct (C8_parse_always_returns (str "data/sqm.txt") ∅ Rejected
              (joinLines [lineHigh; lineEightFields; lineAltitude30]))
    as (_ & _ & _ & Hdrop & _).
  destruct (C8_parse_always_returns (str "data/sqm.txt") ∅ Rejected
              (joinLines [lineHigh; lineInfinity])) as (_ & _ & Hwf & _).
  split; [|split; [|exact Hwf]].
  - apply Hhead. vm_compute. repeat constructor.
  - rewrite (Hdrop [lineHigh] lineEightFields [lineAltitude30]);
      [vm_compute; reflexivity | vm_compute; reflexivity | reflexivity | reflexivity].
Defined.

(** C10: the magnitudes of [polarData] and the median buffer are
    subsequences of [allSqmValues]; so [polarData] is no longer than
    [allSqmValues], and a median is present only when [allSqmValues] is
    not empty. *)
Theorem C10_buffers_are_subsequences (textData : jsString) :
  let buffer := sqmValuesForMedian (runLoop (split_newline textData)) in
  let r := parseSqmText textData in
  map mag (polarData r) `sublist_of` allSqmValues r
  /\ buffer `sublist_of` allSqmValues r
  /\ (length (polarData r) <= length (allSqmValues r))%nat
  /\ (medianSqm r <> None -> allSqmValues r <> []).
Proof.
  intros buffer r.
  destruct (runLoop_samples (split_newline textData)) as (Hm & Ha & Hp).
  assert (Hall : allSqmValues r = map mag (samples (split_newline textData))) by exact Ha.
  assert (Hpol : polarData r = List.filter isPolarSample (samples (split_newline textData)))
    by exact Hp.
  assert (Hsub1 : map mag (polarData r) `sublist_of` allSqmValues r).
  { rewrite Hall, Hpol. apply sublist_map_filter. }
  assert (Hsub2 : buffer `sublist_of` allSqmValues r).
  { unfold buffer. rewrite Hall, Hm. apply sublist_map_filter. }
  split; [exact Hsub1|]. split; [exact Hsub2|]. split.
  - apply sublist_length in Hsub1. rewrite length_map in Hsub1. exact Hsub1.
  - intros Hmed Hnil. apply Hmed.
    unfold r, parseSqmText. rewrite finish_median. fold buffer.
    rewrite Hnil in Hsub2. apply sublist_nil_r in Hsub2. rewrite Hsub2. reflexivity.
Qed.

Lemma C10_buffers_are_subsequences_witness :
  allSqmValues (parseSqmText (joinLines [lineAltitude30; lineHigh])) <> [].
Proof.
  apply (C10_buffers_are_subsequences (joinLines [lineAltitude30; lineHigh])).
  vm_compute. discriminate.
Defined.

End ResultClaims.

(** ** The median and the caller's array *)

Section MedianFrame.
Import JS DataService.

(** C5: [calculateMedian] leaves the array it is given, and every other
    array of the store, as it found them: it sorts a copy.  The value it
    returns is the one [calculateMedian] computes from the elements. *)
Theorem C5_median_leaves_input_unchanged (h : heap) (numbers : loc) (elems : list number) :
  h !! numbers = Some elems ->
  let out := calculateMedianIn numbers h in
  out.2 !! numbers = Some elems
  /\ (forall a, is_Some (h !! a) -> out.2 !! a = h !! a)
  /\ out.1 = calculateMedian elems.
Proof.
  intros Hnum out. unfold out, calculateMedianIn, calculateMedian. rewrite Hnum.
  destruct (length elems =? 0)%nat eqn:Hlen; [cbn [fst snd]; auto|].
  unfold spread, sortInPlace. rewrite Hnum. cbn [default].
  set (copy := fresh (dom h)).
  assert (Hfresh : h !! copy = None) by (apply not_elem_of_dom, is_fresh).
  assert (Hframe : forall a, is_Some (h !! a) ->
            alter (sort compareNumbers) copy (<[copy := elems]> h) !! a = h !! a).
  { intros a [v Hv]. assert (copy <> a) by congruence.
    rewrite lookup_alter_ne, lookup_insert_ne by assumption. reflexivity. }
  rewrite lookup_alter_eq, lookup_insert_eq. cbn [fmap option_fmap option_map default].
  destruct (_ mod 2 =? 0)%nat; cbn [fst snd];
    (split; [rewrite Hframe by (rewrite Hnum; eauto); exact Hnum | split; [exact Hframe | reflexivity]]).
Qed.

Lemma C5_median_leaves_input_unchanged_witness :
  let h : heap := {[ 0%nat := [3%float; 1%float; 2%float] ]} in
  (calculateMedianIn 0%nat h).2 !! 0%nat = Some [3%float; 1%float; 2%float]
  /\ (calculateMedianIn 0%nat h).1 = Some 2%float.
Proof.
  intros h.
  destruct (C5_median_leaves_input_unchanged h 0%nat [3%float; 1%float; 2%float])
    as (Hsame & _ & Hval); [reflexivity|].
  split; [exact Hsame | rewrite Hval; vm_compute; reflexivity].
Defined.

End MedianFrame.

(** ** The parse and the store *)

Section ParseInStore.
Import JS DataService Spec Files ParseStore.

Lemma calculateMedianIn_frame (h : heap) (numbers : loc) (elems : list number) :
  h !! numbers = Some elems ->
  (calculateMedianIn numbers h).1 = calculateMedian elems
  /\ (forall a, is_Some (h !! a) -> (calculateMedianIn numbers h).2 !! a = h !! a).
Proof.
  intros Hnum. unfold calculateMedianIn, calculateMedian. rewrite Hnum.
  destruct (length elems =? 0)%nat eqn:Hlen; [cbn [fst snd]; auto|].
  unfold spread, sortInPlace. rewrite Hnum. cbn [default].
  set (copy := fresh (dom h)).
  assert (Hfresh : h !! copy = None) by (apply not_elem_of_dom, is_fresh).
  assert (Hframe : forall a, is_Some (h !! a) ->
            alter (sort compareNumbers) copy (<[copy := elems]> h) !! a = h !! a).
  { intros a [v Hv]. assert (copy <> a) by congruence.
    rewrite lookup_alter_ne, lookup_insert_ne by assumption. reflexivity. }
  rewrite lookup_alter_eq, lookup_insert_eq. cbn [fmap option_fmap option_map default].
  destruct (_ mod 2 =? 0)%nat; cbn [fst snd]; (split; [reflexivity | exact Hframe]).
Qed.

(** What a step of the loop leaves as it was: every array but the three
    of [v]. *)
Lemma processLineIn_holds (v : Refs) (s : store) (st : LoopState) (line : jsString) :
  sqmValuesForMedianRef v <> allSqmValuesRef v ->
  holds v s st ->
  holds v (processLineIn v line s) (processLine st line)
  /\ (forall a, a <> sqmValuesForMedianRef v -> a <> allSqmValuesRef v ->
        numberArrays (processLineIn v line s) !! a = numberArrays s !! a)
  /\ (forall a, a <> polarDataRef v ->
        pointArrays (processLineIn v line s) !! a = pointArrays s !! a).
Proof.
  intros Hne (Hm & Ha & Hp). unfold processLineIn, processLine.
  destruct (length (trim line) =? 0)%nat; [repeat split; assumption|].
  destruct (9 <=? length (split_ws (trim line)))%nat; [|repeat split; assumption].
  unfold processColumnsIn, processColumns.
  destruct (negb (isNaN (parseFloat (split_ws (trim line) !! 5%nat))));
    [|repeat split; assumption].
  destruct (truthy (split_ws (trim line) !! 2%nat)
            && negb (isNaN (parseFloat (split_ws (trim line) !! 7%nat)))
            && ge (parseFloat (split_ws (trim line) !! 7%nat)) 0
            && le (parseFloat (split_ws (trim line) !! 7%nat)) 90
            && negb (isNaN (parseFloat (split_ws (trim line) !! 8%nat)))
            && ge (parseFloat (split_ws (trim line) !! 8%nat)) 0
            && le (parseFloat (split_ws (trim line) !! 8%nat)) 360);
    destruct (negb (isNaN (parseFloat (split_ws (trim line) !! 7%nat)))
              && gt (parseFloat (split_ws (trim line) !! 7%nat)) 45);
    unfold holds, pushNumber, pushPoint;
    cbn [numberArrays pointArrays sqmValuesForMedian allSqmValuesSoFar polarDataSoFar];
    (split; [split; [|split]|split]);
    try (intros a Ha1 Ha2); try (intros a Ha1);
    rewrite ?lookup_alter_eq, ?lookup_alter_ne by congruence;
    rewrite ?lookup_alter_eq, ?lookup_alter_ne by congruence;
    rewrite ?Hm, ?Ha, ?Hp; reflexivity.
Qed.

Lemma loopBodyIn_holds (v : Refs) (s : store) (st : LoopState) (line : jsString) :
  sqmValuesForMedianRef v <> allSqmValuesRef v ->
  holds v s st ->
  let out := loopBodyIn v (dataStarted st, s) line in
  out.1 = dataStarted (loopBody st line)
  /\ holds v out.2 (loopBody st line)
  /\ (forall a, a <> sqmValuesForMedianRef v -> a <> allSqmValuesRef v ->
        numberArrays out.2 !! a = numberArrays s !! a)
  /\ (forall a, a <> polarDataRef v -> pointArrays out.2 !! a = pointArrays s !! a).
Proof.
  intros Hne Hh. unfold loopBodyIn, loopBody.
  destruct (dataStarted st) eqn:Hd; cbn [negb].
  - cbn [fst snd]. rewrite processLine_started, Hd.
    split; [reflexivity|]. apply processLineIn_holds; assumption.
  - destruct (negb (startsWith hash (trim line)) && (0 <? length (trim line))%nat);
      cbn [fst snd].
    + rewrite processLine_started. cbn [dataStarted]. split; [reflexivity|].
      apply processLineIn_holds; [exact Hne|]. exact Hh.
    + rewrite Hd. repeat split; try apply Hh; reflexivity.
Qed.

Lemma fold_loopBodyIn_holds (v : Refs) (lines : list jsString) (s : store) (st : LoopState) :
  sqmValuesForMedianRef v <> allSqmValuesRef v ->
  holds v s st ->
  let out := fold_left (loopBodyIn v) lines (dataStarted st, s) in
  holds v out.2 (fold_left loopBody lines st)
  /\ (forall a, a <> sqmValuesForMedianRef v -> a <> allSqmValuesRef v ->
        numberArrays out.2 !! a = numberArrays s !! a)
  /\ (forall a, a <> polarDataRef v -> pointArrays out.2 !! a = pointArrays s !! a).
Proof.
  intros Hne. revert s st. induction lines as [|line lines IH]; intros s st Hh.
  - cbn. repeat split; try apply Hh; reflexivity.
  - cbn [fold_left].
    destruct (loopBodyIn_holds v s st line Hne Hh) as (Hd & Hh' & Hn & Hp).
    destruct (loopBodyIn v (dataStarted st, s) line) as [d' s'] eqn:Hstep.
    cbn [fst snd] in Hd, Hh', Hn, Hp. subst d'.
    destruct (IH s' (loopBody st line) Hh') as (Hh'' & Hn' & Hp').
    split; [exact Hh''|]. split.
    + intros a H1 H2. rewrite (Hn' a H1 H2). apply Hn; assumption.
    + intros a H1. rewrite (Hp' a H1). apply Hp; assumption.
Qed.

(** The parse in a store: its result read out of the store is the result
    of the function of the text; the arrays that existed are as they
    were; the arrays of the result are new ones. *)
Lemma parseSqmTextIn_spec (textData : jsString) (s : store) :
  let out := parseSqmTextIn textData s in
  readResult out.1 out.2 = parseSqmText textData
  /\ preserved s out.2
  /\ numberArrays s !! allSqmValuesOf out.1 = None
  /\ pointArrays s !! polarDataOf out.1 = None
  /\ is_Some (numberArrays out.2 !! allSqmValuesOf out.1)
  /\ is_Some (pointArrays out.2 !! polarDataOf out.1).
Proof.
  unfold parseSqmTextIn, newNumberArray, newPointArray.
  cbn [numberArrays pointArrays].
  set (fm := fresh (dom (numberArrays s))).
  set (all := fresh (dom (<[fm := []]> (numberArrays s)))).
  set (polar := fresh (dom (pointArrays s))).
  set (v := mkRefs fm all polar).
  set (s3 := mkStore (<[all := []]> (<[fm := []]> (numberArrays s)))
                     (<[polar := []]> (pointArrays s))).
  assert (Hfm : numberArrays s !! fm = None) by (apply not_elem_of_dom, is_fresh).
  assert (Hall' : <[fm := []]> (numberArrays s) !! all = None)
    by (apply not_elem_of_dom, is_fresh).
  assert (Hpolar : pointArrays s !! polar = None) by (apply not_elem_of_dom, is_fresh).
  assert (Hne : fm <> all).
  { intros Heq. rewrite <- Heq, lookup_insert_eq in Hall'. discriminate Hall'. }
  assert (Hall : numberArrays s !! all = None).
  { rewrite lookup_insert_ne in Hall' by exact Hne. exact Hall'. }
  assert (Hh : holds v s3 initialState).
  { unfold holds, s3, v. cbn [numberArrays pointArrays sqmValuesForMedianRef allSqmValuesRef
                              polarDataRef initialState sqmValuesForMedian allSqmValuesSoFar
                              polarDataSoFar].
    rewrite lookup_insert_ne by congruence. rewrite !lookup_insert_eq. auto. }
  destruct (fold_loopBodyIn_holds v (split_newline textData) s3 initialState Hne Hh)
    as ((Hm4 & Ha4 & Hp4) & Hn4 & Hq4).
  change (dataStarted initialState) with false in Hm4, Ha4, Hp4, Hn4, Hq4.
  destruct (fold_left (loopBodyIn v) (split_newline textData) (false, s3)) as [d4 s4].
  cbn [fst snd] in Hm4, Ha4, Hp4, Hn4, Hq4.
  cbn [sqmValuesForMedianRef allSqmValuesRef polarDataRef v] in Hm4, Ha4, Hp4, Hn4, Hq4.
  fold (runLoop (split_newline textData)) in Hm4, Ha4, Hp4.
  set (st := runLoop (split_newline textData)) in *.
  rewrite Hm4. cbn [default from_option id].
  destruct (calculateMedianIn_frame (numberArrays s4) fm (sqmValuesForMedian st) Hm4)
    as [Hval Hframe].
  assert (Hold : forall a, is_Some (numberArrays s !! a) ->
            numberArrays s4 !! a = numberArrays s !! a).
  { intros a [x Hx]. assert (a <> fm) by congruence. assert (a <> all) by congruence.
    rewrite (Hn4 a) by assumption. unfold s3. cbn [numberArrays].
    rewrite !lookup_insert_ne by congruence. reflexivity. }
  assert (Holdp : forall a, is_Some (pointArrays s !! a) ->
            pointArrays s4 !! a = pointArrays s !! a).
  { intros a [x Hx]. assert (a <> polar) by congruence.
    rewrite (Hq4 a) by assumption. unfold s3. cbn [pointArrays].
    rewrite lookup_insert_ne by congruence. reflexivity. }
  destruct (0 <? length (sqmValuesForMedian st))%nat eqn:Hlen.
  - destruct (calculateMedianIn fm (numberArrays s4)) as [med h5].
    cbn [fst snd] in Hval, Hframe |- *. unfold readResult, preserved.
    cbn [medianSqmOf allSqmValuesOf polarDataOf numberArrays pointArrays].
    rewrite (Hframe all) by (rewrite Ha4; eauto). rewrite Ha4, Hp4. cbn [default from_option id].
    split.
    { unfold parseSqmText, finish. fold st. rewrite Hlen, Hval. reflexivity. }
    split.
    { split; [|exact Holdp]. intros a Ha.
      rewrite Hframe by (rewrite (Hold a Ha); exact Ha). apply Hold, Ha. }
    repeat split; eauto.
  - cbn [fst snd]. unfold readResult, preserved.
    cbn [medianSqmOf allSqmValuesOf polarDataOf numberArrays pointArrays].
    rewrite Ha4, Hp4. cbn [default from_option id].
    split.
    { unfold parseSqmText, finish. fold st. rewrite Hlen. reflexivity. }
    split; [split; [exact Hold | exact Holdp]|].
    repeat split; eauto.
Qed.

(** C9: two calls of the parse on the same text give results of the same
    structure, whatever the store holds when they are made: the result
    depends on the text alone.  A call works on arrays it makes itself and
    leaves every array that existed as it was, so a second call gives
    what the first gave and leaves the result of the first as it is. *)
Theorem C9_parse_is_deterministic (textData : jsString) (s1 s2 : store) :
  let first := parseSqmTextIn textData s1 in
  let other := parseSqmTextIn textData s2 in
  let second := parseSqmTextIn textData first.2 in
  readResult first.1 first.2 = readResult other.1 other.2
  /\ readResult second.1 second.2 = readResult first.1 first.2
  /\ readResult first.1 second.2 = readResult first.1 first.2
  /\ readResult first.1 first.2 = parseSqmText textData
  /\ preserved s1 first.2
  /\ numberArrays s1 !! allSqmValuesOf first.1 = None
  /\ pointArrays s1 !! polarDataOf first.1 = None.
Proof.
  intros first other second.
  destruct (parseSqmTextIn_spec textData s1) as (H1 & Hpres1 & Hn1 & Hp1 & Hsn1 & Hsp1).
  destruct (parseSqmTextIn_spec textData s2) as (H2 & _).
  destruct (parseSqmTextIn_spec textData first.2) as (H3 & [Hpn Hpp] & _).
  fold first in H1, Hpres1, Hn1, Hp1, Hsn1, Hsp1. fold other in H2. fold second in H3, Hpn, Hpp.
  split; [rewrite H1, H2; reflexivity|]. split; [rewrite H3, H1; reflexivity|].
  split; [|split; [exact H1|split; [exact Hpres1|split; [exact Hn1 | exact Hp1]]]].
  unfold readResult. rewrite (Hpn _ Hsn1), (Hpp _ Hsp1). reflexivity.
Qed.

Lemma C9_parse_is_deterministic_witness :
  readResult (parseSqmTextIn (joinLines [lineHigh; lineAltitude30]) (mkStore ∅ ∅)).1
             (parseSqmTextIn (joinLines [lineHigh; lineAltitude30]) (mkStore ∅ ∅)).2
  = readResult
      (parseSqmTextIn (joinLines [lineHigh; lineAltitude30])
                      (mkStore {[ 0%nat := [21%float] ]} ∅)).1
      (parseSqmTextIn (joinLines [lineHigh; lineAltitude30])
                      (mkStore {[ 0%nat := [21%float] ]} ∅)).2.
Proof.
  destruct (C9_parse_is_deterministic (joinLines [lineHigh; lineAltitude30])
              (mkStore ∅ ∅) (mkStore {[ 0%nat := [21%float] ]} ∅)) as (Hsame & _).
  exact Hsame.
Defined.

End ParseInStore.

(** ** The order of numbers and the comparator [(a, b) => a - b] *)

Section NumberOrder.
Import JS.

Lemma isNaN_false (x : number) : isNaN x = false <-> Prim2SF x <> S754_nan.
Proof.
  unfold isNaN, is_nan. rewrite FloatAxioms.eqb_spec. unfold SFeqb. split.
  - intros H Hn. rewrite Hn in H. discriminate H.
  - intros H. rewrite SFcompare_refl by exact H. reflexivity.
Qed.

Lemma SFcompare_defined (x y : spec_float) :
  x <> S754_nan -> y <> S754_nan -> exists c, SFcompare x y = Some c.
Proof.
  intros Hx Hy. destruct x, y; try congruence; cbn [SFcompare]; eauto.
Qed.

(** [a - b > 0] says exactly that [b < a]. *)
Lemma sub_gt_zero (a b : number) : gt (a - b) 0 = lt b a.
Proof.
  unfold gt, lt. rewrite !FloatAxioms.ltb_spec, FloatAxioms.sub_spec.
  apply SFsub_sign; apply Prim2SF_valid.
Qed.

Lemma le_not_lt (a b : number) : le a b = true -> lt b a = false.
Proof.
  unfold le, lt. rewrite FloatAxioms.leb_spec, FloatAxioms.ltb_spec. unfold SFleb, SFltb.
  rewrite (SFcompare_antisym (Prim2SF a) (Prim2SF b)).
  destruct (SFcompare (Prim2SF a) (Prim2SF b)) as [[| |]|]; cbn; congruence.
Qed.

Lemma not_lt_le (a b : number) :
  isNaN a = false -> isNaN b = false -> lt b a = false -> le a b = true.
Proof.
  rewrite !isNaN_false. intros Ha Hb.
  unfold le, lt. rewrite FloatAxioms.leb_spec, FloatAxioms.ltb_spec. unfold SFleb, SFltb.
  rewrite (SFcompare_antisym (Prim2SF a) (Prim2SF b)).
  destruct (SFcompare_defined _ _ Ha Hb) as [c ->].
  destruct c; cbn; congruence.
Qed.

Lemma lt_le (a b : number) : lt a b = true -> le a b = true.
Proof.
  unfold le, lt. rewrite FloatAxioms.leb_spec, FloatAxioms.ltb_spec. unfold SFleb, SFltb.
  destruct (SFcompare (Prim2SF a) (Prim2SF b)) as [[| |]|]; congruence.
Qed.

Lemma lt_not_NaN (a b : number) : lt a b = true -> isNaN a = false /\ isNaN b = false.
Proof.
  unfold lt. rewrite FloatAxioms.ltb_spec, !isNaN_false. unfold SFltb.
  destruct (Prim2SF a), (Prim2SF b); cbn [SFcompare]; intros H; split; congruence.
Qed.

Lemma le_not_NaN (a b : number) : le a b = true -> isNaN a = false /\ isNaN b = false.
Proof.
  unfold le. rewrite FloatAxioms.leb_spec, !isNaN_false. unfold SFleb.
  destruct (Prim2SF a), (Prim2SF b); cbn [SFcompare]; intros H; split; congruence.
Qed.

End NumberOrder.

(** ** [Array.prototype.sort] with the numeric comparator *)

Section Sorting.
Import JS DataService Spec.

Lemma sortInsert_perm {A : Type} (cmp : A -> A -> number) (x : A) (l : list A) :
  Permutation (x :: l) (sortInsert cmp x l).
Proof.
  induction l as [|y l IH]; cbn [sortInsert]; [reflexivity|].
  destruct (gt (cmp x y) 0); [|reflexivity].
  rewrite perm_swap. constructor. exact IH.
Qed.

Lemma sort_perm {A : Type} (cmp : A -> A -> number) (l : list A) :
  Permutation l (sort cmp l).
Proof.
  induction l as [|x l IH]; cbn [sort]; [reflexivity|].
  rewrite <- sortInsert_perm. constructor. exact IH.
Qed.

Lemma sort_length {A : Type} (cmp : A -> A -> number) (l : list A) :
  length (sort cmp l) = length l.
Proof. symmetry. apply Permutation_length, sort_perm. Qed.

Lemma sortInsert_HdRel (x y : number) (l : list number) :
  le y x = true -> HdRel (fun a b => le a b = true) y l ->
  HdRel (fun a b => le a b = true) y (sortInsert compareNumbers x l).
Proof.
  intros Hyx Hl. destruct l as [|z l]; cbn [sortInsert]; [constructor; exact Hyx|].
  destruct (gt (compareNumbers x z) 0); constructor; [|exact Hyx].
  inversion Hl; assumption.
Qed.

Lemma sortInsert_ascending (x : number) (l : list number) :
  isNaN x = false -> Forall (fun y => isNaN y = false) l ->
  ascending l -> ascending (sortInsert compareNumbers x l).
Proof.
  intros Hx Hl Hs. induction Hs as [|y l Hs IH Hd]; cbn [sortInsert].
  - repeat constructor.
  - inversion Hl as [|? ? Hy Hl']; subst.
    unfold compareNumbers at 1. rewrite sub_gt_zero.
    destruct (lt y x) eqn:Hlt.
    + constructor; [apply IH; exact Hl'|].
      apply sortInsert_HdRel; [apply lt_le; exact Hlt | exact Hd].
    + constructor; [constructor; assumption|].
      constructor. apply not_lt_le; assumption.
Qed.

Lemma sort_ascending (l : list number) :
  Forall (fun y => isNaN y = false) l -> ascending (sort compareNumbers l).
Proof.
  induction 1 as [|x l Hx Hl IH]; cbn [sort]; [constructor|].
  apply sortInsert_ascending; [exact Hx | | exact IH].
  eapply Permutation_Forall; [apply sort_perm | exact Hl].
Qed.

(** Sorting an ascending sequence leaves it as it is. *)
Lemma sort_of_ascending (l : list number) : ascending l -> sort compareNumbers l = l.
Proof.
  induction 1 as [|x l Hs IH Hd]; cbn [sort]; [reflexivity|].
  rewrite IH. destruct Hd as [|y l Hxy]; cbn [sortInsert]; [reflexivity|].
  unfold compareNumbers. rewrite sub_gt_zero, (le_not_lt x y Hxy). reflexivity.
Qed.

End Sorting.

(** ** Claims about the median *)

Section MedianClaims.
Import JS DataService Spec.

(** C4: the median of the empty sequence is [null].  Otherwise the
    function sorts a copy: the copy is a permutation of the input and is
    ascending when no element is NaN (it is the input itself when that is
    ascending already).  For an odd count the result is the middle
    element of the sorted copy, for an even count the mean of its two
    middle elements.  [median([1,2,3]) = 2], [median([1,2,3,4]) = 2.5]. *)
Theorem C4_median_is_middle_of_sorted_copy (numbers : list number) :
  calculateMedian [] = None
  /\ (numbers <> [] ->
      let sorted := sort compareNumbers numbers in
      let n := length numbers in
      Permutation numbers sorted
      /\ (Forall (fun x => isNaN x = false) numbers -> ascending sorted)
      /\ (ascending numbers -> sorted = numbers)
      /\ ((n mod 2 = 1)%nat ->
          exists x, sorted !! (n / 2)%nat = Some x /\ calculateMedian numbers = Some x)
      /\ ((n mod 2 = 0)%nat ->
          exists x y,
            sorted !! (n / 2 - 1)%nat = Some x /\ sorted !! (n / 2)%nat = Some y
            /\ calculateMedian numbers = Some ((x + y) / 2)%float))
  /\ calculateMedian [1%float; 2%float; 3%float] = Some 2%float
  /\ calculateMedian [1%float; 2%float; 3%float; 4%float] = Some 2.5%float.
Proof.
  split; [reflexivity|]. split; [|split; reflexivity].
  intros Hne sorted n.
  assert (Hlen : length sorted = n) by apply sort_length.
  assert (Hpos : (0 < n)%nat) by (unfold n; destruct numbers; [congruence | cbn; lia]).
  split; [apply sort_perm|]. split; [apply sort_ascending|].
  split; [apply sort_of_ascending|].
  unfold calculateMedian. fold sorted. rewrite Hlen.
  destruct (length numbers =? 0)%nat eqn:H0; [apply Nat.eqb_eq in H0; unfold n in Hpos; lia|].
  fold n. unfold at_index.
  assert (Hdiv : (n / 2 < n)%nat) by (apply Nat.div_lt; lia).
  destruct (lookup_lt_is_Some_2 sorted (n / 2)%nat) as [y Hy]; [lia|].
  split.
  - intros Hodd. rewrite Hodd. cbn [Nat.eqb]. exists y. rewrite Hy. split; reflexivity.
  - intros Heven. rewrite Heven. cbn [Nat.eqb].
    destruct (lookup_lt_is_Some_2 sorted (n / 2 - 1)%nat) as [x Hx]; [lia|].
    exists x, y. rewrite Hx, Hy. cbn [default]. auto.
Qed.

Lemma C4_median_is_middle_of_sorted_copy_witness :
  let numbers := [21.5%float; 19%float; 20.5%float; 22%float] in
  ascending (sort compareNumbers numbers)
  /\ calculateMedian numbers = Some 21%float
  /\ sort compareNumbers [19%float; 20.5%float; 21.5%float] = [19%float; 20.5%float; 21.5%float].
Proof.
  intros numbers.
  destruct (C4_median_is_middle_of_sorted_copy numbers) as (_ & Hgen & _).
  destruct Hgen as (_ & Hasc & _ & _ & Heven); [discriminate|].
  split; [apply Hasc; repeat constructor|].
  split.
  - destruct Heven as (x & y & Hx & Hy & ->); [reflexivity|].
    vm_compute in Hx, Hy. injection Hx as <-. injection Hy as <-. reflexivity.
  - destruct (C4_median_is_middle_of_sorted_copy [19%float; 20.5%float; 21.5%float])
      as (_ & Hgen & _).
    destruct Hgen as (_ & _ & Hid & _); [discriminate|].
    apply Hid. repeat constructor.
Defined.

End MedianClaims.

(** ** The median of a parsed file *)

Section HighAltitudeMedian.
Import JS DataService Spec Files.

Lemma high_magnitudes_numbers (lines : list jsString) :
  Forall (fun y => isNaN y = false)
         (map mag (List.filter isHighAltitude (omap readSample lines))).
Proof.
  induction lines as [|line lines IH]; cbn [omap list_omap]; [constructor|].
  destruct (readSample line) as [p|] eqn:Hp; [|exact IH].
  cbn [List.filter]. destruct (isHighAltitude p); [|exact IH].
  cbn [map]. constructor; [exact (readSample_mag line p Hp) | exact IH].
Qed.

(** The result of [calculateMedian], read off the sorted copy. *)
Lemma calculateMedian_middle (numbers : list number) :
  let sorted := sort compareNumbers numbers in
  let n := length numbers in
  ((n mod 2 = 1)%nat ->
   exists x, sorted !! (n / 2)%nat = Some x /\ calculateMedian numbers = Some x)
  /\ (n <> 0%nat -> (n mod 2 = 0)%nat ->
      exists x y,
        sorted !! (n / 2 - 1)%nat = Some x /\ sorted !! (n / 2)%nat = Some y
        /\ calculateMedian numbers = Some ((x + y) / 2)%float).
Proof.
  intros sorted n.
  assert (Hlen : length sorted = n) by apply sort_length.
  assert (Hcases : (0 < n)%nat ->
            ((n mod 2 = 1)%nat ->
             exists x, sorted !! (n / 2)%nat = Some x /\ calculateMedian numbers = Some x)
            /\ ((n mod 2 = 0)%nat ->
                exists x y,
                  sorted !! (n / 2 - 1)%nat = Some x /\ sorted !! (n / 2)%nat = Some y
                  /\ calculateMedian numbers = Some ((x + y) / 2)%float)).
  { intros Hpos. unfold calculateMedian. fold sorted. rewrite Hlen.
    destruct (length numbers =? 0)%nat eqn:H0;
      [apply Nat.eqb_eq in H0; unfold n in Hpos; lia|].
    fold n. unfold at_index.
    assert (Hdiv : (n / 2 < n)%nat) by (apply Nat.div_lt; lia).
    destruct (lookup_lt_is_Some_2 sorted (n / 2)%nat) as [y Hy]; [lia|].
    split.
    - intros Hodd. rewrite Hodd. cbn [Nat.eqb]. exists y. rewrite Hy. split; reflexivity.
    - intros Heven. rewrite Heven. cbn [Nat.eqb].
      destruct (lookup_lt_is_Some_2 sorted (n / 2 - 1)%nat) as [x Hx]; [lia|].
      exists x, y. rewrite Hx, Hy. cbn [default]. auto. }
  split.
  - intros Hodd. apply Hcases; [|exact Hodd].
    destruct n; [cbn in Hodd; discriminate | lia].
  - intros Hne Heven. apply Hcases; [lia | exact Heven].
Qed.

(** C3: [medianSqm] is the median of the magnitudes of exactly the samples
    whose altitude parses and exceeds 45: these magnitudes, put in
    ascending order, have [medianSqm] as their middle element when their
    count is odd and as the mean of their two middle elements when it is
    even and not zero; [medianSqm] is [null] exactly when there is no such
    sample.  [allSqmValues] holds the magnitude of every sample, so a
    sample at altitude 30 is in [allSqmValues] and not among those the
    median is taken of. *)
Theorem C3_median_of_high_altitude_samples (textData : jsString) :
  let ss := samples (split_newline textData) in
  let high := List.filter isHighAltitude ss in
  let r := parseSqmText textData in
  let sorted := sort compareNumbers (map mag high) in
  let n := length high in
  sqmValuesForMedian (runLoop (split_newline textData)) = map mag high
  /\ medianSqm r = calculateMedian (map mag high)
  /\ (medianSqm r = None <-> high = [])
  /\ allSqmValues r = map mag ss
  /\ (forall p, In p ss -> alt p = 30%float -> In (mag p) (allSqmValues r) /\ ~ In p high)
  /\ Permutation (map mag high) sorted
  /\ ascending sorted
  /\ ((n mod 2 = 1)%nat ->
      exists x, sorted !! (n / 2)%nat = Some x /\ medianSqm r = Some x)
  /\ (n <> 0%nat -> (n mod 2 = 0)%nat ->
      exists x y,
        sorted !! (n / 2 - 1)%nat = Some x /\ sorted !! (n / 2)%nat = Some y
        /\ medianSqm r = Some ((x + y) / 2)%float).
Proof.
  intros ss high r sorted n.
  destruct (runLoop_samples (split_newline textData)) as (Hm & Ha & _).
  fold ss in Hm, Ha. fold high in Hm.
  assert (Hmed : medianSqm r = calculateMedian (map mag high)).
  { unfold r, parseSqmText. rewrite finish_median, Hm. reflexivity. }
  assert (Hall : allSqmValues r = map mag ss).
  { unfold r, parseSqmText, finish. cbn [allSqmValues]. exact Ha. }
  destruct (calculateMedian_middle (map mag high)) as [Hodd Heven].
  rewrite length_map in Hodd, Heven. fold sorted n in Hodd, Heven.
  split; [exact Hm|]. split; [exact Hmed|].
  split; [|split; [exact Hall|split; [|split; [|split; [|split]]]]].
  - rewrite Hmed, calculateMedian_None. split.
    + intros H. destruct high; [reflexivity | discriminate].
    + intros ->. reflexivity.
  - intros p Hin Halt. split.
    + rewrite Hall. apply in_map. exact Hin.
    + unfold high. rewrite filter_In. intros [_ Hhigh].
      unfold isHighAltitude in Hhigh. rewrite Halt in Hhigh. discriminate Hhigh.
  - apply sort_perm.
  - apply sort_ascending. apply high_magnitudes_numbers.
  - intros Hn. rewrite Hmed. exact (Hodd Hn).
  - intros Hne Hn. rewrite Hmed. exact (Heven Hne Hn).
Qed.

Lemma C3_median_of_high_altitude_samples_witness :
  In 21%float (allSqmValues (parseSqmText fourReadings))
  /\ sqmValuesForMedian (runLoop (split_newline fourReadings))
     = [20.5%float; 22%float; 19%float]
  /\ sort compareNumbers [20.5%float; 22%float; 19%float] = [19%float; 20.5%float; 22%float]
  /\ medianSqm (parseSqmText fourReadings) = Some 20.5%float.
Proof.
  destruct (C3_median_of_high_altitude_samples fourReadings)
    as (Hbuf & _ & _ & _ & H30 & _ & _ & Hodd & _).
  split; [|split; [|split]].
  - refine (proj1 (H30 (mkPolarPoint (Some (str "12:03:00")) 21%float 30%float 10%float) _ _));
      vm_compute; auto.
  - rewrite Hbuf. vm_compute. reflexivity.
  - vm_compute. reflexivity.
  - destruct Hodd as (x & Hx & ->); [vm_compute; reflexivity|].
    vm_compute in Hx. symmetry. exact Hx.
Defined.

End HighAltitudeMedian.

(** ** The histogram: where a value is counted *)

Section HistogramClaims.
Import JS VisualizationService.

Lemma Prim2SF_minRange : Prim2SF minRange = S754_finite false 4503599627370496 (-48).
Proof. vm_compute. reflexivity. Qed.

Lemma Prim2SF_maxRange : Prim2SF maxRange = S754_finite false 6192449487634432 (-48).
Proof. vm_compute. reflexivity. Qed.

Lemma Prim2SF_binWidth : Prim2SF binWidth = S754_finite false 7205759403792794 (-55).
Proof. vm_compute. reflexivity. Qed.

Lemma compare_cont_Z (a b : positive) : Pos.compare_cont Eq a b = (Z.pos a ?= Z.pos b).
Proof. reflexivity. Qed.

(** A number in [minRange, maxRange) has the exponent of 16. *)
Lemma interior_repr (v : number) :
  ge v minRange = true -> lt v maxRange = true ->
  exists m, Prim2SF v = S754_finite false m (-48)
            /\ 4503599627370496 <= Z.pos m < 6192449487634432.
Proof.
  unfold ge, lt. rewrite FloatAxioms.leb_spec, FloatAxioms.ltb_spec.
  rewrite Prim2SF_minRange, Prim2SF_maxRange.
  unfold SFleb, SFltb.
  destruct (Prim2SF v) as [s|s| |s m e]; cbn [SFcompare];
    try (intros H1 H2; discriminate H1);
    try (destruct s; intros H1 H2; (discriminate H1 || discriminate H2)).
  destruct s; [intros H1 H2; discriminate H1|].
  rewrite !compare_cont_Z.
  destruct (Z.compare_spec (-48) e) as [He|He|He];
    destruct (Z.compare_spec e (-48)) as [He'|He'|He'];
    try (exfalso; lia); try (intros H1 H2; (discriminate H1 || discriminate H2)).
  subst e.
  destruct (Z.compare_spec 4503599627370496 (Z.pos m));
    destruct (Z.compare_spec (Z.pos m) 6192449487634432);
    intros H1 H2; try discriminate H1; try discriminate H2;
    (exists m; split; [reflexivity | clear H1 H2; lia]).
Qed.

Lemma binary_round_aux_exact (s : bool) (m : positive) (e : Z) :
  shift_of m e = 0 -> e <= emax - prec ->
  binary_round_aux prec emax s (Z.pos m) e loc_Exact = S754_finite s m e.
Proof.
  intros Hs He. unfold binary_round_aux.
  assert (Hshr : shr_fexp prec emax (Z.pos m) e loc_Exact
                 = ({| shr_m := Z.pos m; shr_r := false; shr_s := false |}, e)).
  { unfold shr_fexp, shr, shift_of in *. cbn [Zdigits2 shr_record_of_loc].
    destruct (fexp prec emax (Z.pos (digits2_pos m) + e) - e); try reflexivity; lia. }
  rewrite Hshr. cbn [shr_m loc_of_shr_record round_nearest_even]. rewrite Hshr.
  cbn [shr_m]. apply Z.leb_le in He. rewrite He. reflexivity.
Qed.

Lemma digits_le (p : positive) (n : Z) : Z.pos p < 2 ^ n -> Z.pos (digits2_pos p) <= n.
Proof.
  intros Hp. destruct (Z.le_gt_cases (Z.pos (digits2_pos p)) n) as [H|H]; [exact H|].
  pose proof (digits_bounds p) as [Hlo _].
  assert (2 ^ n <= 2 ^ (Z.pos (digits2_pos p) - 1)) by (apply Z.pow_le_mono_r; lia).
  lia.
Qed.

Lemma digits_ge (p : positive) (n : Z) : 0 <= n -> 2 ^ n <= Z.pos p -> n < Z.pos (digits2_pos p).
Proof.
  intros Hn Hp. destruct (Z.lt_ge_cases n (Z.pos (digits2_pos p))) as [H|H]; [exact H|].
  pose proof (digits_bounds p) as [_ Hhi].
  assert (2 ^ Z.pos (digits2_pos p) <= 2 ^ n) by (apply Z.pow_le_mono_r; lia).
  lia.
Qed.

(** The difference [v - 16] of a number in the range is exact: for
    [v = m * 2^-48] it is [k * 2^-48] with [k = m - 2^52], normalised. *)
Lemma sub_minRange_repr (v : number) (m : positive) :
  Prim2SF v = S754_finite false m (-48) ->
  4503599627370496 < Z.pos m < 6192449487634432 ->
  exists mx ex,
    Prim2SF (v - minRange) = S754_finite false mx ex
    /\ Z.pos (digits2_pos mx) = 53
    /\ -100 <= ex <= -50
    /\ Z.pos mx * 2 ^ (ex + 100) = (Z.pos m - 4503599627370496) * 2 ^ 52.
Proof.
  intros Hv Hm. rewrite FloatAxioms.sub_spec, Hv, Prim2SF_minRange.
  unfold SF64sub, SFsub. change (Z.min (-48) (-48)) with (-48). cbn [cond_Zopp].
  rewrite !shl_align_keep by lia. cbn [fst].
  destruct (Z.pos m - 4503599627370496) as [|k|k] eqn:Hk; try lia.
  cbn [binary_normalize]. unfold binary_round.
  pose proof (digits_bounds k) as Hd.
  assert (Hk51 : Z.pos (digits2_pos k) <= 51).
  { apply digits_le. change (2 ^ 51) with 2251799813685248. lia. }
  assert (Hf : fexp prec emax (Z.pos (digits2_pos k) + -48) = Z.pos (digits2_pos k) - 101)
    by (unfold fexp; change prec with 53; change (SpecFloat.emin 53 emax) with (-1074); lia).
  rewrite Hf.
  destruct (shl_align_value k (-48) (Z.pos (digits2_pos k) - 101)) as [Hval Hexp]; [lia|].
  destruct (shl_align k (-48) (Z.pos (digits2_pos k) - 101)) as [mz ez]. cbn [fst snd] in Hval, Hexp.
  subst ez.
  replace (-48 - (Z.pos (digits2_pos k) - 101)) with (53 - Z.pos (digits2_pos k)) in Hval by lia.
  assert (Hdz : Z.pos (digits2_pos mz) = 53).
  { apply Z.le_antisymm.
    - apply digits_le. rewrite Hval.
      replace 53 with (Z.pos (digits2_pos k) + (53 - Z.pos (digits2_pos k))) at 2 by lia.
      rewrite Z.pow_add_r by lia.
      apply Z.mul_lt_mono_pos_r; [apply Z.pow_pos_nonneg; lia | apply Hd].
    - enough (52 < Z.pos (digits2_pos mz)) by lia.
      apply digits_ge; [lia|]. rewrite Hval.
      replace 52 with (Z.pos (digits2_pos k) - 1 + (53 - Z.pos (digits2_pos k))) by lia.
      rewrite Z.pow_add_r by lia.
      apply Z.mul_le_mono_nonneg_r; [apply Z.pow_nonneg; lia | apply Hd]. }
  rewrite binary_round_aux_exact.
  - exists mz, (Z.pos (digits2_pos k) - 101). split; [reflexivity|]. split; [exact Hdz|].
    split; [lia|]. rewrite Hval.
    replace (Z.pos (digits2_pos k) - 101 + 100) with (Z.pos (digits2_pos k) - 1) by lia.
    rewrite <- Z.mul_assoc, <- Z.pow_add_r by lia.
    f_equal. f_equal. lia.
  - unfold shift_of, fexp. rewrite Hdz. change prec with 53.
    change (SpecFloat.emin 53 emax) with (-1074). lia.
  - change (emax - prec) with 971. lia.
Qed.

Lemma digits_binWidth : digits2_pos 7205759403792794 = 53%positive.
Proof. vm_compute. reflexivity. Qed.

Lemma div_eucl_div_mod (a b : Z) : Z.div_eucl a b = (a / b, a mod b).
Proof. unfold Z.div, Z.modulo. destruct (Z.div_eucl a b). reflexivity. Qed.

(** The quotient of a normalised significand by that of [binWidth]. *)
Lemma div_core_binWidth (mx : positive) (ex : Z) :
  Z.pos (digits2_pos mx) = 53 -> -1000 <= ex ->
  SFdiv_core_binary prec emax (Z.pos mx) ex 7205759403792794 (-55)
  = ((Z.pos mx * 2 ^ 53) / 7205759403792794, ex + 2,
     new_location 7205759403792794 ((Z.pos mx * 2 ^ 53) mod 7205759403792794)).
Proof.
  intros Hd Hex. unfold SFdiv_core_binary. cbv zeta. cbn [Zdigits2].
  rewrite Hd, digits_binWidth.
  assert (He : Z.min (fexp prec emax (53 + ex - (53 + -55))) (ex - -55) = ex + 2).
  { unfold fexp. change prec with 53. change (SpecFloat.emin 53 emax) with (-1074). lia. }
  rewrite He. replace (ex - -55 - (ex + 2)) with 53 by lia.
  rewrite Z.shiftl_mul_pow2 by lia.
  rewrite div_eucl_div_mod. reflexivity.
Qed.


(** The quotient [(v - 16) / 0.2]: a positive number below the unit,
    whose significand exceeds the integer quotient by at most one unit in
    the last place kept. *)
Lemma quotient_repr (x : number) (mx : positive) (ex : Z) :
  Prim2SF x = S754_finite false mx ex ->
  Z.pos (digits2_pos mx) = 53 -> -100 <= ex <= -50 ->
  exists m3 e3,
    Prim2SF (x / binWidth) = S754_finite false m3 e3
    /\ ex + 2 <= e3 < 0
    /\ Z.pos m3 * 2 ^ (e3 - (ex + 2))
       <= (Z.pos mx * 2 ^ 53) / 7205759403792794
          + (if (Z.pos mx * 2 ^ 53) / 7205759403792794 <? 2 ^ 53 then 1 else 2).
Proof.
  intros Hx Hd Hex.
  pose proof (Prim2SF_valid (x / binWidth)) as Hvalid. revert Hvalid.
  rewrite FloatAxioms.div_spec, Hx, Prim2SF_binWidth. unfold SF64div, SFdiv.
  rewrite div_core_binWidth by lia. cbn [xorb].
  pose proof (digits_bounds mx) as Hmx. rewrite Hd in Hmx.
  change (2 ^ (53 - 1)) with 4503599627370496 in Hmx.
  change (2 ^ 53) with 9007199254740992 in *.
  set (q := Z.pos mx * 9007199254740992 / 7205759403792794).
  assert (Hq : 5629499534213119 <= q <= 11258999068426238).
  { unfold q. split.
    - apply Z.div_le_lower_bound; lia.
    - enough (Z.pos mx * 9007199254740992 / 7205759403792794 < 11258999068426239) by lia.
      apply Z.div_lt_upper_bound; lia. }
  destruct q as [|qp|qp] eqn:Hqp; try lia.
  set (l := new_location _ _). clearbody l.
  assert (Hemin : SpecFloat.emin prec emax <= ex + 2)
    by (change (SpecFloat.emin prec emax) with (-1074); lia).
  destruct (binary_round_aux_pos qp (ex + 2) l Hemin) as (m3 & e3 & -> & He3 & Hb).
  assert (Hdq : Z.pos (digits2_pos qp) <= 54).
  { apply digits_le. change (2 ^ 54) with 18014398509481984. lia. }
  assert (Hshift : 0 <= shift_of qp (ex + 2) <= 1).
  { unfold shift_of, fexp. change prec with 53.
    change (SpecFloat.emin 53 emax) with (-1074). lia. }
  assert (Hshift0 : Z.pos qp < 9007199254740992 -> shift_of qp (ex + 2) = 0).
  { intros Hlt. assert (Z.pos (digits2_pos qp) <= 53).
    { apply digits_le. change (2 ^ 53) with 9007199254740992. lia. }
    unfold shift_of, fexp. change prec with 53.
    change (SpecFloat.emin 53 emax) with (-1074). lia. }
  assert (Hpow : 2 ^ shift_of qp (ex + 2) <= 2).
  { change 2 with (2 ^ 1) at 3. apply Z.pow_le_mono_r; lia. }
  assert (Hexp : e3 - (ex + 2) < 55).
  { apply (Z.pow_lt_mono_r_iff 2); [lia | lia |].
    change (2 ^ 55) with 36028797018963968.
    assert (0 < 2 ^ (e3 - (ex + 2))) by (apply Z.pow_pos_nonneg; lia).
    nia. }
  assert (Hfin : (e3 <=? emax - prec) = true)
    by (apply Z.leb_le; change (emax - prec) with 971; lia).
  rewrite Hfin. cbn [valid_binary]. intros Hvalid.
  destruct (bounded_canonical _ _ Hvalid) as (_ & _ & Hnorm).
  assert (Hd3 : Z.pos (digits2_pos m3) = 53)
    by (apply Hnorm; change (SpecFloat.emin prec emax) with (-1074); lia).
  pose proof (digits_bounds m3) as Hm3. rewrite Hd3 in Hm3.
  change (2 ^ (53 - 1)) with 4503599627370496 in Hm3.
  assert (Hexp2 : e3 - (ex + 2) < 2).
  { apply (Z.pow_lt_mono_r_iff 2); [lia | lia |].
    change (2 ^ 2) with 4.
    assert (0 < 2 ^ (e3 - (ex + 2))) by (apply Z.pow_pos_nonneg; lia).
    nia. }
  exists m3, e3. split; [reflexivity|]. split; [lia|].
  destruct (Z.ltb_spec (Z.pos qp) 9007199254740992) as [Hlt|Hge].
  - rewrite (Hshift0 Hlt) in Hb. exact Hb.
  - lia.
Qed.

Lemma Math_floor_finite (y : number) (m : positive) (e : Z) :
  Prim2SF y = S754_finite false m e -> e < 0 ->
  Math_floor y = of_Z (Z.pos m / 2 ^ (- e)).
Proof.
  intros Hy He. unfold Math_floor. rewrite Hy.
  destruct (Z.leb_spec 0 e); [lia|].
  cbn [significand]. rewrite Z.shiftr_div_pow2 by lia. reflexivity.
Qed.

Lemma Prim2SF_eq_minRange (v : number) :
  Prim2SF v = S754_finite false 4503599627370496 (-48) -> v = minRange.
Proof. intros Hv. apply Prim2SF_inj. rewrite Hv, Prim2SF_minRange. reflexivity. Qed.

(** For [16 <= v < 22] the floor of the quotient is one of 0, ..., 29. *)
Lemma interior_floor (v : number) :
  ge v minRange = true -> lt v maxRange = true ->
  exists n, 0 <= n <= 29 /\ Math_floor ((v - minRange) / binWidth)%float = of_Z n.
Proof.
  intros Hge Hlt. destruct (interior_repr v Hge Hlt) as (m & Hv & Hm).
  destruct (Z.eq_dec (Z.pos m) 4503599627370496) as [Heq|Hne].
  - injection Heq as ->. rewrite (Prim2SF_eq_minRange v Hv).
    exists 0. split; [lia|]. vm_compute. reflexivity.
  - destruct (sub_minRange_repr v m Hv) as (mx & ex & Hx & Hd & Hex & Hval); [lia|].
    destruct (quotient_repr _ mx ex Hx Hd Hex) as (m3 & e3 & Hq & He3 & Hb).
    exists (Z.pos m3 / 2 ^ (- e3)).
    split; [|apply Math_floor_finite; [exact Hq | lia]].
    assert (Hp3 : 0 < 2 ^ (- e3)) by (apply Z.pow_pos_nonneg; lia).
    split; [apply Z.div_pos; lia|].
    enough (Z.pos m3 / 2 ^ (- e3) < 30) by lia.
    apply Z.div_lt_upper_bound; [exact Hp3|].
    assert (HP : 0 < 2 ^ (e3 - (ex + 2))) by (apply Z.pow_pos_nonneg; lia).
    assert (Hsplit : 2 ^ (- (ex + 2)) = 2 ^ (- e3) * 2 ^ (e3 - (ex + 2))).
    { rewrite <- Z.pow_add_r by lia. f_equal. lia. }
    pose proof (digits_bounds mx) as Hmx. rewrite Hd in Hmx.
    change (2 ^ (53 - 1)) with 4503599627370496 in Hmx.
    change (2 ^ 53) with 9007199254740992 in *.
    set (q := Z.pos mx * 9007199254740992 / 7205759403792794) in *.
    enough (Hbound : q + (if q <? 9007199254740992 then 1 else 2) < 30 * 2 ^ (- (ex + 2))).
    { rewrite Hsplit in Hbound. nia. }
    destruct (Z.eq_dec ex (-50)) as [->|Hex'].
    + change (2 ^ (- (-50 + 2))) with 281474976710656.
      change (2 ^ (-50 + 100)) with 1125899906842624 in Hval.
      change (2 ^ 52) with 4503599627370496 in Hval.
      assert (Hq' : q < 8444249301319675)
        by (unfold q; apply Z.div_lt_upper_bound; lia).
      destruct (Z.ltb_spec q 9007199254740992); lia.
    + assert (Hq' : q < 11258999068426239)
        by (unfold q; apply Z.div_lt_upper_bound; lia).
      assert (H49 : 2 ^ 49 <= 2 ^ (- (ex + 2))) by (apply Z.pow_le_mono_r; lia).
      change (2 ^ 49) with 562949953421312 in H49.
      destruct (q <? 9007199254740992); lia.
Qed.

Lemma labels_length : length labels = 32%nat.
Proof. vm_compute. reflexivity. Qed.

Lemma interior_indices_ok : forallb interiorIndexOk (map Z.of_nat (seq 0 30)) = true.
Proof. vm_compute. reflexivity. Qed.

Lemma interiorIndexOk_range (n : Z) : 0 <= n <= 29 -> interiorIndexOk n = true.
Proof.
  intros Hn. pose proof interior_indices_ok as Hall.
  rewrite forallb_forall in Hall. apply Hall.
  replace n with (Z.of_nat (Z.to_nat n)) by lia.
  apply in_map, in_seq. lia.
Qed.

(** At or above [maxRange] is not below [minRange]. *)
Lemma ge_maxRange_not_lt_minRange (v : number) :
  ge v maxRange = true -> lt v minRange = false.
Proof.
  unfold ge, lt. rewrite FloatAxioms.leb_spec, FloatAxioms.ltb_spec.
  rewrite Prim2SF_minRange, Prim2SF_maxRange.
  unfold SFleb, SFltb.
  destruct (Prim2SF v) as [s|s| |s m e]; cbn [SFcompare];
    try reflexivity; try (destruct s; intros H; (reflexivity || discriminate H)).
  destruct s; [intros H; discriminate H|].
  rewrite !compare_cont_Z.
  destruct (Z.compare_spec (-48) e) as [He|He|He];
    destruct (Z.compare_spec e (-48)) as [He'|He'|He'];
    try (exfalso; lia); try reflexivity; try (intros H; discriminate H).
  destruct (Z.compare_spec 6192449487634432 (Z.pos m)) as [Hhi|Hhi|Hhi];
    destruct (Z.compare_spec (Z.pos m) 4503599627370496) as [Hlo|Hlo|Hlo];
    intros H; try reflexivity; try discriminate H; exfalso; clear H; lia.
Qed.

(** C6: with [binWidth = 0.2], [minRange = 16], [maxRange = 22] there are
    32 bins.  A value below [minRange] is counted in bin 0; a value at or
    above [maxRange] in the last bin, 31; a value [v] in
    [minRange, maxRange) in the interior bin
    [floor((v - minRange) / binWidth) + 1], which lies between 1 and 30;
    [minRange] itself in bin 1.  So 15.9, 16.0, 21.99 and 22.0 go to bins
    0, 1, 30 and 31. *)
Theorem C6_bucket_routing (bins : list nat) (v : number) :
  length labels = 32%nat
  /\ (lt v minRange = true -> countValue bins v = increment 0 bins)
  /\ (ge v maxRange = true -> countValue bins v = increment 31 bins)
  /\ (ge v minRange = true -> lt v maxRange = true ->
      exists n,
        0 <= n <= 29
        /\ Math_floor ((v - minRange) / binWidth)%float = of_Z n
        /\ toInteger (Math_floor ((v - minRange) / binWidth) + 1)%float = n + 1
        /\ countValue bins v = increment (Z.to_nat (n + 1)) bins)
  /\ countValue bins minRange = increment 1 bins
  /\ histogramBins [parseFloatString (str "15.9"); parseFloatString (str "16.0");
                    parseFloatString (str "21.99"); parseFloatString (str "22.0")]
     = ([1; 1] ++ replicate 28 0 ++ [1; 1])%nat.
Proof.
  assert (Hinterior : ge v minRange = true -> lt v maxRange = true ->
      exists n,
        0 <= n <= 29
        /\ Math_floor ((v - minRange) / binWidth)%float = of_Z n
        /\ toInteger (Math_floor ((v - minRange) / binWidth) + 1)%float = n + 1
        /\ countValue bins v = increment (Z.to_nat (n + 1)) bins).
  { intros Hge Hlt. destruct (interior_floor v Hge Hlt) as (n & Hn & Hfloor).
    pose proof (interiorIndexOk_range n Hn) as Hok. unfold interiorIndexOk in Hok.
    apply andb_true_iff in Hok as [Hguard Hidx]. apply Z.eqb_eq in Hidx.
    exists n. split; [exact Hn|]. split; [exact Hfloor|].
    rewrite Hfloor. split; [exact Hidx|].
    unfold countValue. rewrite Hfloor.
    destruct (lt_not_NaN _ _ Hlt) as [-> _].
    rewrite (le_not_lt minRange v Hge).
    destruct (ge v maxRange) eqn:Hmax.
    { rewrite (le_not_lt maxRange v Hmax) in Hlt. discriminate Hlt. }
    rewrite Hguard, Hidx. reflexivity. }
  split; [exact labels_length|]. split; [|split; [|split; [exact Hinterior|split]]].
  - intros Hlt. unfold countValue.
    destruct (lt_not_NaN _ _ Hlt) as [-> _]. rewrite Hlt. reflexivity.
  - intros Hge. unfold countValue.
    destruct (le_not_NaN _ _ Hge) as [_ ->].
    rewrite (ge_maxRange_not_lt_minRange v Hge), Hge, labels_length. reflexivity.
  - clear Hinterior. unfold countValue.
    assert (HisNaN : isNaN minRange = false) by (vm_compute; reflexivity).
    assert (Hlt : lt minRange minRange = false) by (vm_compute; reflexivity).
    assert (Hge : ge minRange maxRange = false) by (vm_compute; reflexivity).
    assert (Hfloor : (Math_floor ((minRange - minRange) / binWidth) + 1)%float = 1%float)
      by (vm_compute; reflexivity).
    rewrite HisNaN, Hlt, Hge, Hfloor, labels_length.
    assert (Hguard : gt 1 0 && lt 1 (of_Z (Z.of_nat 32 - 1)) = true) by (vm_compute; reflexivity).
    rewrite Hguard.
    assert (Hidx : Z.to_nat (toInteger 1%float) = 1%nat) by (vm_compute; reflexivity).
    rewrite Hidx. reflexivity.
  - vm_compute. reflexivity.
Qed.

Lemma C6_bucket_routing_witness :
  countValue (replicate 32 0%nat) (parseFloatString (str "15.9"))
    = increment 0 (replicate 32 0%nat)
  /\ countValue (replicate 32 0%nat) (parseFloatString (str "22.0"))
    = increment 31 (replicate 32 0%nat)
  /\ exists n, 0 <= n <= 29
       /\ countValue (replicate 32 0%nat) (parseFloatString (str "21.99"))
          = increment (Z.to_nat (n + 1)) (replicate 32 0%nat).
Proof.
  split; [|split].
  - apply (C6_bucket_routing (replicate 32 0%nat) (parseFloatString (str "15.9"))).
    vm_compute. reflexivity.
  - apply (C6_bucket_routing (replicate 32 0%nat) (parseFloatString (str "22.0"))).
    vm_compute. reflexivity.
  - destruct (C6_bucket_routing (replicate 32 0%nat) (parseFloatString (str "21.99")))
      as (_ & _ & _ & Hin & _).
    destruct Hin as (n & Hn & _ & _ & Hcount); [vm_compute; reflexivity ..|].
    exists n. split; [exact Hn | exact Hcount].
Defined.

End HistogramClaims.

(** * Further properties of the code *)

Import JS DataService VisualizationService Spec.
Import Lines HistogramIndex NumberOrder MapService Files.
#[local] Set Warnings "-inexact-float".

Section TrimFacts.

Lemma trimStart_ws (w s : jsString) : allWhiteSpace w -> trimStart (w ++ s) = trimStart s.
Proof. induction 1 as [|c w Hc _ IH]; cbn; [reflexivity|]. rewrite Hc. exact IH. Qed.

Lemma trimStart_head (s : jsString) (c : N) (r : jsString) :
  trimStart s = c :: r -> isWhiteSpace c = false.
Proof.
  induction s as [|d s IH]; cbn; [discriminate|].
  destruct (isWhiteSpace d) eqn:Hd; [exact IH|]. intros [= <- <-]. exact Hd.
Qed.

Lemma trimStart_keep (s : jsString) (c : N) (r : jsString) :
  isWhiteSpace c = false -> trimStart (c :: r) = c :: r.
Proof. intros H. cbn. rewrite H. reflexivity. Qed.

Lemma trimStart_app (s t : jsString) :
  trimStart s <> [] -> trimStart (s ++ t) = trimStart s ++ t.
Proof.
  induction s as [|c s IH]; cbn; [congruence|].
  destruct (isWhiteSpace c); [exact IH | reflexivity].
Qed.

Lemma trimStart_idem (s : jsString) : trimStart (trimStart s) = trimStart s.
Proof.
  destruct (trimStart s) as [|c r] eqn:H; [reflexivity|].
  apply trimStart_keep with (s := s). exact (trimStart_head s c r H).
Qed.

Lemma trimStart_all_ws (s : jsString) : allWhiteSpace s -> trimStart s = [].
Proof. intros H. rewrite <- (app_nil_r s). rewrite trimStart_ws by exact H. reflexivity. Qed.

Lemma allWhiteSpace_rev (w : jsString) : allWhiteSpace w -> allWhiteSpace (rev w).
Proof. unfold allWhiteSpace. rewrite !List.Forall_forall. intros H c Hc. apply H, in_rev, Hc. Qed.

Lemma trimEnd_ws (s w : jsString) : allWhiteSpace w -> trimEnd (s ++ w) = trimEnd s.
Proof.
  intros Hw. unfold trimEnd. rewrite rev_app_distr.
  rewrite trimStart_ws by (apply allWhiteSpace_rev; exact Hw). reflexivity.
Qed.

(** White space around a line does not matter to [trim]. *)
Lemma trim_padding (pre s post : jsString) :
  allWhiteSpace pre -> allWhiteSpace post -> trim (pre ++ s ++ post) = trim s.
Proof.
  intros Hpre Hpost. unfold trim. rewrite trimStart_ws by exact Hpre.
  destruct (trimStart s) as [|c r] eqn:Hs.
  - assert (Hall : trimStart (s ++ post) = []).
    { clear -Hs Hpost. induction s as [|d s IH]; cbn in *.
      - apply trimStart_all_ws. exact Hpost.
      - destruct (isWhiteSpace d); [apply IH; exact Hs | discriminate]. }
    rewrite Hall. reflexivity.
  - rewrite trimStart_app by congruence. rewrite Hs. apply trimEnd_ws. exact Hpost.
Qed.

End TrimFacts.

Section LineEndings.

Lemma split_newline_noLF (s : jsString) : noLineFeed s -> split_newline s = [s].
Proof.
  induction 1 as [|c s Hc _ IH]; cbn; [reflexivity|].
  apply N.eqb_neq in Hc. rewrite Hc, IH. reflexivity.
Qed.

Lemma split_newline_app (s t : jsString) :
  noLineFeed s -> split_newline (s ++ 10%N :: t) = s :: split_newline t.
Proof.
  induction 1 as [|c s Hc _ IH]; cbn; [reflexivity|].
  apply N.eqb_neq in Hc. rewrite Hc, IH. reflexivity.
Qed.

(** Splitting what [join] put together with line feeds gives the lines back. *)
Lemma split_newline_join (lines : list jsString) :
  lines <> [] -> Forall noLineFeed lines -> split_newline (join [10%N] lines) = lines.
Proof.
  intros Hne Hall. induction Hall as [|l rest Hl Hrest IH]; [congruence|].
  destruct rest as [|l' rest'].
  - cbn. apply split_newline_noLF. exact Hl.
  - change (join [10%N] (l :: l' :: rest')) with (l ++ 10%N :: join [10%N] (l' :: rest')).
    rewrite split_newline_app by exact Hl. rewrite IH by discriminate. reflexivity.
Qed.

Lemma split_newline_join_crlf (lines : list jsString) :
  lines <> [] -> Forall noLineFeed lines ->
  Forall2 (fun a b => trim a = trim b) (split_newline (join [13%N; 10%N] lines)) lines.
Proof.
  intros Hne Hall. induction Hall as [|l rest Hl Hrest IH]; [congruence|].
  destruct rest as [|l' rest'].
  - cbn [join]. rewrite split_newline_noLF by exact Hl. repeat constructor.
  - change (join [13%N; 10%N] (l :: l' :: rest'))
      with (l ++ 13%N :: 10%N :: join [13%N; 10%N] (l' :: rest')).
    replace (l ++ 13%N :: 10%N :: join [13%N; 10%N] (l' :: rest'))
      with ((l ++ [13%N]) ++ 10%N :: join [13%N; 10%N] (l' :: rest'))
      by (rewrite <- app_assoc; reflexivity).
    rewrite split_newline_app.
    + constructor; [|apply IH; discriminate].
      rewrite <- (trim_padding [] l [13%N]); [reflexivity | constructor | repeat constructor].
    + apply Forall_app. split; [exact Hl | repeat constructor; discriminate].
Qed.

Lemma loopBody_trim (st : LoopState) (l1 l2 : jsString) :
  trim l1 = trim l2 -> loopBody st l1 = loopBody st l2.
Proof. intros H. unfold loopBody, processLine. rewrite H. reflexivity. Qed.

Lemma fold_loopBody_trim (ls1 ls2 : list jsString) (st : LoopState) :
  Forall2 (fun a b => trim a = trim b) ls1 ls2 ->
  fold_left loopBody ls1 st = fold_left loopBody ls2 st.
Proof.
  intros H. revert st. induction H as [|a b ls1 ls2 Hab _ IH]; intros st; [reflexivity|].
  cbn [fold_left]. rewrite (loopBody_trim st a b Hab). apply IH.
Qed.

(** X1: white space around a line is immaterial, and a file with CR LF
    line ends parses to the same result as with LF line ends. *)
Theorem X1_line_ends_and_padding (lines : list jsString) :
  (forall st pre line post,
     allWhiteSpace pre -> allWhiteSpace post ->
     loopBody st (pre ++ line ++ post) = loopBody st line)
  /\ (Forall noLineFeed lines ->
      split_newline (join [10%N] lines) = (if lines is [] then [[]] else lines)
      /\ parseSqmText (join [13%N; 10%N] lines) = parseSqmText (join [10%N] lines)).
Proof.
  split.
  - intros st pre line post Hpre Hpost. apply loopBody_trim, trim_padding; assumption.
  - intros Hall. destruct lines as [|l rest]; [split; reflexivity|].
    split; [apply split_newline_join; [discriminate | exact Hall]|].
    unfold parseSqmText, runLoop. f_equal.
    rewrite (split_newline_join (l :: rest)) by (try discriminate; exact Hall).
    apply fold_loopBody_trim, split_newline_join_crlf; [discriminate | exact Hall].
Qed.

Lemma X1_line_ends_and_padding_witness :
  loopBody initialState (str "  " ++ lineHigh ++ [13%N]) = loopBody initialState lineHigh
  /\ split_newline (join [10%N] (header ++ [lineHigh; lineAltitude30]))
     = header ++ [lineHigh; lineAltitude30]
  /\ parseSqmText (join [13%N; 10%N] (header ++ [lineHigh; lineAltitude30]))
     = parseSqmText (join [10%N] (header ++ [lineHigh; lineAltitude30])).
Proof.
  destruct (X1_line_ends_and_padding (header ++ [lineHigh; lineAltitude30])) as [Hpad Hends].
  split.
  - apply Hpad; unfold allWhiteSpace; repeat constructor.
  - apply Hends. unfold noLineFeed. vm_compute.
    repeat (constructor; try discriminate).
Defined.

End LineEndings.

Section Columns.

Lemma endsClean_tail (c : N) (s : jsString) : s <> [] -> endsClean (c :: s) -> endsClean s.
Proof.
  unfold endsClean. destruct s as [|d s]; [congruence|]. intros _.
  rewrite last_cons. destruct (last (d :: s)) eqn:Hl; [auto|].
  apply last_None in Hl. discriminate Hl.
Qed.

Lemma split_ws_from_tokens (s : jsString) :
  endsClean s ->
  (s <> [] -> Forall (fun t => t <> []) (split_ws_from true s))
  /\ (forall c r, s = c :: r -> isWhiteSpace c = false ->
      Forall (fun t => t <> []) (split_ws_from false s)).
Proof.
  induction s as [|c s IH]; intros Hclean; [split; [congruence | discriminate]|].
  destruct s as [|d s'].
  - unfold endsClean in Hclean. cbn in Hclean.
    split; [intros _ | intros c' r [= <- <-] _]; cbn; rewrite Hclean;
      repeat constructor; discriminate.
  - assert (Hne : d :: s' <> []) by discriminate.
    specialize (IH (endsClean_tail c _ Hne Hclean)) as [IHt IHf].
    assert (Hnonws : isWhiteSpace c = false ->
              forall b, Forall (fun t => t <> []) (split_ws_from b (c :: d :: s'))).
    { intros Hc b.
      assert (Hstep : split_ws_from b (c :: d :: s')
                = match split_ws_from false (d :: s') with
                  | piece :: pieces => (c :: piece) :: pieces
                  | [] => [[c]]
                  end) by (cbn [split_ws_from]; rewrite Hc; reflexivity).
      rewrite Hstep. clear Hstep.
      destruct (isWhiteSpace d) eqn:Hd.
      - assert (Hf : split_ws_from false (d :: s') = [] :: split_ws_from true s')
          by (cbn [split_ws_from]; rewrite Hd; reflexivity).
        assert (Ht : split_ws_from true (d :: s') = split_ws_from true s')
          by (cbn [split_ws_from]; rewrite Hd; reflexivity).
        rewrite Hf. constructor; [discriminate|].
        rewrite <- Ht. apply IHt. exact Hne.
      - specialize (IHf d s' eq_refl Hd).
        destruct (split_ws_from false (d :: s')) as [|t ts]; [repeat constructor; discriminate|].
        inversion IHf; subst. constructor; [discriminate | assumption]. }
    split.
    + intros _. destruct (isWhiteSpace c) eqn:Hc; [|apply Hnonws; reflexivity].
      assert (Ht : split_ws_from true (c :: d :: s') = split_ws_from true (d :: s'))
        by (cbn [split_ws_from]; rewrite Hc; reflexivity).
      rewrite Ht. apply IHt. exact Hne.
    + intros c' r [= <- <-] Hc. apply Hnonws. exact Hc.
Qed.

Lemma trim_head (line : jsString) (c : N) (r : jsString) :
  trim line = c :: r -> isWhiteSpace c = false.
Proof.
  unfold trim, trimEnd. remember (trimStart line) as t eqn:Ht.
  intros H.
  destruct (trimStart (rev t)) as [|e u] eqn:Hu; [discriminate H|].
  (* rev (e :: u) is a prefix of t *)
  assert (Hpre : exists p, rev t = p ++ e :: u).
  { clear H. revert Hu. generalize (rev t) as x. induction x as [|y x IH]; cbn; [discriminate|].
    destruct (isWhiteSpace y).
    - intros Hx. destruct (IH Hx) as [p ->]. exists (y :: p). reflexivity.
    - intros [= <- <-]. exists []. reflexivity. }
  destruct Hpre as [p Hp].
  apply (f_equal (@rev N)) in Hp. rewrite rev_involutive, rev_app_distr in Hp.
  rewrite H in Hp. cbn in Hp.
  destruct t as [|c0 t0]; [discriminate Hp|].
  injection Hp as -> _. apply (trimStart_head line c t0). symmetry. exact Ht.
Qed.

Lemma trim_endsClean (line : jsString) : endsClean (trim line).
Proof.
  unfold trim, trimEnd, endsClean. set (t := trimStart line).
  destruct (trimStart (rev t)) as [|e u] eqn:Hu; [reflexivity|].
  cbn [rev]. rewrite last_snoc. exact (trimStart_head _ _ _ Hu).
Qed.

(** The columns of a line that is not blank are non-empty strings. *)
Lemma columns_nonempty (line : jsString) :
  trim line <> [] -> Forall (fun t => t <> []) (split_ws (trim line)).
Proof.
  intros Hne. destruct (trim line) as [|c r] eqn:Ht; [congruence|].
  pose proof (trim_endsClean line) as Hclean. rewrite Ht in Hclean.
  destruct (split_ws_from_tokens (c :: r) Hclean) as [_ Hf].
  apply (Hf c r eq_refl). exact (trim_head line c r Ht).
Qed.

Lemma readSample_time (line : jsString) (p : PolarPoint) :
  readSample line = Some p -> truthy (time p) = true.
Proof.
  unfold readSample, isBlank.
  destruct (length (trim line) =? 0)%nat eqn:Hb; [discriminate|].
  destruct (9 <=? length (split_ws (trim line)))%nat eqn:Hlen; [|discriminate].
  destruct (isNaN _); [discriminate|]. intros [= <-]. cbn [time].
  apply Nat.eqb_neq in Hb. apply Nat.leb_le in Hlen.
  assert (Hne : trim line <> []) by (intros H; rewrite H in Hb; cbn in Hb; lia).
  pose proof (columns_nonempty line Hne) as Hcols.
  destruct (lookup_lt_is_Some_2 (split_ws (trim line)) 2%nat) as [t Ht]; [lia|].
  rewrite Ht. rewrite List.Forall_forall in Hcols.
  specialize (Hcols t (proj1 (list_elem_of_In _ _) (list_elem_of_lookup_2 _ _ _ Ht))).
  destruct t; [congruence | reflexivity].
Qed.

(** X2: every column of a non-blank line is a non-empty string, so the
    test on [time] never excludes a sample: a sample enters [polarData]
    exactly when its altitude and azimuth are numbers in range, and every
    entry of [polarData] has a non-empty time. *)
Theorem X2_time_is_never_empty (textData line : jsString) :
  (trim line <> [] -> Forall (fun t => t <> []) (split_ws (trim line)))
  /\ (forall p, In p (samples (split_newline textData)) ->
      isPolarSample p
      = negb (isNaN (alt p)) && ge (alt p) 0 && le (alt p) 90
        && negb (isNaN (azi p)) && ge (azi p) 0 && le (azi p) 360)
  /\ Forall (fun p => exists c t, time p = Some (c :: t)) (polarData (parseSqmText textData)).
Proof.
  assert (Htime : forall p, In p (samples (split_newline textData)) -> truthy (time p) = true).
  { intros p Hin. unfold samples in Hin.
    apply list_elem_of_In, list_elem_of_omap in Hin as (l & _ & Hl).
    exact (readSample_time l p Hl). }
  split; [apply columns_nonempty|]. split.
  - intros p Hin. unfold isPolarSample. rewrite (Htime p Hin). reflexivity.
  - destruct (runLoop_samples (split_newline textData)) as (_ & _ & Hp).
    unfold parseSqmText, finish. cbn [polarData]. rewrite Hp.
    rewrite List.Forall_forall. intros p Hin. apply filter_In in Hin as [Hin _].
    specialize (Htime p Hin). destruct (time p) as [[|c t]|]; try discriminate Htime.
    exists c, t. reflexivity.
Qed.

Lemma X2_time_is_never_empty_witness :
  Forall (fun t => t <> []) (split_ws (trim lineHigh))
  /\ Forall (fun p => exists c t, time p = Some (c :: t))
            (polarData (parseSqmText (joinLines [lineHigh; lineAltitude30]))).
Proof.
  destruct (X2_time_is_never_empty (joinLines [lineHigh; lineAltitude30]) lineHigh)
    as (Hcols & _ & Hpolar).
  split; [apply Hcols; vm_compute; discriminate | exact Hpolar].
Defined.

End Columns.

Section Growth.

Lemma loopBody_extends (st : LoopState) (line : jsString) :
  sqmValuesForMedian st `prefix_of` sqmValuesForMedian (loopBody st line)
  /\ allSqmValuesSoFar st `prefix_of` allSqmValuesSoFar (loopBody st line)
  /\ polarDataSoFar st `prefix_of` polarDataSoFar (loopBody st line).
Proof.
  destruct (dataStarted st) eqn:Hst; [|destruct (isHeaderLine line) eqn:Hh].
  2: { rewrite loopBody_header by assumption. repeat split; reflexivity. }
  all: rewrite loopBody_reached by auto; rewrite processLine_readSample;
    destruct (readSample line) as [p|]; cbn;
    try destruct (isHighAltitude p); try destruct (isPolarSample p);
    repeat split; first [reflexivity | apply prefix_app_r; reflexivity].
Qed.

Lemma fold_loopBody_extends (lines : list jsString) (st : LoopState) :
  sqmValuesForMedian st `prefix_of` sqmValuesForMedian (fold_left loopBody lines st)
  /\ allSqmValuesSoFar st `prefix_of` allSqmValuesSoFar (fold_left loopBody lines st)
  /\ polarDataSoFar st `prefix_of` polarDataSoFar (fold_left loopBody lines st).
Proof.
  revert st. induction lines as [|line lines IH]; intros st; [repeat split; reflexivity|].
  cbn [fold_left]. destruct (IH (loopBody st line)) as (H1 & H2 & H3).
  destruct (loopBody_extends st line) as (G1 & G2 & G3).
  repeat split; etransitivity; eassumption.
Qed.

(** X3: the buffers only grow, at their end: what a file yields is a
    prefix of what the file followed by further lines yields.  Once data
    has started, the further lines add exactly their own samples. *)
Theorem X3_buffers_grow_by_appending (lines more : list jsString) :
  sqmValuesForMedian (runLoop lines) `prefix_of` sqmValuesForMedian (runLoop (lines ++ more))
  /\ allSqmValuesSoFar (runLoop lines) `prefix_of` allSqmValuesSoFar (runLoop (lines ++ more))
  /\ polarDataSoFar (runLoop lines) `prefix_of` polarDataSoFar (runLoop (lines ++ more))
  /\ (dataStarted (runLoop lines) = true ->
      allSqmValuesSoFar (runLoop (lines ++ more))
      = allSqmValuesSoFar (runLoop lines) ++ map mag (omap readSample more)
      /\ polarDataSoFar (runLoop (lines ++ more))
         = polarDataSoFar (runLoop lines)
           ++ List.filter isPolarSample (omap readSample more)
      /\ sqmValuesForMedian (runLoop (lines ++ more))
         = sqmValuesForMedian (runLoop lines)
           ++ map mag (List.filter isHighAltitude (omap readSample more))).
Proof.
  unfold runLoop. rewrite fold_left_app.
  destruct (fold_loopBody_extends more (fold_left loopBody lines initialState)) as (H1 & H2 & H3).
  split; [exact H1|]. split; [exact H2|]. split; [exact H3|].
  intros Hst. rewrite fold_started by exact Hst.
  destruct (pushSamples_fields (omap readSample more) (fold_left loopBody lines initialState))
    as (Hm & Ha & Hp).
  auto.
Qed.

Lemma X3_buffers_grow_by_appending_witness :
  allSqmValuesSoFar (runLoop ([lineHigh] ++ [lineComment; lineAltitude30]))
  = allSqmValuesSoFar (runLoop [lineHigh])
    ++ map mag (omap readSample [lineComment; lineAltitude30]).
Proof.
  destruct (X3_buffers_grow_by_appending [lineHigh] [lineComment; lineAltitude30])
    as (_ & _ & _ & Hmore).
  destruct Hmore as [Hall _]; [vm_compute; reflexivity | exact Hall].
Defined.

End Growth.

Section Cache.

Lemma getProperty_None (sqmCache : cache) (url : jsString) :
  getProperty sqmCache url = None
  <-> sqmCache !! url = None /\ url ∉ objectPrototypeNames.
Proof.
  unfold getProperty. destruct (sqmCache !! url) as [cached|].
  - split; [discriminate | intros [Hc _]; discriminate Hc].
  - destruct (bool_decide_reflect (url ∈ objectPrototypeNames)) as [Hin|Hout].
    + split; [discriminate | intros [_ Hout]; contradiction].
    + split; [auto | reflexivity].
Qed.

(** X4: the test [sqmCache[sqmFileUrl]] finds a property when the object
    has one of that name of its own, or when the name is one that every
    plain object inherits; only when it finds none is the file fetched.
    Then a failed fetch is answered with the empty result and is not
    cached, so a later call tries again; a successful one is cached, and
    from then on the answer for that URL no longer depends on the network.
    For an inherited name the inherited value is returned, the network is
    not asked and nothing is ever cached.  Entries of other URLs are never
    touched. *)
Theorem X4_cache_behaviour (url : jsString) (sqmCache : cache) (net later : FetchOutcome) :
  (getProperty sqmCache url = None
   <-> sqmCache !! url = None /\ url ∉ objectPrototypeNames)
  /\ (getProperty sqmCache url = None ->
      net = Rejected \/ (exists status body, net = Response false status body) ->
      fetchAndParseSqm url sqmCache net = (Data emptyData, sqmCache))
  /\ (getProperty sqmCache url = None ->
      forall status body, net = Response true status body ->
      fetchAndParseSqm url sqmCache net
        = (Data (parseSqmText body), <[url := parseSqmText body]> sqmCache)
      /\ fetchAndParseSqm url (fetchAndParseSqm url sqmCache net).2 later
         = fetchAndParseSqm url sqmCache net)
  /\ (forall cached, sqmCache !! url = Some cached ->
      fetchAndParseSqm url sqmCache net = (Data cached, sqmCache))
  /\ (sqmCache !! url = None -> url ∈ objectPrototypeNames ->
      fetchAndParseSqm url sqmCache net = (Inherited url, sqmCache)
      /\ fetchAndParseSqm url (fetchAndParseSqm url sqmCache net).2 later
         = (Inherited url, sqmCache))
  /\ (forall other, other <> url ->
      (fetchAndParseSqm url sqmCache net).2 !! other = sqmCache !! other)
  /\ sqmCache ⊆ (fetchAndParseSqm url sqmCache net).2.
Proof.
  split; [apply getProperty_None|].
  split; [|split; [|split; [|split; [|split]]]].
  - intros Hmiss Hfail. unfold fetchAndParseSqm. rewrite Hmiss.
    destruct Hfail as [-> | (status & body & ->)]; reflexivity.
  - intros Hmiss status body ->.
    assert (Hfirst : fetchAndParseSqm url sqmCache (Response true status body)
                     = (Data (parseSqmText body), <[url := parseSqmText body]> sqmCache))
      by (unfold fetchAndParseSqm; rewrite Hmiss; reflexivity).
    rewrite Hfirst. split; [reflexivity|]. cbn [snd].
    unfold fetchAndParseSqm, getProperty. rewrite lookup_insert_eq. reflexivity.
  - intros cached Hhit. unfold fetchAndParseSqm, getProperty. rewrite Hhit. reflexivity.
  - intros Hown Hin.
    assert (Hany : forall n, fetchAndParseSqm url sqmCache n = (Inherited url, sqmCache)).
    { intros n. unfold fetchAndParseSqm, getProperty.
      rewrite Hown, bool_decide_eq_true_2 by exact Hin. reflexivity. }
    rewrite (Hany net). split; [reflexivity | exact (Hany later)].
  - intros other Hne. unfold fetchAndParseSqm.
    destruct (getProperty sqmCache url) eqn:Hc; [reflexivity|].
    destruct net as [|[] status body]; cbn [tryBlock negb snd]; try reflexivity.
    apply lookup_insert_ne. congruence.
  - unfold fetchAndParseSqm.
    destruct (getProperty sqmCache url) eqn:Hc; [reflexivity|].
    destruct net as [|[] status body]; cbn [tryBlock negb snd]; try reflexivity.
    apply insert_subseteq. apply getProperty_None in Hc. exact (proj1 Hc).
Qed.

Lemma X4_cache_behaviour_witness :
  fetchAndParseSqm (str "a.txt") ∅ Rejected = (Data emptyData, ∅)
  /\ fetchAndParseSqm (str "a.txt")
       (fetchAndParseSqm (str "a.txt") ∅ (Response true 200 lineHigh)).2 Rejected
     = fetchAndParseSqm (str "a.txt") ∅ (Response true 200 lineHigh)
  /\ fetchAndParseSqm (str "constructor") ∅ (Response true 200 lineHigh)
     = (Inherited (str "constructor"), ∅).
Proof.
  destruct (X4_cache_behaviour (str "a.txt") ∅ Rejected Rejected) as (_ & Hfail & _).
  destruct (X4_cache_behaviour (str "a.txt") ∅ (Response true 200 lineHigh) Rejected)
    as (_ & _ & Hok & _).
  destruct (X4_cache_behaviour (str "constructor") ∅ (Response true 200 lineHigh) Rejected)
    as (_ & _ & _ & _ & Hinherited & _).
  split; [|split].
  - apply Hfail; [vm_compute; reflexivity | left; reflexivity].
  - refine (proj2 (Hok _ 200%N lineHigh eq_refl)). vm_compute. reflexivity.
  - refine (proj1 (Hinherited (lookup_empty _) _)).
    apply (bool_decide_unpack _). vm_compute. exact I.
Defined.

End Cache.

Section HistogramTotals.
Import HistogramChart.

Lemma countValue_bucketOf (bins : list nat) (val : number) :
  countValue bins val = match bucketOf val with
                        | Some i => increment i bins
                        | None => bins
                        end.
Proof.
  unfold countValue, bucketOf.
  repeat match goal with |- context [if ?b then _ else _] => destruct b end; reflexivity.
Qed.

Lemma not_le_lt (a b : number) :
  isNaN a = false -> isNaN b = false -> le b a = false -> lt a b = true.
Proof.
  rewrite !isNaN_false. intros Ha Hb.
  unfold le, lt. rewrite FloatAxioms.leb_spec, FloatAxioms.ltb_spec. unfold SFleb, SFltb.
  rewrite (SFcompare_antisym (Prim2SF a) (Prim2SF b)).
  destruct (SFcompare_defined _ _ Ha Hb) as [c ->].
  destruct c; cbn; congruence.
Qed.

(** Every number is counted, in one of the 32 bins. *)
Lemma bucketOf_number (val : number) :
  isNaN val = false -> exists i, bucketOf val = Some i /\ (i < 32)%nat.
Proof.
  intros Hnan. unfold bucketOf. rewrite Hnan, labels_length.
  destruct (lt val minRange) eqn:Hlt; [exists 0%nat; split; [reflexivity | lia]|].
  destruct (ge val maxRange) eqn:Hge; [exists 31%nat; split; [reflexivity | lia]|].
  assert (Hmin : isNaN minRange = false) by (vm_compute; reflexivity).
  assert (Hmax : isNaN maxRange = false) by (vm_compute; reflexivity).
  assert (Hge16 : ge val minRange = true) by (apply not_lt_le; assumption).
  assert (Hlt22 : lt val maxRange = true) by (apply not_le_lt; assumption).
  destruct (interior_floor val Hge16 Hlt22) as (n & Hn & Hfloor).
  pose proof (interiorIndexOk_range n Hn) as Hok. unfold interiorIndexOk in Hok.
  rewrite labels_length in Hok.
  apply andb_true_iff in Hok as [Hguard Hidx]. apply Z.eqb_eq in Hidx.
  rewrite Hfloor, Hguard, Hidx. exists (Z.to_nat (n + 1)). split; [reflexivity | lia].
Qed.

Lemma sum_list_increment (i : nat) (bins : list nat) :
  (i < length bins)%nat -> sum_list (increment i bins) = S (sum_list bins).
Proof.
  unfold increment. revert i. induction bins as [|b bins IH]; intros i Hi; cbn in Hi; [lia|].
  destruct i as [|i]; cbn; [reflexivity|].
  rewrite IH by lia. lia.
Qed.

Lemma countValue_length (bins : list nat) (val : number) :
  length (countValue bins val) = length bins.
Proof.
  rewrite countValue_bucketOf. destruct (bucketOf val); [apply length_alter | reflexivity].
Qed.

Lemma fold_countValue_totals (values : list number) (bins : list nat) :
  length bins = 32%nat ->
  length (fold_left countValue values bins) = 32%nat
  /\ sum_list (fold_left countValue values bins)
     = (sum_list bins + length (List.filter (fun v => negb (isNaN v)) values))%nat.
Proof.
  revert bins. induction values as [|v values IH]; intros bins Hlen; cbn [fold_left List.filter].
  - split; [exact Hlen | cbn; lia].
  - destruct (IH (countValue bins v)) as [IHl IHs]; [rewrite countValue_length; exact Hlen|].
    split; [exact IHl|]. rewrite IHs, countValue_bucketOf.
    destruct (isNaN v) eqn:Hnan; cbn [negb].
    + unfold bucketOf. rewrite Hnan. lia.
    + destruct (bucketOf_number v Hnan) as (i & -> & Hi).
      rewrite sum_list_increment by lia. cbn [length]. lia.
Qed.

(** X5: [createHistogram] draws nothing, and returns [null], when it is
    given no array or an empty one, or when the canvas is missing.
    Otherwise the chart has the 32 fixed labels and 32 bins, and the
    histogram loses nothing: the counts add up to the number of values
    that are not NaN; the fallback for a value the index test would reject
    is never needed. *)
Theorem X5_histogram_counts_every_number (canvasFound : bool) (sqmValues : option (list number)) :
  (createHistogram canvasFound sqmValues = None
   <-> sqmValues = None \/ sqmValues = Some [] \/ canvasFound = false)
  /\ (forall chartLabels bins,
      createHistogram canvasFound sqmValues = Some (chartLabels, bins) ->
      exists values,
        sqmValues = Some values /\ values <> [] /\ canvasFound = true
        /\ chartLabels = labels /\ bins = histogramBins values
        /\ length chartLabels = 32%nat /\ length bins = 32%nat
        /\ sum_list bins = length (List.filter (fun v => negb (isNaN v)) values))
  /\ (forall bins val, isNaN val = true -> countValue bins val = bins)
  /\ (forall bins val, isNaN val = false ->
      exists i, (i < 32)%nat /\ countValue bins val = increment i bins).
Proof.
  split; [|split; [|split]].
  - unfold createHistogram. destruct sqmValues as [[|v values]|]; cbn [length Nat.eqb].
    + split; auto.
    + destruct canvasFound; cbn [negb].
      * split; [discriminate|]. intros [H|[H|H]]; discriminate H.
      * split; auto.
    + split; auto.
  - intros chartLabels bins Hchart. unfold createHistogram in Hchart.
    destruct sqmValues as [[|v values]|]; cbn [length Nat.eqb] in Hchart;
      [discriminate Hchart| |discriminate Hchart].
    destruct canvasFound; cbn [negb] in Hchart; [|discriminate Hchart].
    injection Hchart as <- <-. exists (v :: values).
    destruct (fold_countValue_totals (v :: values) (replicate (length labels) 0%nat))
      as [Hl Hs].
    { rewrite length_replicate. exact labels_length. }
    split; [reflexivity|]. split; [discriminate|]. split; [reflexivity|].
    split; [reflexivity|]. split; [reflexivity|]. split; [exact labels_length|].
    split; [exact Hl|].
    unfold histogramBins. rewrite Hs, sum_list_replicate. lia.
  - intros bins val Hnan. unfold countValue. rewrite Hnan. reflexivity.
  - intros bins val Hnan. destruct (bucketOf_number val Hnan) as (i & Hb & Hi).
    exists i. split; [exact Hi|]. rewrite countValue_bucketOf, Hb. reflexivity.
Qed.

Lemma X5_histogram_counts_every_number_witness :
  createHistogram true (Some []) = None
  /\ exists bins,
       createHistogram true
         (Some [15.5%float; nan%float; 16%float; 21.95%float; 22%float; infinity%float])
       = Some (labels, bins)
       /\ length bins = 32%nat /\ sum_list bins = 5%nat.
Proof.
  destruct (X5_histogram_counts_every_number true (Some [])) as (Hnone & _).
  destruct (X5_histogram_counts_every_number true
              (Some [15.5%float; nan%float; 16%float; 21.95%float; 22%float; infinity%float]))
    as (_ & Hsome & _).
  split; [apply Hnone; right; left; reflexivity|].
  eexists. split; [reflexivity|].
  destruct (Hsome _ _ eq_refl) as (values & Hv & _ & _ & _ & _ & _ & Hlen & Hsum).
  injection Hv as <-. split; [exact Hlen | exact Hsum].
Defined.

Lemma countValue_commute (bins : list nat) (v w : number) :
  countValue (countValue bins v) w = countValue (countValue bins w) v.
Proof.
  rewrite !countValue_bucketOf.
  destruct (bucketOf v) as [i|], (bucketOf w) as [j|]; try reflexivity.
  unfold increment. destruct (decide (i = j)) as [->|Hne]; [reflexivity|].
  apply list_alter_alter_ne. congruence.
Qed.

Lemma fold_countValue_perm (vs ws : list number) :
  Permutation vs ws -> forall bins, fold_left countValue vs bins = fold_left countValue ws bins.
Proof.
  induction 1 as [|v vs ws _ IH|v w vs|vs ws us _ IH1 _ IH2]; intros bins; cbn [fold_left].
  - reflexivity.
  - apply IH.
  - rewrite countValue_commute. reflexivity.
  - rewrite IH1. apply IH2.
Qed.

(** X6: the bins do not depend on the order of the values. *)
Theorem X6_histogram_ignores_order (vs ws : list number) :
  Permutation vs ws -> histogramBins vs = histogramBins ws.
Proof. intros H. unfold histogramBins. apply fold_countValue_perm. exact H. Qed.

Lemma X6_histogram_ignores_order_witness :
  histogramBins [20.5%float; 16%float; 23%float] = histogramBins [23%float; 20.5%float; 16%float].
Proof.
  apply X6_histogram_ignores_order.
  apply perm_trans with [20.5%float; 23%float; 16%float]; [apply perm_skip, perm_swap|].
  apply perm_swap.
Defined.

End HistogramTotals.

Section OrderKey.

Lemma SFcompare_key (x y : spec_float) :
  x <> S754_nan -> y <> S754_nan ->
  (SFcompare x y = Some Lt <-> keyLt (orderKey x) (orderKey y))
  /\ (SFcompare x y = Some Eq <-> orderKey x = orderKey y)
  /\ (SFcompare x y = Some Gt <-> keyLt (orderKey y) (orderKey x)).
Proof.
  intros Hx Hy.
  destruct x as [sx|sx| |sx mx ex], y as [sy|sy| |sy my ey]; try congruence;
    cbn [SFcompare orderKey keyLt];
    try (destruct sx; try destruct sy; cbn [keyLt];
         repeat split; intros H; first [discriminate H | reflexivity | lia | congruence]).
  all: try (destruct sy; cbn [keyLt];
         repeat split; intros H; first [discriminate H | reflexivity | lia | congruence]).
  rewrite !compare_cont_Z.
  destruct sx, sy; cbn [keyLt];
    try (repeat split; intros H; first [discriminate H | reflexivity | lia | congruence]).
  - destruct (Z.compare_spec ex ey) as [He|He|He];
      [destruct (Z.compare_spec (Z.pos mx) (Z.pos my)) as [Hm|Hm|Hm]| |];
      cbn [CompOpp]; repeat split; intros HH;
      first [discriminate HH | reflexivity | lia | (injection HH; lia) | (f_equal; [f_equal|]; lia)].
  - destruct (Z.compare_spec ex ey) as [He|He|He];
      [destruct (Z.compare_spec (Z.pos mx) (Z.pos my)) as [Hm|Hm|Hm]| |];
      repeat split; intros HH;
      first [discriminate HH | reflexivity | lia | (injection HH; lia) | (f_equal; [f_equal|]; lia)].
Qed.

Lemma keyLt_trans (k1 k2 k3 : Z * Z * Z) : keyLt k1 k2 -> keyLt k2 k3 -> keyLt k1 k3.
Proof. destruct k1 as [[? ?] ?], k2 as [[? ?] ?], k3 as [[? ?] ?]. cbn. lia. Qed.

Lemma keyLt_irrefl (k : Z * Z * Z) : ~ keyLt k k.
Proof. destruct k as [[? ?] ?]. cbn. lia. Qed.

Lemma lt_key (a b : number) :
  lt a b = true <-> isNaN a = false /\ isNaN b = false
                    /\ keyLt (orderKey (Prim2SF a)) (orderKey (Prim2SF b)).
Proof.
  split.
  - intros H. destruct (lt_not_NaN a b H) as [Ha Hb]. split; [exact Ha|]. split; [exact Hb|].
    apply isNaN_false in Ha, Hb. apply (SFcompare_key _ _ Ha Hb).
    unfold lt in H. rewrite FloatAxioms.ltb_spec in H. unfold SFltb in H.
    destruct (SFcompare (Prim2SF a) (Prim2SF b)) as [[| |]|]; congruence.
  - intros (Ha & Hb & Hk). apply isNaN_false in Ha, Hb.
    apply (SFcompare_key _ _ Ha Hb) in Hk.
    unfold lt. rewrite FloatAxioms.ltb_spec. unfold SFltb. rewrite Hk. reflexivity.
Qed.

Lemma le_key (a b : number) :
  le a b = true <-> isNaN a = false /\ isNaN b = false
                    /\ (keyLt (orderKey (Prim2SF a)) (orderKey (Prim2SF b))
                        \/ orderKey (Prim2SF a) = orderKey (Prim2SF b)).
Proof.
  split.
  - intros H. destruct (le_not_NaN a b H) as [Ha Hb]. split; [exact Ha|]. split; [exact Hb|].
    apply isNaN_false in Ha, Hb. destruct (SFcompare_key _ _ Ha Hb) as (HLt & HEq & _).
    unfold le in H. rewrite FloatAxioms.leb_spec in H. unfold SFleb in H.
    destruct (SFcompare (Prim2SF a) (Prim2SF b)) as [[| |]|]; try congruence.
    + right. apply HEq. reflexivity.
    + left. apply HLt. reflexivity.
  - intros (Ha & Hb & Hk). apply isNaN_false in Ha, Hb.
    destruct (SFcompare_key _ _ Ha Hb) as (HLt & HEq & _).
    unfold le. rewrite FloatAxioms.leb_spec. unfold SFleb.
    destruct Hk as [Hk|Hk]; [apply HLt in Hk | apply HEq in Hk]; rewrite Hk; reflexivity.
Qed.

Lemma number_lt_trans (a b c : number) : lt a b = true -> lt b c = true -> lt a c = true.
Proof.
  rewrite !lt_key. intros (Ha & Hb & H1) (_ & Hc & H2).
  repeat split; try assumption. eapply keyLt_trans; eassumption.
Qed.

Lemma number_le_trans (a b c : number) : le a b = true -> le b c = true -> le a c = true.
Proof.
  rewrite !le_key. intros (Ha & Hb & H1) (_ & Hc & H2).
  repeat split; try assumption.
  destruct H1 as [H1|H1], H2 as [H2|H2].
  - left. eapply keyLt_trans; eassumption.
  - left. rewrite <- H2. exact H1.
  - left. rewrite H1. exact H2.
  - right. congruence.
Qed.

Lemma number_le_lt_trans (a b c : number) : le a b = true -> lt b c = true -> lt a c = true.
Proof.
  rewrite le_key, !lt_key. intros (Ha & Hb & H1) (_ & Hc & H2).
  repeat split; try assumption.
  destruct H1 as [H1|H1]; [eapply keyLt_trans; eassumption | rewrite H1; exact H2].
Qed.

Lemma number_lt_le_trans (a b c : number) : lt a b = true -> le b c = true -> lt a c = true.
Proof.
  rewrite le_key, !lt_key. intros (Ha & Hb & H1) (_ & Hc & H2).
  repeat split; try assumption.
  destruct H2 as [H2|H2]; [eapply keyLt_trans; eassumption | rewrite <- H2; exact H1].
Qed.

End OrderKey.

Lemma ge_mono (v t' t : number) : le t' t = true -> ge v t = true -> ge v t' = true.
Proof. unfold ge. intros H1 H2. exact (number_le_trans t' t v H1 H2). Qed.

Lemma lt_negb_ge (v t : number) :
  isNaN v = false -> isNaN t = false -> lt v t = negb (ge v t).
Proof.
  intros Hv Ht. change (ge v t) with (le t v). destruct (le t v) eqn:H.
  - apply le_not_lt in H. exact H.
  - apply (not_le_lt v t Hv Ht H).
Qed.

Lemma ge_NaN (v t : number) : isNaN v = true -> ge v t = false.
Proof.
  intros Hv. unfold ge. destruct (t <=? v)%float eqn:H; [|reflexivity].
  apply le_not_NaN in H. destruct H as [_ H]. congruence.
Qed.

Lemma lt_NaN (v t : number) : isNaN v = true -> lt v t = false.
Proof.
  intros Hv. destruct (lt v t) eqn:H; [|reflexivity].
  apply lt_not_NaN in H. destruct H as [H _]. congruence.
Qed.

Ltac ge_down v t t' :=
  match goal with
  | H : ge v t = true |- _ =>
      assert (ge v t' = true) by (exact (ge_mono v t' t eq_refl H))
  | _ => idtac
  end.

Ltac ge_chain v :=
  ge_down v 21.76%float 21.6%float; ge_down v 21.6%float 21.3%float;
  ge_down v 21.3%float 20.8%float; ge_down v 20.8%float 20.3%float;
  ge_down v 20.3%float 19.25%float; ge_down v 19.25%float 18.5%float;
  ge_down v 18.5%float 18.0%float.

Ltac ge_rewrite v :=
  repeat match goal with
  | H : ge v ?t = true |- _ => rewrite ?H in *; clear H
  end.

Ltac ge_cases v :=
  destruct (ge v 21.76) eqn:?H; [|
  destruct (ge v 21.6) eqn:?H; [|
  destruct (ge v 21.3) eqn:?H; [|
  destruct (ge v 20.8) eqn:?H; [|
  destruct (ge v 20.3) eqn:?H; [|
  destruct (ge v 19.25) eqn:?H; [|
  destruct (ge v 18.5) eqn:?H; [|
  destruct (ge v 18.0) eqn:?H ]]]]]]].

Ltac class_finish :=
  intros;
  repeat match goal with H : _ /\ _ |- _ => destruct H end;
  first
    [ reflexivity
    | split; reflexivity
    | apply list_elem_of_In; vm_compute; tauto
    | match goal with
      | HH : _ = _ |- _ => vm_compute in HH; discriminate HH
      end ].

(** X7: the fill colour of a map marker is grey exactly when the median
    read from the item is NaN; otherwise it names the interval between two
    neighbouring thresholds (21.76, 21.6, 21.3, 20.8, 20.3, 19.25, 18.5,
    18.0) in which the median lies, the lower bound included and the upper
    one excluded.  Every colour a marker can get is a colour of the legend,
    and the light outline is drawn exactly for medians of at least 21.76. *)
Theorem X7_marker_colour_classes (v : number) :
  (markerColor v = str "#808080" <-> isNaN v = true)
  /\ (markerColor v = str "#000000" <-> ge v 21.76 = true)
  /\ (markerColor v = str "#4D4D4D" <-> ge v 21.6 = true /\ lt v 21.76 = true)
  /\ (markerColor v = str "#1F3A75" <-> ge v 21.3 = true /\ lt v 21.6 = true)
  /\ (markerColor v = str "#004EB3" <-> ge v 20.8 = true /\ lt v 21.3 = true)
  /\ (markerColor v = str "#2E8A00" <-> ge v 20.3 = true /\ lt v 20.8 = true)
  /\ (markerColor v = str "#DADA00" <-> ge v 19.25 = true /\ lt v 20.3 = true)
  /\ (markerColor v = str "#FF5600" <-> ge v 18.5 = true /\ lt v 19.25 = true)
  /\ (markerColor v = str "#DF73FF" <-> ge v 18.0 = true /\ lt v 18.5 = true)
  /\ (markerColor v = str "#E5C9FF" <-> lt v 18.0 = true)
  /\ markerColor v ∈ map color legendData
  /\ (markerOutline (markerColor v) = str "#CCCCCC" <-> ge v 21.76 = true).
Proof.
  unfold markerColor. destruct (isNaN v) eqn:Hv.
  - rewrite !(ge_NaN v _ Hv), !(lt_NaN v _ Hv). repeat split; class_finish.
  - repeat match goal with
           | |- context [lt v ?t] => rewrite (lt_negb_ge v t Hv eq_refl)
           end.
    ge_cases v; ge_chain v; ge_rewrite v; cbn [negb]; repeat split; class_finish.
Qed.

Lemma X7_marker_colour_classes_witness :
  markerColor 21.75%float = str "#4D4D4D" /\ markerColor nan%float = str "#808080".
Proof.
  destruct (X7_marker_colour_classes 21.75%float) as (_ & _ & H2 & _).
  destruct (X7_marker_colour_classes nan%float) as (Hnan & _).
  split; [apply H2; split; reflexivity | apply Hnan; reflexivity].
Defined.

Ltac ge_clash a b :=
  match goal with
  | Hab : le a b = true, H1 : ge a ?t = true, H2 : ge b ?t = false |- _ =>
      exfalso; pose proof (number_le_trans t a b H1 Hab) as Hc;
      unfold ge in H2; unfold le in Hc; congruence
  end.

(** X8: the classes are monotone: of two medians the larger one (the
    darker sky) gets a colour that stands at the same place of the legend
    or higher up. *)
Theorem X8_marker_class_is_monotone (a b : number) :
  le a b = true ->
  (legendIndex (markerColor b) legendData <= legendIndex (markerColor a) legendData)%nat.
Proof.
  intros Hab. destruct (le_not_NaN a b Hab) as [Ha Hb].
  unfold markerColor. rewrite Ha, Hb.
  ge_cases a; ge_cases b; first [ge_clash a b | vm_compute; lia].
Qed.

Lemma X8_marker_class_is_monotone_witness :
  (legendIndex (markerColor 21.9%float) legendData <= legendIndex (markerColor 18.2%float) legendData)%nat.
Proof.
  apply X8_marker_class_is_monotone. reflexivity.
Defined.


Lemma number_le_refl (a : number) : isNaN a = false -> le a a = true.
Proof. intros Ha. apply le_key. repeat split; try assumption. right. reflexivity. Qed.

Lemma number_le_transitive : Transitive (fun a b : number => le a b = true).
Proof. intros a b c. apply number_le_trans. Qed.

Lemma filter_length_perm {A : Type} (f : A -> bool) (l l' : list A) :
  Permutation l l' -> length (List.filter f l) = length (List.filter f l').
Proof.
  induction 1 as [|x l l' _ IH|x y l|l l' l'' _ IH1 _ IH2]; cbn [List.filter].
  - reflexivity.
  - destruct (f x); cbn [length]; congruence.
  - destruct (f x), (f y); reflexivity.
  - congruence.
Qed.

Lemma filter_length_all {A : Type} (f : A -> bool) (l : list A) :
  Forall (fun x => f x = true) l -> length (List.filter f l) = length l.
Proof.
  induction 1 as [|x l Hx _ IH]; cbn [List.filter]; [reflexivity|].
  rewrite Hx. cbn [length]. congruence.
Qed.

Lemma StronglySorted_lookup {A : Type} (R : A -> A -> Prop) (l : list A) (i j : nat) (x y : A) :
  StronglySorted R l -> l !! i = Some x -> l !! j = Some y -> (i < j)%nat -> R x y.
Proof.
  intros Hs. revert i j. induction Hs as [|z l Hs IH Hz]; intros i j Hi Hj Hij;
    [discriminate Hi|].
  destruct j as [|j]; [lia|]. cbn in Hj. destruct i as [|i].
  - injection Hi as ->. exact (Forall_lookup_1 _ _ _ _ Hz Hj).
  - cbn in Hi. apply (IH i j Hi Hj). lia.
Qed.

(** In an ascending sequence the element at place [k] has the first [k + 1]
    elements at or below it and the rest at or above it. *)
Lemma ascending_rank (s : list number) (k : nat) (x : number) :
  ascending s -> Forall (fun y => isNaN y = false) s -> s !! k = Some x ->
  (k + 1 <= length (List.filter (fun y => le y x) s))%nat
  /\ (length s - k <= length (List.filter (fun y => le x y) s))%nat.
Proof.
  intros Hs Hn Hk.
  apply Sorted_StronglySorted in Hs; [|exact number_le_transitive].
  assert (Hx : isNaN x = false).
  { exact (Forall_lookup_1 _ _ _ _ Hn Hk). }
  revert k Hk. induction Hs as [|y s Hs IH Hy]; intros k Hk; [discriminate Hk|].
  apply Forall_cons in Hn. destruct Hn as [Hny Hn]. specialize (IH Hn).
  destruct k as [|k]; cbn [List.filter length].
  - injection Hk as ->. rewrite (number_le_refl x Hx). cbn [length]. split; [lia|].
    rewrite (filter_length_all (fun y => le x y) s Hy). lia.
  - cbn in Hk. destruct (IH k Hk) as [IH1 IH2].
    assert (Hyx : le y x = true).
    { exact (Forall_lookup_1 _ _ _ _ Hy Hk). }
    rewrite Hyx. cbn [length]. split; [lia|].
    destruct (le x y); cbn [length]; lia.
Qed.

(** X9: the median splits the samples in halves.  For a non-empty array
    without NaN and with an odd count, [calculateMedian] returns one of its
    elements, and more than half of the elements are at or below it and
    more than half at or above it.  For an even count it returns the mean
    of two elements [lo <= hi], with at least half of the elements at or
    below [lo] and at least half at or above [hi]. *)
Theorem X9_median_splits_in_halves (numbers : list number) :
  numbers <> [] ->
  Forall (fun y => isNaN y = false) numbers ->
  let n := length numbers in
  let below x := length (List.filter (fun y => le y x) numbers) in
  let above x := length (List.filter (fun y => le x y) numbers) in
  (n mod 2 = 1 ->
     exists m, calculateMedian numbers = Some m /\ m ∈ numbers
               /\ n < 2 * below m /\ n < 2 * above m)%nat
  /\ (n mod 2 = 0 ->
     exists lo hi, calculateMedian numbers = Some ((lo + hi) / 2)%float
               /\ lo ∈ numbers /\ hi ∈ numbers /\ le lo hi = true
               /\ n <= 2 * below lo /\ n <= 2 * above hi)%nat.
Proof.
  intros Hne Hn n below above.
  pose proof (sort_perm compareNumbers numbers) as Hp.
  pose proof (sort_length compareNumbers numbers) as Hl.
  pose proof (sort_ascending numbers Hn) as Hs.
  assert (Hns : Forall (fun y => isNaN y = false) (sort compareNumbers numbers)).
  { eapply Permutation_Forall; [exact Hp | exact Hn]. }
  assert (Hpos : (0 < n)%nat). { subst n. destruct numbers; [congruence | cbn; lia]. }
  unfold calculateMedian. fold n.
  destruct (n =? 0)%nat eqn:H0; [apply Nat.eqb_eq in H0; lia|].
  rewrite Hl. fold n. split; intros Hpar; rewrite Hpar; cbn [Nat.eqb].
  - assert (Hlt : (n / 2 < length (sort compareNumbers numbers))%nat).
    { rewrite Hl. fold n. apply Nat.div_lt; lia. }
    destruct (lookup_lt_is_Some_2 _ _ Hlt) as [m Hm].
    exists m. unfold at_index. rewrite Hm. cbn [default]. split; [reflexivity|].
    split.
    { rewrite Hp. eapply list_elem_of_lookup_2. exact Hm. }
    destruct (ascending_rank _ _ _ Hs Hns Hm) as [H1 H2].
    subst below above. cbn beta.
    rewrite (filter_length_perm (fun y => le y m) _ _ Hp).
    rewrite (filter_length_perm (fun y => le m y) _ _ Hp).
    rewrite Hl in H2. fold n in H2.
    pose proof (Nat.div_mod_eq n 2) as Hd. lia.
  - pose proof (Nat.div_mod_eq n 2) as Hd.
    assert (Hlt : (n / 2 < length (sort compareNumbers numbers))%nat).
    { rewrite Hl. fold n. lia. }
    assert (Hlt' : (n / 2 - 1 < length (sort compareNumbers numbers))%nat) by lia.
    destruct (lookup_lt_is_Some_2 _ _ Hlt) as [hi Hhi].
    destruct (lookup_lt_is_Some_2 _ _ Hlt') as [lo Hlo].
    exists lo, hi. unfold at_index. rewrite Hhi, Hlo. cbn [default]. split; [reflexivity|].
    split. { rewrite Hp. eapply list_elem_of_lookup_2. exact Hlo. }
    split. { rewrite Hp. eapply list_elem_of_lookup_2. exact Hhi. }
    destruct (ascending_rank _ _ _ Hs Hns Hlo) as [H1 _].
    destruct (ascending_rank _ _ _ Hs Hns Hhi) as [H3 H2].
    split.
    { apply Sorted_StronglySorted in Hs; [|exact number_le_transitive].
      apply (StronglySorted_lookup _ _ (n / 2 - 1)%nat (n / 2)%nat lo hi Hs Hlo Hhi). lia. }
    subst below above. cbn beta.
    rewrite (filter_length_perm (fun y => le y lo) _ _ Hp).
    rewrite (filter_length_perm (fun y => le hi y) _ _ Hp).
    rewrite Hl in H2. fold n in H2. lia.
Qed.

Lemma X9_median_splits_in_halves_witness :
  exists m, calculateMedian [21%float; 19%float; 20%float] = Some m
            /\ m ∈ [21%float; 19%float; 20%float].
Proof.
  destruct (X9_median_splits_in_halves [21%float; 19%float; 20%float]) as [Hodd _].
  - discriminate.
  - repeat constructor.
  - destruct (Hodd eq_refl) as (m & Hm & Hin & _). exists m. split; assumption.
Defined.
Import JSArray.

(** ** Integers as numbers *)

Lemma digits_shifted (p q : positive) (k : Z) :
  0 <= k -> Z.pos q = Z.pos p * 2 ^ k ->
  Z.pos (digits2_pos q) = Z.pos (digits2_pos p) + k.
Proof.
  intros Hk Hq. pose proof (digits_bounds p) as [Hlo Hhi].
  assert (H2k : 0 < 2 ^ k) by (apply Z.pow_pos_nonneg; lia).
  assert (Hle : Z.pos (digits2_pos q) <= Z.pos (digits2_pos p) + k).
  { apply digits_le. rewrite Hq, Z.pow_add_r by lia. nia. }
  assert (Hge : Z.pos (digits2_pos p) + k - 1 < Z.pos (digits2_pos q)).
  { apply digits_ge; [lia|]. rewrite Hq.
    replace (Z.pos (digits2_pos p) + k - 1) with (Z.pos (digits2_pos p) - 1 + k) by lia.
    rewrite Z.pow_add_r by lia. nia. }
  lia.
Qed.

(** A positive integer below [2 ^ 53] is a number, exactly. *)
Lemma of_Z_pos_repr (p : positive) :
  Z.pos (digits2_pos p) <= 53 ->
  exists m, Prim2SF (of_Z (Z.pos p)) = S754_finite false m (Z.pos (digits2_pos p) - 53)
            /\ Z.pos m = Z.pos p * 2 ^ (53 - Z.pos (digits2_pos p)).
Proof.
  intros Hd. unfold of_Z. cbn [binary_normalize]. unfold binary_round.
  set (d := Z.pos (digits2_pos p)) in *.
  assert (Hfexp : fexp prec emax (d + 0) = d - 53).
  { unfold fexp, SpecFloat.emin, prec, emax. lia. }
  rewrite Hfexp.
  destruct (shl_align_value p 0 (d - 53) ltac:(lia)) as [Hm He].
  destruct (shl_align p 0 (d - 53)) as [mz ez]. cbn [fst snd] in Hm, He. subst ez.
  replace (0 - (d - 53)) with (53 - d) in Hm by lia.
  assert (Hdz : Z.pos (digits2_pos mz) = 53).
  { rewrite (digits_shifted p mz (53 - d)) by (try exact Hm; lia). fold d. lia. }
  assert (Hshift : shift_of mz (d - 53) = 0).
  { unfold shift_of. rewrite Hdz. unfold fexp, SpecFloat.emin, prec, emax. lia. }
  rewrite (binary_round_aux_exact false mz (d - 53) Hshift)
    by (unfold prec, emax; lia).
  exists mz. split; [|exact Hm].
  apply FloatAxioms.Prim2SF_SF2Prim.
  unfold valid_binary, bounded, canonical_mantissa. rewrite Hdz.
  apply andb_true_intro. split.
  - apply Z.eqb_eq. unfold fexp, SpecFloat.emin, prec, emax. lia.
  - apply Z.leb_le. unfold prec, emax. lia.
Qed.

Lemma of_Z_0 : Prim2SF (of_Z 0) = S754_zero false.
Proof. vm_compute. reflexivity. Qed.

Lemma digits_small (p : positive) : Z.pos p < 2 ^ 53 -> Z.pos (digits2_pos p) <= 53.
Proof. apply digits_le. Qed.

Lemma isNaN_of_Z (z : Z) : 0 <= z < 2 ^ 53 -> isNaN (of_Z z) = false.
Proof.
  intros Hz. apply isNaN_false. destruct z as [|p|p]; [rewrite of_Z_0; discriminate| |lia].
  destruct (of_Z_pos_repr p (digits_small p ltac:(lia))) as (m & Hm & _).
  rewrite Hm. discriminate.
Qed.

Lemma toInteger_of_Z (z : Z) : 0 <= z < 2 ^ 53 -> toInteger (of_Z z) = z.
Proof.
  intros Hz. unfold toInteger. destruct z as [|p|p]; [rewrite of_Z_0; reflexivity| |lia].
  destruct (of_Z_pos_repr p (digits_small p ltac:(lia))) as (m & Hm & Hv).
  rewrite Hm. cbn [significand].
  pose proof (digits_small p ltac:(lia)) as Hd.
  destruct (0 <=? Z.pos (digits2_pos p) - 53) eqn:He.
  - apply Z.leb_le in He.
    assert (Hd53 : Z.pos (digits2_pos p) = 53) by lia.
    rewrite Hd53 in Hv |- *. cbn in Hv |- *. lia.
  - apply Z.leb_gt in He. rewrite Hv.
    replace (- (Z.pos (digits2_pos p) - 53)) with (53 - Z.pos (digits2_pos p)) by lia.
    assert (H2 : 0 < 2 ^ (53 - Z.pos (digits2_pos p))) by (apply Z.pow_pos_nonneg; lia).
    rewrite Z.quot_div_nonneg by lia. apply Z.div_mul. lia.
Qed.

Lemma toIntegerOrInfinity_of_Z (z : Z) :
  0 <= z < 2 ^ 53 -> toIntegerOrInfinity (of_Z z) = Integer z.
Proof.
  intros Hz. unfold toIntegerOrInfinity.
  pose proof (toInteger_of_Z z Hz) as Ht.
  destruct z as [|p|p]; [rewrite of_Z_0; reflexivity| |lia].
  destruct (of_Z_pos_repr p (digits_small p ltac:(lia))) as (m & Hm & _).
  rewrite Hm. rewrite Ht. reflexivity.
Qed.

(** The order of the numbers agrees with the order of the integers. *)
Lemma orderKey_of_Z (a b : Z) :
  0 <= a < 2 ^ 53 -> 0 <= b < 2 ^ 53 ->
  keyLt (orderKey (Prim2SF (of_Z a))) (orderKey (Prim2SF (of_Z b))) <-> a < b.
Proof.
  intros Ha Hb.
  destruct a as [|p|p]; [|destruct b as [|q|q]|lia]; [destruct b as [|q|q]| | |lia]; try lia.
  - rewrite of_Z_0. cbn. lia.
  - rewrite of_Z_0.
    destruct (of_Z_pos_repr q (digits_small q ltac:(lia))) as (m & Hm & _).
    rewrite Hm. cbn. lia.
  - rewrite of_Z_0.
    destruct (of_Z_pos_repr p (digits_small p ltac:(lia))) as (m & Hm & _).
    rewrite Hm. cbn. lia.
  - pose proof (digits_small p ltac:(lia)) as Hdp.
    pose proof (digits_small q ltac:(lia)) as Hdq.
    destruct (of_Z_pos_repr p Hdp) as (m & Hm & Hmv).
    destruct (of_Z_pos_repr q Hdq) as (n & Hn & Hnv).
    rewrite Hm, Hn. cbn [orderKey keyLt].
    pose proof (digits_bounds p) as [Hp1 Hp2]. pose proof (digits_bounds q) as [Hq1 Hq2].
    set (dp := Z.pos (digits2_pos p)) in *. set (dq := Z.pos (digits2_pos q)) in *.
    assert (Hdp1 : 1 <= dp) by (subst dp; lia).
    assert (Hdq1 : 1 <= dq) by (subst dq; lia).
    split.
    + intros [H|[_ [H|[H1 H2]]]]; [lia| |].
      * assert (2 ^ dp <= 2 ^ (dq - 1)) by (apply Z.pow_le_mono_r; lia). lia.
      * assert (Heq : dp = dq) by lia. rewrite Heq in Hmv.
        assert (0 < 2 ^ (53 - dq)) by (apply Z.pow_pos_nonneg; lia).
        rewrite Hmv, Hnv in H2. nia.
    + intros Hlt. right. split; [reflexivity|].
      destruct (Z.lt_trichotomy dp dq) as [H|[H|H]].
      * left. lia.
      * right. split; [lia|]. rewrite Hmv, Hnv, H.
        assert (0 < 2 ^ (53 - dq)) by (apply Z.pow_pos_nonneg; lia). nia.
      * exfalso. assert (2 ^ dq <= 2 ^ (dp - 1)) by (apply Z.pow_le_mono_r; lia). lia.
Qed.

Lemma lt_of_Z (a b : Z) :
  0 <= a < 2 ^ 53 -> 0 <= b < 2 ^ 53 -> lt (of_Z a) (of_Z b) = (a <? b).
Proof.
  intros Ha Hb. apply Bool.eq_iff_eq_true. rewrite lt_key, Z.ltb_lt.
  rewrite (isNaN_of_Z a Ha), (isNaN_of_Z b Hb), (orderKey_of_Z a b Ha Hb). tauto.
Qed.

Lemma Math_min_of_Z (a b : Z) :
  0 <= a < 2 ^ 53 -> 0 <= b < 2 ^ 53 -> Math_min (of_Z a) (of_Z b) = of_Z (Z.min a b).
Proof.
  intros Ha Hb. unfold Math_min.
  rewrite (isNaN_of_Z a Ha), (isNaN_of_Z b Hb). cbn [orb].
  assert (Hnz : isNegativeZero (of_Z b) = false).
  { unfold isNegativeZero. destruct b as [|q|q]; [rewrite of_Z_0; reflexivity| |lia].
    destruct (of_Z_pos_repr q (digits_small q ltac:(lia))) as (m & Hm & _).
    rewrite Hm. reflexivity. }
  rewrite Hnz. cbn [andb]. rewrite (lt_of_Z b a Hb Ha).
  destruct (Z.ltb_spec b a); f_equal; lia.
Qed.

Section LoadAndProcessData.
Import PanoData.

(** ** [loadAndProcessData]: which items are processed, and how *)

Lemma relativeIndex_le (len : nat) (r : integerOrInfinity) : (relativeIndex len r <= len)%nat.
Proof. destruct r as [|z|]; cbn [relativeIndex]; [lia| |lia]. destruct (z <? 0) eqn:Hz; lia. Qed.

Lemma slice_from_start {A : Type} (a : list A) (e : number) :
  slice a 0%float (Some e) = take (relativeIndex (length a) (toIntegerOrInfinity e)) a.
Proof.
  unfold slice.
  assert (H0 : relativeIndex (length a) (toIntegerOrInfinity 0%float) = 0%nat).
  { change (toIntegerOrInfinity 0%float) with (Integer 0). cbn [relativeIndex Z.ltb Z.compare]. lia. }
  rewrite H0, drop_0. f_equal. lia.
Qed.

Lemma slice_to_end {A : Type} (a : list A) (s : number) :
  slice a s None = drop (relativeIndex (length a) (toIntegerOrInfinity s)) a.
Proof.
  unfold slice. apply take_ge. rewrite length_drop. lia.
Qed.

Lemma processCalls_split (panoManifest : list PanoItem) (MAX : number) :
  let k := relativeIndex (length panoManifest)
             (toIntegerOrInfinity (featuredItemsCount panoManifest MAX)) in
  processCalls panoManifest MAX
  = map (fun item => (item, true)) (take k panoManifest)
    ++ map (fun item => (item, false)) (drop k panoManifest).
Proof. intros k. unfold processCalls. rewrite slice_from_start, slice_to_end. reflexivity. Qed.

Lemma toInteger_opp_of_Z (z : Z) : 0 < z < 2 ^ 53 -> toInteger (- of_Z z)%float = - z.
Proof.
  intros Hz. pose proof (toInteger_of_Z z ltac:(lia)) as Hpos. unfold toInteger in *.
  rewrite FloatAxioms.opp_spec. destruct z as [|p|p]; try lia.
  destruct (of_Z_pos_repr p (digits_small p ltac:(lia))) as (m & Hm & _).
  rewrite Hm in *. cbn [SFopp negb significand] in *.
  change (Z.neg m) with (- Z.pos m).
  destruct (0 <=? Z.pos (digits2_pos p) - 53) eqn:He.
  - rewrite Z.mul_opp_l, Hpos. reflexivity.
  - apply Z.leb_gt in He. rewrite Z.quot_opp_l; [rewrite Hpos; reflexivity|].
    apply Z.pow_nonzero; lia.
Qed.

Lemma Math_min_opp_of_Z (a z : Z) :
  0 <= a < 2 ^ 53 -> 0 < z < 2 ^ 53 -> Math_min (of_Z a) (- of_Z z)%float = (- of_Z z)%float.
Proof.
  intros Ha Hz. unfold Math_min.
  destruct z as [|p|p]; try lia.
  destruct (of_Z_pos_repr p (digits_small p ltac:(lia))) as (m & Hm & _).
  assert (Hopp : Prim2SF (- of_Z (Z.pos p))%float = S754_finite true m (Z.pos (digits2_pos p) - 53)).
  { rewrite FloatAxioms.opp_spec, Hm. reflexivity. }
  assert (Hn : isNaN (- of_Z (Z.pos p))%float = false).
  { apply isNaN_false. rewrite Hopp. discriminate. }
  rewrite (isNaN_of_Z a Ha), Hn. cbn [orb].
  unfold isNegativeZero at 1. rewrite Hopp. cbn [andb].
  assert (Hlt : lt (- of_Z (Z.pos p))%float (of_Z a) = true).
  { apply lt_key. split; [exact Hn|]. split; [exact (isNaN_of_Z a Ha)|].
    rewrite Hopp. destruct a as [|q|q]; [rewrite of_Z_0; cbn; lia| |lia].
    destruct (of_Z_pos_repr q (digits_small q ltac:(lia))) as (n & Hq & _).
    rewrite Hq. cbn. lia. }
  rewrite Hlt. reflexivity.
Qed.

(** X10: every item of the manifest is processed exactly once, and in the
    order of the manifest, whatever the configured maximum is; the featured
    ones are the first [k].  Without a maximum (NaN) nothing is featured;
    for a maximum that is a natural number [k] is the smaller of it and the
    number of items; a negative maximum features all but the last items. *)
Theorem X10_every_item_is_processed_once (panoManifest : list PanoItem) (MAX : number) :
  let n := length panoManifest in
  let k := relativeIndex n (toIntegerOrInfinity (featuredItemsCount panoManifest MAX)) in
  map fst (processCalls panoManifest MAX) = panoManifest
  /\ map snd (processCalls panoManifest MAX) = replicate k true ++ replicate (n - k) false
  /\ (k <= n)%nat
  /\ (isNaN MAX = true -> k = 0%nat)
  /\ (forall z, Z.of_nat n < 2 ^ 53 -> 0 <= z < 2 ^ 53 ->
        (MAX = of_Z z -> k = Nat.min n (Z.to_nat z))
        /\ (0 < z -> MAX = (- of_Z z)%float -> k = (n - Z.to_nat z)%nat)).
Proof.
  intros n k. pose proof (relativeIndex_le n (toIntegerOrInfinity (featuredItemsCount panoManifest MAX))) as Hk.
  fold k in Hk. rewrite processCalls_split. fold n k.
  split. { rewrite map_app, !map_map. cbn [fst]. rewrite !map_id. apply take_drop. }
  split.
  { rewrite map_app, !map_map. cbn [snd].
    subst n. f_equal.
    - transitivity (replicate (length (take k panoManifest)) true).
      + generalize (take k panoManifest). intros l. induction l; cbn; congruence.
      + rewrite length_take. f_equal. lia.
    - transitivity (replicate (length (drop k panoManifest)) false).
      + generalize (drop k panoManifest). intros l. induction l; cbn; congruence.
      + rewrite length_drop. f_equal. }
  split; [exact Hk|]. split.
  - intros HN. subst k. unfold featuredItemsCount, Math_min. rewrite HN, orb_true_r.
    change (toIntegerOrInfinity NaN) with (Integer 0). cbn [relativeIndex Z.ltb Z.compare]. lia.
  - intros z Hn Hz. split.
    + intros ->. subst k. unfold featuredItemsCount. fold n.
      rewrite Math_min_of_Z by lia. rewrite toIntegerOrInfinity_of_Z by lia.
      cbn [relativeIndex]. destruct (Z.ltb_spec (Z.min (Z.of_nat n) z) 0); lia.
    + intros Hpos ->. subst k. unfold featuredItemsCount. fold n.
      rewrite Math_min_opp_of_Z by lia.
      assert (Hi : toIntegerOrInfinity (- of_Z z)%float = Integer (- z)).
      { pose proof (toInteger_opp_of_Z z ltac:(lia)) as Ht. unfold toIntegerOrInfinity.
        rewrite FloatAxioms.opp_spec. destruct z as [|p|p]; try lia.
        destruct (of_Z_pos_repr p (digits_small p ltac:(lia))) as (m & Hm & _).
        rewrite Hm. cbn [SFopp]. rewrite Ht. reflexivity. }
      rewrite Hi. cbn [relativeIndex]. destruct (Z.ltb_spec (- z) 0); lia.
Qed.

Lemma X10_every_item_is_processed_once_witness :
  map snd (processCalls [zermatt; equator; zermatt] 2%float) = [true; true; false]
  /\ map snd (processCalls [zermatt; equator; zermatt] (-1)%float) = [true; true; false]
  /\ map snd (processCalls [zermatt; equator; zermatt] nan) = [false; false; false].
Proof.
  destruct (X10_every_item_is_processed_once [zermatt; equator; zermatt] 2%float)
    as (_ & H2 & _ & _ & Hnat).
  destruct (X10_every_item_is_processed_once [zermatt; equator; zermatt] (-1)%float)
    as (_ & H1 & _ & _ & Hneg).
  destruct (X10_every_item_is_processed_once [zermatt; equator; zermatt] nan)
    as (_ & H0 & _ & Hnan & _).
  destruct (Hnat 2 ltac:(cbn; lia) ltac:(lia)) as [Hk2 _].
  destruct (Hneg 1 ltac:(cbn; lia) ltac:(lia)) as [_ Hk1].
  split; [rewrite H2, (Hk2 eq_refl); reflexivity|].
  split; [rewrite H1, (Hk1 ltac:(lia) eq_refl); reflexivity|].
  rewrite H0, (Hnan eq_refl). reflexivity.
Defined.

Lemma processCalls_lookup (panoManifest : list PanoItem) (MAX : number) (i : nat) (it : PanoItem) :
  let k := relativeIndex (length panoManifest)
             (toIntegerOrInfinity (featuredItemsCount panoManifest MAX)) in
  panoManifest !! i = Some it ->
  processCalls panoManifest MAX !! i = Some (it, (i <? k)%nat).
Proof.
  intros k Hi. rewrite processCalls_split. fold k.
  pose proof (relativeIndex_le (length panoManifest)
                (toIntegerOrInfinity (featuredItemsCount panoManifest MAX))) as Hk. fold k in Hk.
  destruct (Nat.ltb_spec i k) as [Hlt|Hge].
  - rewrite lookup_app_l by (rewrite length_map, length_take; lia).
    rewrite list_lookup_fmap, lookup_take_lt by exact Hlt. rewrite Hi. reflexivity.
  - rewrite lookup_app_r by (rewrite length_map, length_take; lia).
    rewrite length_map, length_take, list_lookup_fmap, lookup_drop.
    replace (k + (i - k `min` length panoManifest))%nat with i by lia.
    rewrite Hi. reflexivity.
Qed.

Lemma filter_prefix {A : Type} (f : A -> bool) (l : list A) (k : nat) :
  (forall i x, l !! i = Some x -> f x = (i <? k)%nat) -> List.filter f l = take k l.
Proof.
  revert k. induction l as [|x l IH]; intros k H; [destruct k; reflexivity|].
  cbn [List.filter]. rewrite (H 0%nat x eq_refl). destruct k as [|k]; cbn [Nat.ltb Nat.leb take].
  - apply (IH 0%nat). intros i y Hy. rewrite (H (S i) y Hy). reflexivity.
  - f_equal. apply IH. intros i y Hy. rewrite (H (S i) y Hy). reflexivity.
Qed.

(** X11: the processed data lists the items of the manifest in their
    order, each with the result of its own fetch; the items marked as
    featured, which [initializeUI] selects, are exactly the first [k]. *)
Theorem X11_featured_are_the_first (toFixed : number -> nat -> jsString)
    (panoManifest : list PanoItem) (MAX : number)
    (sqmResults : list DataService.ProcessedData) :
  length sqmResults = length panoManifest ->
  let k := relativeIndex (length panoManifest)
             (toIntegerOrInfinity (featuredItemsCount panoManifest MAX)) in
  let panoData := processedPanoData toFixed panoManifest MAX sqmResults in
  (forall i it r, panoManifest !! i = Some it -> sqmResults !! i = Some r ->
     panoData !! i = Some (processPanoItem toFixed it (i <? k)%nat r))
  /\ map item panoData = panoManifest
  /\ featuredPanoData panoData = take k panoData
  /\ length (featuredPanoData panoData) = k.
Proof.
  intros Hlen k panoData.
  pose proof (relativeIndex_le (length panoManifest)
                (toIntegerOrInfinity (featuredItemsCount panoManifest MAX))) as Hk. fold k in Hk.
  assert (Hlook : forall i it r, panoManifest !! i = Some it -> sqmResults !! i = Some r ->
            panoData !! i = Some (processPanoItem toFixed it (i <? k)%nat r)).
  { intros i it r Hi Hr. subst panoData. unfold processedPanoData.
    rewrite lookup_zip_with, (processCalls_lookup panoManifest MAX i it Hi). fold k.
    cbn. rewrite Hr. reflexivity. }
  assert (Hlength : length panoData = length panoManifest).
  { subst panoData. unfold processedPanoData. rewrite length_zip_with, processCalls_split.
    rewrite length_app, !length_map, length_take, length_drop. lia. }
  assert (Hinv : forall i p, panoData !! i = Some p ->
            exists it r, panoManifest !! i = Some it /\ sqmResults !! i = Some r
                         /\ p = processPanoItem toFixed it (i <? k)%nat r).
  { intros i p Hp. pose proof (lookup_lt_Some _ _ _ Hp) as Hi. rewrite Hlength in Hi.
    destruct (lookup_lt_is_Some_2 panoManifest i Hi) as [it Hit].
    destruct (lookup_lt_is_Some_2 sqmResults i ltac:(lia)) as [r Hr].
    exists it, r. split; [exact Hit|]. split; [exact Hr|].
    rewrite (Hlook i it r Hit Hr) in Hp. congruence. }
  assert (Hfeat : featuredPanoData panoData = take k panoData).
  { apply filter_prefix. intros i p Hp. destruct (Hinv i p Hp) as (it & r & _ & _ & ->).
    reflexivity. }
  split; [exact Hlook|]. split.
  - apply list_eq. intros i. rewrite list_lookup_fmap.
    destruct (panoData !! i) as [p|] eqn:Hp.
    + destruct (Hinv i p Hp) as (it & r & Hit & _ & ->). rewrite Hit. reflexivity.
    + apply lookup_ge_None in Hp. rewrite Hlength in Hp.
      symmetry. apply lookup_ge_None. exact Hp.
  - split; [exact Hfeat|]. rewrite Hfeat, length_take. lia.
Qed.

Lemma X11_featured_are_the_first_witness :
  map PanoData.item
      (processedPanoData (fun _ _ => str "20.50") [zermatt; equator] 1%float
                         [emptyData; parseSqmText lineHigh])
  = [zermatt; equator]
  /\ length (featuredPanoData
               (processedPanoData (fun _ _ => str "20.50") [zermatt; equator] 1%float
                                  [emptyData; parseSqmText lineHigh])) = 1%nat.
Proof.
  destruct (X11_featured_are_the_first (fun _ _ => str "20.50") [zermatt; equator] 1%float
              [emptyData; parseSqmText lineHigh] eq_refl) as (_ & Hitems & _ & Hlen).
  split; [exact Hitems | exact Hlen].
Defined.

Lemma join_nonempty (sep : jsString) (a : list jsString) :
  a <> [] -> Forall (fun s => s <> []) a -> join sep a <> [].
Proof.
  intros Ha Hall. destruct a as [|s rest]; [congruence|].
  apply Forall_cons in Hall. destruct Hall as [Hs _].
  destruct rest; cbn [join]; [exact Hs|].
  destruct s; [congruence | discriminate].
Qed.

Lemma truthy_names (vs : list jsValue) :
  Forall (fun s => s <> []) (omap (fun v : jsValue => if truthy v then v else None) vs).
Proof.
  induction vs as [|v vs IH]; cbn [omap]; [constructor|].
  destruct v as [[|c s]|]; cbn [truthy]; try exact IH.
  constructor; [discriminate | exact IH].
Qed.

(** X12: the name of a location is never empty.  It is the list of the
    names the item has, when it has one; otherwise it shows the
    coordinates when both count as true, and reads "Unknown Location" as
    soon as one of them is missing or is zero.  An item whose SQM file
    gave no median reads "N/A" and gets the grey marker. *)
Theorem X12_location_name (toFixed : number -> nat -> jsString) (item : PanoItem) :
  let names := omap (fun v : jsValue => if truthy v then v else None)
                    [locality item; region item; country item] in
  locationNameOf toFixed item <> []
  /\ (names <> [] -> locationNameOf toFixed item = join (str ", ") names)
  /\ (names = [] ->
      (locationNameOf toFixed item = str "Unknown Location"
       <-> numberTruthy (latitude item) = false \/ numberTruthy (longitude item) = false)
      /\ (latitude item = Some 0%float \/ longitude item = Some 0%float ->
          locationNameOf toFixed item = str "Unknown Location"))
  /\ (forall flag r, DataService.medianSqm r = None ->
        medianSqm (processPanoItem toFixed item flag r) = str "N/A"
        /\ itemColor (Some (medianSqm (processPanoItem toFixed item flag r))) = str "#808080").
Proof.
  intros names. unfold locationNameOf. fold names.
  pose proof (truthy_names [locality item; region item; country item]) as Hall. fold names in Hall.
  split; [|split; [|split]].
  - destruct names as [|s rest] eqn:Hn.
    + cbn [join truthy negb andb].
      destruct (numberTruthy (latitude item) && numberTruthy (longitude item)); discriminate.
    + pose proof (join_nonempty (str ", ") (s :: rest) ltac:(discriminate) Hall) as Hj.
      destruct (join (str ", ") (s :: rest)) as [|c t]; [congruence|].
      cbn [truthy negb andb]. discriminate.
  - intros Hne. pose proof (join_nonempty (str ", ") names Hne Hall) as Hj.
    destruct (join (str ", ") names) as [|c t]; [congruence|]. reflexivity.
  - intros ->. cbn [join truthy negb andb]. split.
    + destruct (numberTruthy (latitude item)), (numberTruthy (longitude item)); cbn [andb];
        split; intros H; try reflexivity; try (left; reflexivity); try (right; reflexivity);
        try (vm_compute in H; discriminate H);
        destruct H as [H|H]; discriminate H.
    + intros [H|H]; rewrite H; cbn [numberTruthy];
        destruct (numberTruthy (latitude item)); reflexivity.
  - intros flag r Hr. unfold processPanoItem. cbn [medianSqm]. rewrite Hr.
    split; [reflexivity|]. vm_compute. reflexivity.
Qed.

Lemma X12_location_name_witness :
  locationNameOf (fun _ _ => str "0.000") equator = str "Unknown Location"
  /\ locationNameOf (fun _ _ => str "0.000") zermatt = str "Zermatt, CH".
Proof.
  destruct (X12_location_name (fun _ _ => str "0.000") equator) as (_ & _ & Hnone & _).
  destruct (X12_location_name (fun _ _ => str "0.000") zermatt) as (_ & Hnames & _).
  split.
  - destruct (Hnone eq_refl) as [_ Hzero]. apply Hzero. left. reflexivity.
  - rewrite Hnames by discriminate. reflexivity.
Defined.

End LoadAndProcessData.

(** ** The lightbox of the astrophotography gallery *)

Section LightboxFacts.
Import GalleryService.

Lemma updateLightboxView_in_bounds (index : Z) (st : Lightbox) (arrows : Arrows) :
  0 <= index < Z.of_nat (length (astroGalleryItems st)) ->
  lightbox st = Some arrows ->
  updateLightboxView index st
  = {| currentAstroGalleryIndex := index;
       astroGalleryItems := astroGalleryItems st;
       lightbox := Some {| prevArrow := negb (index =? 0);
                           nextArrow := negb (index =? Z.of_nat (length (astroGalleryItems st)) - 1) |} |}.
Proof.
  intros Hi Hl. unfold updateLightboxView.
  destruct (Z.ltb_spec index 0); [lia|].
  destruct (Z.geb_spec index (Z.of_nat (length (astroGalleryItems st)))); [lia|].
  cbn [orb lightbox astroGalleryItems]. rewrite Hl.
  unfold itemAt. destruct (Z.ltb_spec index 0); [lia|].
  destruct (lookup_lt_is_Some_2 (astroGalleryItems st) (Z.to_nat index) ltac:(lia)) as [x ->].
  reflexivity.
Qed.

Lemma consistent_update (index : Z) (st : Lightbox) (arrows : Arrows) :
  0 <= index < Z.of_nat (length (astroGalleryItems st)) ->
  lightbox st = Some arrows ->
  consistent (updateLightboxView index st).
Proof.
  intros Hi Hl. rewrite (updateLightboxView_in_bounds index st arrows Hi Hl).
  unfold consistent. cbn [currentAstroGalleryIndex astroGalleryItems lightbox].
  split; [right; exact Hi|]. intros _. eexists. split; [reflexivity|]. split; reflexivity.
Qed.

Lemma consistent_open (index : Z) (items : list AstroItem) (st : Lightbox) :
  0 <= index < Z.of_nat (length items) -> consistent (openLightbox index items st).
Proof. intros Hi. unfold openLightbox. eapply consistent_update; [exact Hi | reflexivity]. Qed.

Lemma consistent_close (st : Lightbox) : consistent (closeLightbox st).
Proof.
  unfold consistent, closeLightbox. cbn. split; [left; split; reflexivity | congruence].
Qed.

Lemma consistent_prev (st : Lightbox) : consistent st -> consistent (onPrev st).
Proof.
  intros Hc. unfold onPrev. destruct (Z.gtb_spec (currentAstroGalleryIndex st) 0) as [Hpos|]; [|exact Hc].
  destruct Hc as [[[Hnil H0]|Hin] Harrows]; [lia|].
  destruct Harrows as (arrows & Hl & _); [intros Hnil; rewrite Hnil in Hin; cbn in Hin; lia|].
  apply (consistent_update _ st arrows); [lia | exact Hl].
Qed.

Lemma consistent_next (st : Lightbox) : consistent st -> consistent (onNext st).
Proof.
  intros Hc. unfold onNext.
  destruct (Z.ltb_spec (currentAstroGalleryIndex st)
              (Z.of_nat (length (astroGalleryItems st)) - 1)) as [Hlt|]; [|exact Hc].
  destruct Hc as [[[Hnil H0]|Hin] Harrows]; [rewrite Hnil in Hlt; cbn in Hlt; lia|].
  destruct Harrows as (arrows & Hl & _); [intros Hnil; rewrite Hnil in Hin; cbn in Hin; lia|].
  apply (consistent_update _ st arrows); [lia | exact Hl].
Qed.

Lemma findIndexFrom_found {A : Type} (p : A -> bool) (a : list A) (i : Z) (k : nat) (x : A) :
  a !! k = Some x -> p x = true ->
  exists j, findIndexFrom p a i = i + Z.of_nat j /\ (j <= k)%nat
            /\ (exists y, a !! j = Some y /\ p y = true)
            /\ (forall j' y, (j' < j)%nat -> a !! j' = Some y -> p y = false).
Proof.
  revert i k. induction a as [|z a IH]; intros i k Hk Hp; [discriminate Hk|].
  cbn [findIndexFrom]. destruct (p z) eqn:Hz.
  - exists 0%nat. split; [lia|]. split; [lia|]. split; [exists z; split; [reflexivity | exact Hz]|].
    intros j' y Hj. lia.
  - destruct k as [|k]; [injection Hk as ->; congruence|]. cbn in Hk.
    destruct (IH (i + 1) k Hk Hp) as (j & Hj & Hle & Hy & Hmin).
    exists (S j). split; [lia|]. split; [lia|]. split; [exact Hy|].
    intros j' y Hj' Hy'. destruct j' as [|j']; [injection Hy' as <-; exact Hz|].
    cbn in Hy'. apply (Hmin j' y); [lia | exact Hy'].
Qed.

Lemma itemsToFeature_lookup (astroData : list AstroItem) (maxItems : number) (slide : nat)
    (item : AstroItem) :
  itemsToFeature astroData maxItems !! slide = Some item -> astroData !! slide = Some item.
Proof.
  unfold itemsToFeature. rewrite slice_from_start. intros H.
  apply lookup_take_Some in H. tauto.
Qed.

Lemma featured_click_in_bounds (astroData : list AstroItem) (maxItems : number) (slide : nat)
    (item : AstroItem) :
  itemsToFeature astroData maxItems !! slide = Some item ->
  0 <= findIndex (sameImageName item) astroData < Z.of_nat (length astroData).
Proof.
  intros H. apply itemsToFeature_lookup in H.
  destruct (findIndexFrom_found (sameImageName item) astroData 0 slide item H) as (j & Hj & Hle & _).
  { unfold sameImageName. apply bool_decide_eq_true. reflexivity. }
  unfold findIndex. rewrite Hj. apply lookup_lt_Some in H. lia.
Qed.

Lemma consistent_handle (st : Lightbox) (ev : Event) : consistent st -> consistent (handle st ev).
Proof.
  intros Hc. unfold handle. destruct (possible st ev) eqn:Hp; [|exact Hc].
  destruct ev as [astroData index|astroData maxItems slide| | |]; cbn [possible] in Hp.
  - apply bool_decide_eq_true in Hp. apply consistent_open. lia.
  - destruct (itemsToFeature astroData maxItems !! slide) as [item|] eqn:Hitem; [|exact Hc].
    apply consistent_open. eapply featured_click_in_bounds. exact Hitem.
  - apply consistent_prev, Hc.
  - apply consistent_next, Hc.
  - apply consistent_close.
Qed.

Lemma consistent_fold (events : list Event) (st : Lightbox) :
  consistent st -> consistent (fold_left handle events st).
Proof.
  revert st. induction events as [|ev events IH]; intros st Hc; [exact Hc|].
  cbn [fold_left]. apply IH, consistent_handle, Hc.
Qed.

Lemma consistent_initial : consistent initialLightbox.
Proof. unfold consistent. cbn. split; [left; split; reflexivity | congruence]. Qed.

(** X13: whatever the visitor clicks, the lightbox stays within its
    pictures: the current index is a place of [astroGalleryItems] (or is
    [0] while there are none), the arrow to the previous picture is hidden
    exactly on the first picture and the one to the next exactly on the
    last.  Stepping forth and back, or back and forth, restores the
    state. *)
Theorem X13_lightbox_stays_in_bounds (events : list Event) :
  let st := handleAll events in
  let n := Z.of_nat (length (astroGalleryItems st)) in
  consistent st
  /\ (currentAstroGalleryIndex st < n - 1 -> onPrev (onNext st) = st)
  /\ (0 < currentAstroGalleryIndex st -> onNext (onPrev st) = st).
Proof.
  intros st n.
  assert (Hc : consistent st) by (apply consistent_fold, consistent_initial).
  split; [exact Hc|].
  destruct Hc as [Hidx Harrows]. fold n in Hidx, Harrows.
  destruct st as [index items box]. cbn [currentAstroGalleryIndex astroGalleryItems lightbox] in *.
  split.
  - intros Hlt. destruct Hidx as [[-> ->]|Hin]; [cbn in n; lia|].
    destruct Harrows as (arrows & -> & Hp & Hn); [intros ->; cbn in n; lia|].
    unfold onNext. cbn [currentAstroGalleryIndex astroGalleryItems]. fold n.
    destruct (Z.ltb_spec index (n - 1)); [|lia].
    rewrite (updateLightboxView_in_bounds (index + 1) _ arrows) by (cbn; fold n; try lia; reflexivity).
    unfold onPrev. cbn [currentAstroGalleryIndex astroGalleryItems lightbox].
    destruct (Z.gtb_spec (index + 1) 0); [|lia].
    erewrite updateLightboxView_in_bounds by (cbn; fold n; try lia; reflexivity).
    cbn [astroGalleryItems]. fold n. replace (index + 1 - 1) with index by lia.
    destruct arrows as [pa na]. cbn in Hp, Hn. subst pa na. reflexivity.
  - intros Hpos. destruct Hidx as [[-> ->]|Hin]; [lia|].
    destruct Harrows as (arrows & -> & Hp & Hn); [intros ->; cbn in n; lia|].
    unfold onPrev. cbn [currentAstroGalleryIndex astroGalleryItems]. fold n.
    destruct (Z.gtb_spec index 0); [|lia].
    rewrite (updateLightboxView_in_bounds (index - 1) _ arrows) by (cbn; fold n; try lia; reflexivity).
    unfold onNext. cbn [currentAstroGalleryIndex astroGalleryItems lightbox]. fold n.
    destruct (Z.ltb_spec (index - 1) (n - 1)); [|lia].
    erewrite updateLightboxView_in_bounds by (cbn; fold n; try lia; reflexivity).
    cbn [astroGalleryItems]. fold n. replace (index - 1 + 1) with index by lia.
    destruct arrows as [pa na]. cbn in Hp, Hn. subst pa na. reflexivity.
Qed.

Lemma X13_lightbox_stays_in_bounds_witness :
  consistent (handleAll [ClickGalleryItem [m31; m42] 1; ClickNext; ClickPrev; ClickPrev])
  /\ currentAstroGalleryIndex
       (handleAll [ClickGalleryItem [m31; m42] 1; ClickNext; ClickPrev; ClickPrev]) = 0.
Proof.
  destruct (X13_lightbox_stays_in_bounds
              [ClickGalleryItem [m31; m42] 1; ClickNext; ClickPrev; ClickPrev]) as (Hc & _).
  split; [exact Hc | reflexivity].
Defined.

Lemma NoDup_lookup_eq {A : Type} (l : list A) (i j : nat) (x : A) :
  NoDup l -> l !! i = Some x -> l !! j = Some x -> i = j.
Proof. intros Hnd Hi Hj. exact (NoDup_lookup l i j x Hnd Hi Hj). Qed.

(** X14: a click on a slide of the featured gallery opens the lightbox on
    the whole gallery, at the first picture that has the image name of the
    slide: a place of the gallery, at or before the one of the slide, and
    the slide's own place when no two pictures share an image name.  For a
    natural number [maxItems] there are as many slides as pictures, up to
    [maxItems]. *)
Theorem X14_featured_slide_opens_first_match (astroData : list AstroItem) (maxItems : number)
    (slide : nat) (item : AstroItem) (st : Lightbox) :
  itemsToFeature astroData maxItems !! slide = Some item ->
  let st' := onFeaturedSlideClick astroData item st in
  astroData !! slide = Some item
  /\ astroGalleryItems st' = astroData
  /\ (exists j x,
        currentAstroGalleryIndex st' = Z.of_nat j /\ (j <= slide)%nat
        /\ astroData !! j = Some x /\ imageName x = imageName item
        /\ (forall j' y, (j' < j)%nat -> astroData !! j' = Some y -> imageName y <> imageName item)
        /\ (NoDup (map imageName astroData) -> j = slide))
  /\ (forall m : nat, Z.of_nat m < 2 ^ 53 ->
        length (itemsToFeature astroData (of_Z (Z.of_nat m))) = Nat.min (length astroData) m).
Proof.
  intros Hslide st'.
  pose proof (itemsToFeature_lookup _ _ _ _ Hslide) as Hitem.
  pose proof (featured_click_in_bounds _ _ _ _ Hslide) as Hin.
  assert (Hself : sameImageName item item = true)
    by (unfold sameImageName; apply bool_decide_eq_true; reflexivity).
  destruct (findIndexFrom_found (sameImageName item) astroData 0 slide item Hitem Hself)
    as (j & Hj & Hle & (x & Hx & Hpx) & Hmin).
  assert (Hst : st' = {| currentAstroGalleryIndex := Z.of_nat j;
                         astroGalleryItems := astroData;
                         lightbox := Some {| prevArrow := negb (Z.of_nat j =? 0);
                                             nextArrow := negb (Z.of_nat j =? Z.of_nat (length astroData) - 1) |} |}).
  { subst st'. unfold onFeaturedSlideClick, openLightbox.
    unfold findIndex in *. rewrite Hj in *. cbn [Z.add] in *.
    erewrite updateLightboxView_in_bounds; [reflexivity | exact Hin | reflexivity]. }
  split; [exact Hitem|]. rewrite Hst. cbn [astroGalleryItems currentAstroGalleryIndex].
  split; [reflexivity|]. split.
  - exists j, x. split; [reflexivity|]. split; [exact Hle|]. split; [exact Hx|].
    unfold sameImageName in Hpx. apply bool_decide_eq_true in Hpx. split; [exact Hpx|].
    split.
    + intros j' y Hj' Hy. specialize (Hmin j' y Hj' Hy). unfold sameImageName in Hmin.
      apply bool_decide_eq_false in Hmin. exact Hmin.
    + intros Hnd. apply (NoDup_lookup_eq (map imageName astroData) j slide (imageName item) Hnd).
      * rewrite list_lookup_fmap, Hx. cbn. congruence.
      * rewrite list_lookup_fmap, Hitem. reflexivity.
  - intros m Hm. unfold itemsToFeature. rewrite slice_from_start.
    rewrite toIntegerOrInfinity_of_Z by lia. cbn [relativeIndex].
    destruct (Z.ltb_spec (Z.of_nat m) 0); [lia|]. rewrite length_take. lia.
Qed.

Lemma X14_featured_slide_opens_first_match_witness :
  astroGalleryItems (onFeaturedSlideClick [m31; m42; m31again] m31again initialLightbox)
  = [m31; m42; m31again]
  /\ length (itemsToFeature [m31; m42; m31again] (of_Z (Z.of_nat 2))) = 2%nat.
Proof.
  destruct (X14_featured_slide_opens_first_match [m31; m42; m31again] 5%float 2 m31again
              initialLightbox eq_refl) as (_ & Hitems & _ & Hcount).
  split; [exact Hitems | exact (Hcount 2%nat ltac:(cbn; lia))].
Defined.

End LightboxFacts.

(** ** Blank lines, and calls one after the other *)

Section BlankLines.

Lemma loopBody_blank (st : LoopState) (line : jsString) :
  (length (trim line) =? 0)%nat = true -> loopBody st line = st.
Proof.
  intros Hb. unfold loopBody, processLine. rewrite Hb.
  apply Nat.eqb_eq in Hb. rewrite Hb. cbn [Nat.ltb Nat.leb].
  rewrite andb_false_r. destruct (negb (dataStarted st)); reflexivity.
Qed.

Lemma fold_loopBody_blank (lines : list jsString) (st : LoopState) :
  fold_left loopBody (List.filter (fun l => negb (length (trim l) =? 0)%nat) lines) st
  = fold_left loopBody lines st.
Proof.
  revert st. induction lines as [|l lines IH]; intros st; [reflexivity|].
  cbn [List.filter fold_left]. destruct (length (trim l) =? 0)%nat eqn:Hb; cbn [negb].
  - rewrite (loopBody_blank st l Hb). apply IH.
  - cbn [fold_left]. apply IH.
Qed.

(** X15: blank lines are ignored wherever they stand, before the data and
    among it: the loop reaches the same state without them, and a file
    parses to the same result when its blank lines are taken out. *)
Theorem X15_blank_lines_are_ignored (lines : list jsString) :
  let withoutBlank := List.filter (fun l => negb (length (trim l) =? 0)%nat) lines in
  runLoop withoutBlank = runLoop lines
  /\ (Forall noLineFeed lines ->
      parseSqmText (join [10%N] withoutBlank) = parseSqmText (join [10%N] lines)).
Proof.
  intros withoutBlank.
  assert (Hrun : runLoop withoutBlank = runLoop lines) by apply fold_loopBody_blank.
  split; [exact Hrun|]. intros Hall.
  assert (Hsub : Forall noLineFeed withoutBlank).
  { subst withoutBlank. rewrite List.Forall_forall in *. intros l Hl.
    apply filter_In in Hl. apply Hall, Hl. }
  unfold parseSqmText. f_equal.
  assert (Hsplit : forall ls, Forall noLineFeed ls ->
            runLoop (split_newline (join [10%N] ls)) = runLoop ls).
  { intros ls Hls. destruct ls as [|l ls']; [reflexivity|].
    rewrite split_newline_join; [reflexivity | discriminate | exact Hls]. }
  rewrite (Hsplit withoutBlank Hsub), (Hsplit lines Hall). exact Hrun.
Qed.

Lemma X15_blank_lines_are_ignored_witness :
  parseSqmText (join [10%N] [lineHigh; lineAltitude30])
  = parseSqmText (join [10%N] [str "  "; lineHigh; []; [13%N]; lineAltitude30; []]).
Proof.
  pose proof (X15_blank_lines_are_ignored
                [str "  "; lineHigh; []; [13%N]; lineAltitude30; []]) as H.
  cbv zeta in H. destruct H as [_ Htext].
  assert (Hkept : List.filter (fun l => negb (length (trim l) =? 0)%nat)
                    [str "  "; lineHigh; []; [13%N]; lineAltitude30; []]
                  = [lineHigh; lineAltitude30]) by (vm_compute; reflexivity).
  rewrite Hkept in Htext. apply Htext.
  unfold noLineFeed. vm_compute.
  repeat (first [apply List.Forall_nil | apply List.Forall_cons]); discriminate.
Defined.

End BlankLines.

Section FetchSequences.
Import Fetches.

Lemma firstSuccess_one (url0 url : jsString) (net0 : FetchOutcome) :
  url0 <> url -> firstSuccess url [(url0, net0)] = None.
Proof.
  intros Hne. destruct net0 as [|[] s b]; cbn [firstSuccess]; try reflexivity.
  rewrite bool_decide_eq_false_2 by exact Hne. reflexivity.
Qed.

Lemma firstSuccess_cons (url0 url : jsString) (net0 : FetchOutcome) (rest : list Request) :
  firstSuccess url ((url0, net0) :: rest)
  = match firstSuccess url [(url0, net0)] with
    | Some b => Some b
    | None => firstSuccess url rest
    end.
Proof.
  destruct net0 as [|[] s b]; cbn [firstSuccess]; try reflexivity.
  destruct (bool_decide (url0 = url)); reflexivity.
Qed.

(** What a call returns, by the properties of the cache and the answer of
    the network. *)
Lemma fetchAndParseSqm_result (url : jsString) (sqmCache : cache) (net : FetchOutcome) :
  (fetchAndParseSqm url sqmCache net).1
  = match sqmCache !! url with
    | Some cached => Data cached
    | None => answer url (firstSuccess url [(url, net)])
    end.
Proof.
  unfold fetchAndParseSqm, getProperty, answer. destruct (sqmCache !! url); [reflexivity|].
  destruct (bool_decide (url ∈ objectPrototypeNames)); [reflexivity|].
  destruct net as [|[] status textData]; cbn [firstSuccess tryBlock negb fst];
    rewrite ?bool_decide_eq_true_2 by reflexivity; reflexivity.
Qed.

(** The cache a call leaves. *)
Lemma fetchAndParseSqm_cache (url0 : jsString) (sqmCache : cache) (net0 : FetchOutcome)
      (url : jsString) :
  (fetchAndParseSqm url0 sqmCache net0).2 !! url
  = match sqmCache !! url with
    | Some cached => Some cached
    | None =>
        if bool_decide (url ∈ objectPrototypeNames) then None
        else parseSqmText <$> firstSuccess url [(url0, net0)]
    end.
Proof.
  destruct (decide (url0 = url)) as [->|Hne].
  - unfold fetchAndParseSqm, getProperty.
    destruct (sqmCache !! url) eqn:Hc; [exact Hc|].
    destruct (bool_decide (url ∈ objectPrototypeNames)); [exact Hc|].
    destruct net0 as [|[] status textData]; cbn [firstSuccess tryBlock negb snd];
      rewrite ?bool_decide_eq_true_2 by reflexivity;
      cbn [fmap option_fmap option_map]; try exact Hc.
    apply lookup_insert_eq.
  - rewrite (firstSuccess_one url0 url net0 Hne). cbn [fmap option_fmap option_map].
    assert (Hsame : (fetchAndParseSqm url0 sqmCache net0).2 !! url = sqmCache !! url).
    { unfold fetchAndParseSqm. destruct (getProperty sqmCache url0); [reflexivity|].
      destruct net0 as [|[] status textData]; cbn [tryBlock negb snd]; try reflexivity.
      apply lookup_insert_ne. exact Hne. }
    rewrite Hsame. destruct (sqmCache !! url); [reflexivity|].
    destruct (bool_decide (url ∈ objectPrototypeNames)); reflexivity.
Qed.

(** The answer to the call at place [i], and the final cache, from any
    cache to begin with. *)
Lemma fetchAll_from (requests : list Request) (sqmCache : cache) :
  (forall i url net, requests !! i = Some (url, net) ->
     (fetchAll requests sqmCache).1 !! i
     = Some match sqmCache !! url with
            | Some cached => Data cached
            | None => answer url (firstSuccess url (take (S i) requests))
            end)
  /\ (forall url,
        (fetchAll requests sqmCache).2 !! url
        = match sqmCache !! url with
          | Some cached => Some cached
          | None =>
              if bool_decide (url ∈ objectPrototypeNames) then None
              else parseSqmText <$> firstSuccess url requests
          end).
Proof.
  revert sqmCache. induction requests as [|[url0 net0] rest IH]; intros sqmCache.
  { split; [intros i url net Hi; discriminate Hi|].
    intros url. cbn. destruct (sqmCache !! url); [reflexivity|].
    destruct (bool_decide (url ∈ objectPrototypeNames)); reflexivity. }
  cbn [fetchAll].
  pose proof (fetchAndParseSqm_result url0 sqmCache net0) as Hresult.
  pose proof (fetchAndParseSqm_cache url0 sqmCache net0) as Hstep.
  destruct (fetchAndParseSqm url0 sqmCache net0) as [result sqmCache'].
  cbn [fst snd] in Hresult, Hstep.
  destruct (IH sqmCache') as [IHres IHcache].
  destruct (fetchAll rest sqmCache') as [results final]. cbn [fst snd] in *.
  split.
  - intros i url net Hi. destruct i as [|i].
    + injection Hi as -> ->. change ((result :: results) !! 0%nat) with (Some result).
      change (take 1 ((url, net) :: rest)) with [(url, net)]. rewrite Hresult. reflexivity.
    + assert (Hi' : rest !! i = Some (url, net)) by exact Hi.
      change ((result :: results) !! S i) with (results !! i).
      change (take (S (S i)) ((url0, net0) :: rest)) with ((url0, net0) :: take (S i) rest).
      rewrite (IHres i url net Hi'), Hstep. unfold Request in *.
      rewrite (firstSuccess_cons url0 url net0 (take (S i) rest)).
      destruct (sqmCache !! url); [reflexivity|].
      unfold answer. destruct (bool_decide (url ∈ objectPrototypeNames)); [reflexivity|].
      destruct (firstSuccess url [(url0, net0)]); reflexivity.
  - intros url. rewrite IHcache, Hstep. unfold Request in *.
    rewrite (firstSuccess_cons url0 url net0 rest).
    destruct (sqmCache !! url); [reflexivity|].
    destruct (bool_decide (url ∈ objectPrototypeNames)); [reflexivity|].
    destruct (firstSuccess url [(url0, net0)]); reflexivity.
Qed.

Lemma fetchAll_length (requests : list Request) (sqmCache : cache) :
  length (fetchAll requests sqmCache).1 = length requests.
Proof.
  revert sqmCache. induction requests as [|[u n] rest IH]; intros c; [reflexivity|].
  cbn [fetchAll]. destruct (fetchAndParseSqm u c n) as [r c'].
  specialize (IH c'). destruct (fetchAll rest c') as [rs f]. cbn in *. congruence.
Qed.

Lemma emptyData_wellFormed (ok : number -> bool) : wellFormedFor ok emptyData.
Proof.
  split; [constructor|]. split; [constructor|]. split; [constructor|].
  exists []. split; [constructor | reflexivity].
Qed.

(** X16: the cache is never refreshed.  When calls are made one after the
    other on an object that has no property of its own to begin with, a
    call for a name that every plain object inherits is answered with the
    inherited value; any other call is answered with the parse of the
    first successful response for its URL so far, or with the empty result
    when there has been none.  The object ends up holding, for each URL
    that is not an inherited name, the parse of its first successful
    response, and nothing under an inherited name.  Every answer that is
    data has magnitudes that are numbers, polar entries fit for the plot
    and a median taken of some of its magnitudes. *)
Theorem X16_first_success_wins (requests : list Request) :
  (forall i url net, requests !! i = Some (url, net) ->
     (fetchAll requests ∅).1 !! i
     = Some (answer url (firstSuccess url (take (S i) requests))))
  /\ (forall url,
        (fetchAll requests ∅).2 !! url
        = if bool_decide (url ∈ objectPrototypeNames) then None
          else parseSqmText <$> firstSuccess url requests)
  /\ length (fetchAll requests ∅).1 = length requests
  /\ Forall (fun returned =>
               match returned with
               | Data processedData => wellFormedNumbers processedData
               | Inherited name => name ∈ objectPrototypeNames
               end) (fetchAll requests ∅).1.
Proof.
  destruct (fetchAll_from requests ∅) as [Hres Hcache].
  pose proof (fetchAll_length requests ∅) as Hlen.
  split; [|split; [|split; [exact Hlen|]]].
  - intros i url net Hi. rewrite (Hres i url net Hi), lookup_empty. reflexivity.
  - intros url. rewrite Hcache, lookup_empty. reflexivity.
  - apply Forall_lookup_2. intros i r Hr.
    pose proof (lookup_lt_Some _ _ _ Hr) as Hi. rewrite Hlen in Hi.
    destruct (lookup_lt_is_Some_2 requests i Hi) as [[url net] Hreq].
    rewrite (Hres i url net Hreq), lookup_empty in Hr. injection Hr as <-.
    unfold answer.
    destruct (bool_decide_reflect (url ∈ objectPrototypeNames)) as [Hin|Hout]; [exact Hin|].
    destruct (firstSuccess url (take (S i) requests)) as [textData|].
    + apply parseSqmText_wellFormedNumbers.
    + apply emptyData_wellFormed.
Qed.

Lemma X16_first_success_wins_witness :
  (fetchAll [(str "a.txt", Rejected);
             (str "a.txt", Response true 200 lineHigh);
             (str "toString", Response true 200 lineHigh);
             (str "a.txt", Response true 200 lineAltitude30)] ∅).1 !! 3%nat
  = Some (Data (parseSqmText lineHigh))
  /\ (fetchAll [(str "a.txt", Rejected);
                (str "a.txt", Response true 200 lineHigh);
                (str "toString", Response true 200 lineHigh);
                (str "a.txt", Response true 200 lineAltitude30)] ∅).1 !! 2%nat
     = Some (Inherited (str "toString")).
Proof.
  destruct (X16_first_success_wins
              [(str "a.txt", Rejected);
               (str "a.txt", Response true 200 lineHigh);
               (str "toString", Response true 200 lineHigh);
               (str "a.txt", Response true 200 lineAltitude30)]) as (Hres & _).
  split.
  - exact (Hres 3%nat (str "a.txt") (Response true 200 lineAltitude30) eq_refl).
  - exact (Hres 2%nat (str "toString") (Response true 200 lineHigh) eq_refl).
Defined.

End FetchSequences.

(** ** The select element of the featured locations *)

Section SelectedLocation.
Import FeaturedVisualizations.

Lemma digitsValue_uintDigits (d : Decimal.uint) (acc : nat) :
  fold_left (fun a x => 10 * a + Z.of_N x) (uintDigits d) (Z.of_nat acc)
  = Z.of_nat (Nat.of_uint_acc d acc).
Proof.
  revert acc. induction d as [|d IH|d IH|d IH|d IH|d IH|d IH|d IH|d IH|d IH|d IH];
    intros acc; cbn [uintDigits fold_left Nat.of_uint_acc]; [reflexivity|..];
    rewrite <- IH; f_equal; rewrite Nat.tail_mul_spec; lia.
Qed.

Lemma uintDigits_digits (d : Decimal.uint) : Forall (fun x => (x <= 9)%N) (uintDigits d).
Proof. induction d; cbn [uintDigits]; constructor; (lia || assumption). Qed.

Lemma spanDigits_digits (ds : list N) :
  Forall (fun x => (x <= 9)%N) ds -> spanDigits (map (fun d => (48 + d)%N) ds) = (ds, []).
Proof.
  induction 1 as [|x ds Hx _ IH]; [reflexivity|].
  cbn [map spanDigits]. rewrite IH.
  assert (Hd : isDigit (48 + x) = true).
  { unfold isDigit. apply andb_true_intro. split; apply N.leb_le; lia. }
  rewrite Hd. f_equal. f_equal. lia.
Qed.

Lemma to_uint_nonempty (n : nat) : uintDigits (Nat.to_uint n) <> [].
Proof.
  intros H. pose proof (DecimalNat.Unsigned.of_to n) as Hn.
  destruct (Nat.to_uint n) eqn:Hd; try discriminate H.
  cbn in Hn. subst n. cbn in Hd. discriminate Hd.
Qed.

Lemma parseInt10_digit_first (c : N) (r : jsString) :
  isDigit c = true ->
  parseInt10 (c :: r)
  = match spanDigits (c :: r) with
    | ([], _) => NaN
    | (Z, _) => if digitsValue Z =? 0 then 0%float else of_Z (digitsValue Z)
    end.
Proof.
  intros Hc. unfold isDigit in Hc. apply andb_prop in Hc. destruct Hc as [H1 H2].
  apply N.leb_le in H1, H2.
  assert (Hcases : (c = 48 \/ c = 49 \/ c = 50 \/ c = 51 \/ c = 52 \/ c = 53 \/ c = 54
                    \/ c = 55 \/ c = 56 \/ c = 57)%N) by lia.
  repeat (destruct Hcases as [->|Hcases]; [reflexivity|]). subst c. reflexivity.
Qed.

(** Reading the decimal numeral of an index gives back the index. *)
Lemma parseInt10_indexToString (index : nat) :
  parseInt10 (indexToString index) = of_Z (Z.of_nat index).
Proof.
  unfold indexToString.
  pose proof (uintDigits_digits (Nat.to_uint index)) as Hall.
  pose proof (to_uint_nonempty index) as Hne.
  pose proof (digitsValue_uintDigits (Nat.to_uint index) 0) as Hval.
  change (Nat.of_uint_acc (Nat.to_uint index) 0) with (Nat.of_uint (Nat.to_uint index)) in Hval.
  rewrite DecimalNat.Unsigned.of_to in Hval.
  pose proof (spanDigits_digits _ Hall) as Hspan.
  destruct (uintDigits (Nat.to_uint index)) as [|x ds] eqn:Hd; [congruence|].
  apply Forall_cons in Hall. destruct Hall as [Hx _].
  cbn [map] in *.
  rewrite parseInt10_digit_first
    by (unfold isDigit; apply andb_true_intro; split; apply N.leb_le; lia).
  rewrite Hspan. unfold digitsValue. change 0 with (Z.of_nat 0) at 1 3. rewrite Hval.
  destruct (Z.eqb_spec (Z.of_nat index) 0) as [H0|H0]; [|reflexivity].
  rewrite H0. reflexivity.
Qed.

Lemma isIntegral_of_Z (z : Z) : 0 <= z < 2 ^ 53 -> isIntegral (of_Z z) = true.
Proof.
  intros Hz. unfold isIntegral. destruct z as [|p|p]; [rewrite of_Z_0; reflexivity| |lia].
  pose proof (digits_small p ltac:(lia)) as Hd.
  destruct (of_Z_pos_repr p Hd) as (m & Hm & Hv). rewrite Hm.
  destruct (Z.leb_spec 0 (Z.pos (digits2_pos p) - 53)) as [|He]; [reflexivity|].
  cbn [orb]. apply Z.eqb_eq. rewrite Hv.
  replace (- (Z.pos (digits2_pos p) - 53)) with (53 - Z.pos (digits2_pos p)) by lia.
  apply Z.mod_mul. apply Z.pow_nonzero; lia.
Qed.

Lemma elementAt_of_Z {A : Type} (a : list A) (i : nat) :
  Z.of_nat i < 2 ^ 53 -> elementAt a (of_Z (Z.of_nat i)) = a !! i.
Proof.
  intros Hi. unfold elementAt.
  rewrite isIntegral_of_Z, toInteger_of_Z by lia.
  destruct (Z.leb_spec 0 (Z.of_nat i)); [|lia]. cbn [andb]. rewrite Nat2Z.id. reflexivity.
Qed.

Lemma optionValues_lookup {A : Type} (featuredData : list A) (i : nat) :
  optionValues featuredData !! i
  = (fun _ => indexToString i) <$> featuredData !! i.
Proof. unfold optionValues. apply list_lookup_imap. Qed.

(** X17: each option of the select element shows its own location.  The
    options carry the indices as decimal numerals; when one is selected,
    [parseInt] reads the index back and the charts are drawn for the entry
    at that place.  Distinct options have distinct values; the empty value
    (no featured location) draws the empty charts. *)
Theorem X17_option_selects_its_location {A : Type} (featuredData : list A) :
  Z.of_nat (length featuredData) < 2 ^ 53 ->
  (forall i value, optionValues featuredData !! i = Some value ->
     parseInt10 value = of_Z (Z.of_nat i)
     /\ is_Some (featuredData !! i)
     /\ updateVisualizations featuredData value = featuredData !! i)
  /\ NoDup (optionValues featuredData)
  /\ length (optionValues featuredData) = length featuredData
  /\ updateVisualizations featuredData [] = None
  /\ updateVisualizations featuredData (str "0") = head featuredData.
Proof.
  intros Hlen.
  assert (Hopt : forall i value, optionValues featuredData !! i = Some value ->
            value = indexToString i /\ (i < length featuredData)%nat).
  { intros i value Hv. rewrite optionValues_lookup in Hv.
    destruct (featuredData !! i) as [x|] eqn:Hx; [|discriminate Hv].
    injection Hv as <-. split; [reflexivity|]. eapply lookup_lt_Some. exact Hx. }
  assert (Hsel : forall i, (i < length featuredData)%nat ->
            updateVisualizations featuredData (indexToString i) = featuredData !! i).
  { intros i Hi. unfold updateVisualizations. rewrite parseInt10_indexToString.
    rewrite isNaN_of_Z by lia. cbn [negb]. apply elementAt_of_Z. lia. }
  split; [|split; [|split; [|split]]].
  - intros i value Hv. destruct (Hopt i value Hv) as [-> Hi].
    split; [apply parseInt10_indexToString|]. split; [apply lookup_lt_is_Some_2; exact Hi|].
    apply Hsel, Hi.
  - apply NoDup_alt. intros i j value Hi Hj.
    destruct (Hopt i value Hi) as [Hvi Hli]. destruct (Hopt j value Hj) as [Hvj Hlj].
    assert (Heq : of_Z (Z.of_nat i) = of_Z (Z.of_nat j)).
    { rewrite <- !parseInt10_indexToString. congruence. }
    apply (f_equal toInteger) in Heq. rewrite !toInteger_of_Z in Heq by lia. lia.
  - unfold optionValues. apply length_imap.
  - reflexivity.
  - destruct featuredData as [|x rest]; [reflexivity|].
    apply (Hsel 0%nat). cbn. lia.
Qed.

Lemma X17_option_selects_its_location_witness :
  updateVisualizations [lineHigh; lineComment; lineAltitude30] (str "2") = Some lineAltitude30.
Proof.
  destruct (X17_option_selects_its_location [lineHigh; lineComment; lineAltitude30])
    as (Hsel & _); [cbn; lia|].
  destruct (Hsel 2%nat (str "2") eq_refl) as (_ & _ & Hshow). exact Hshow.
Defined.

End SelectedLocation.

(** ** The popup of a marker *)

Section PopupFacts.
Import PanoData MapPopup.

Lemma locationNameOf_nonempty (toFixed : number -> nat -> jsString) (it : PanoItem) :
  truthy (Some (locationNameOf toFixed it)) = true.
Proof.
  unfold locationNameOf.
  pose proof (truthy_names [locality it; region it; country it]) as Hall.
  destruct (omap (fun v : jsValue => if truthy v then v else None)
                 [locality it; region it; country it]) as [|s rest] eqn:Hn.
  - cbn [join truthy negb andb].
    destruct (numberTruthy (latitude it) && numberTruthy (longitude it)); reflexivity.
  - pose proof (join_nonempty (str ", ") (s :: rest) ltac:(discriminate) Hall) as Hj.
    destruct (join (str ", ") (s :: rest)) as [|c t]; [congruence|]. reflexivity.
Qed.

(** X18: for a processed item the fallbacks of the title are never
    taken, as its [locationName] is never empty; and the popup never gets
    the line with the structured location, since an item that has a
    locality, a region and a country has exactly their list as its
    [locationName]. *)
Theorem X18_popup_shows_the_location_name (toFixed : number -> nat -> jsString)
    (it : PanoItem) (isFeaturedFlag : bool) (sqmResult : DataService.ProcessedData) :
  let p := processPanoItem toFixed it isFeaturedFlag sqmResult in
  popupTitle p = locationName p
  /\ structuredLocationLine p = None
  /\ (truthy (locality it) && truthy (region it) && truthy (country it) = true ->
      locationName p
      = inTemplate (locality it) ++ str ", " ++ inTemplate (region it)
        ++ str ", " ++ inTemplate (country it)).
Proof.
  intros p.
  assert (Hall : truthy (locality it) && truthy (region it) && truthy (country it) = true ->
           locationName p
           = inTemplate (locality it) ++ str ", " ++ inTemplate (region it)
             ++ str ", " ++ inTemplate (country it)).
  { intros H. apply andb_prop in H. destruct H as [H Hc]. apply andb_prop in H.
    destruct H as [Hl Hr]. subst p. cbn [locationName processPanoItem]. unfold locationNameOf.
    destruct (locality it) as [[|l1 l]|]; try discriminate Hl.
    destruct (region it) as [[|r1 r]|]; try discriminate Hr.
    destruct (country it) as [[|c1 c]|]; try discriminate Hc.
    reflexivity. }
  split; [|split; [|exact Hall]].
  - unfold popupTitle. subst p. cbn [locationName processPanoItem].
    rewrite locationNameOf_nonempty. reflexivity.
  - unfold structuredLocationLine. cbn zeta.
    change (item p) with it.
    destruct (truthy (locality it) && truthy (region it) && truthy (country it)) eqn:H;
      [|reflexivity].
    rewrite (Hall eq_refl). rewrite bool_decide_eq_true_2 by reflexivity. reflexivity.
Qed.

Lemma X18_popup_shows_the_location_name_witness :
  popupTitle (processPanoItem (fun _ _ => str "0.000") equator true emptyData)
  = str "Unknown Location"
  /\ structuredLocationLine (processPanoItem (fun _ _ => str "0.000") zermatt false emptyData)
     = None.
Proof.
  destruct (X18_popup_shows_the_location_name (fun _ _ => str "0.000") equator true emptyData)
    as (Htitle & _).
  destruct (X18_popup_shows_the_location_name (fun _ _ => str "0.000") zermatt false emptyData)
    as (_ & Hline & _).
  split; [rewrite Htitle; reflexivity | exact Hline].
Defined.

End PopupFacts.

(** ** The median and the order of the samples *)

Section MedianOrder.
Import NumberValue.

Lemma keyLe_trans : Transitive keyLe.
Proof.
  intros k1 k2 k3 [H1|H1] [H2|H2].
  - left. eapply keyLt_trans; eassumption.
  - left. rewrite <- H2. exact H1.
  - left. rewrite H1. exact H2.
  - right. congruence.
Qed.

Lemma keyLe_antisym : AntiSymm eq keyLe.
Proof.
  intros k1 k2 [H1|H1] [H2|H2]; try congruence.
  exfalso. apply (keyLt_irrefl k1). eapply keyLt_trans; eassumption.
Qed.

Lemma ascending_keys (l : list number) :
  ascending l -> Sorted keyLe (map (fun x => orderKey (Prim2SF x)) l).
Proof.
  induction 1 as [|x l Hs IH Hd]; cbn [map]; constructor; [exact IH|].
  destruct Hd as [|y l Hxy]; cbn [map]; constructor.
  apply le_key in Hxy. destruct Hxy as (_ & _ & [H|H]); [left | right]; exact H.
Qed.

(** Two numbers with the same key are the same number, or are both zero. *)
Lemma orderKey_sameValue (a b : number) :
  isNaN a = false -> isNaN b = false ->
  orderKey (Prim2SF a) = orderKey (Prim2SF b) -> sameValue a b.
Proof.
  intros Ha Hb Hk. apply isNaN_false in Ha, Hb. unfold sameValue, isZero.
  destruct (Prim2SF a) as [sa|sa| |sa ma ea] eqn:Ea, (Prim2SF b) as [sb|sb| |sb mb eb] eqn:Eb;
    try congruence; try (right; split; reflexivity);
    try (destruct sa; discriminate Hk); try (destruct sb; discriminate Hk);
    try (destruct sa, sb; discriminate Hk).
  - left. apply FloatAxioms.Prim2SF_inj. rewrite Ea, Eb.
    destruct sa, sb; try discriminate Hk; reflexivity.
  - left. apply FloatAxioms.Prim2SF_inj. rewrite Ea, Eb.
    destruct sa, sb; cbn [orderKey] in Hk; try discriminate Hk;
      injection Hk as He Hm; f_equal; lia.
Qed.

Lemma add_sameValue (a a' b b' : number) :
  sameValue a a' -> sameValue b b' -> sameValue (a + b)%float (a' + b')%float.
Proof.
  unfold sameValue, isZero.
  intros [->|[Ha Ha']] [->|[Hb Hb']]; [left; reflexivity| | |].
  - destruct (Prim2SF b) as [sb| | |] eqn:Eb; try discriminate Hb.
    destruct (Prim2SF b') as [sb'| | |] eqn:Eb'; try discriminate Hb'.
    destruct (Prim2SF a') as [sa|sa| |sa ma ea] eqn:Ea.
    + right. rewrite !FloatAxioms.add_spec, Ea, Eb, Eb'. cbn.
      destruct sa, sb, sb'; split; reflexivity.
    + left. apply FloatAxioms.Prim2SF_inj. rewrite !FloatAxioms.add_spec, Ea, Eb, Eb'. reflexivity.
    + left. apply FloatAxioms.Prim2SF_inj. rewrite !FloatAxioms.add_spec, Ea, Eb, Eb'. reflexivity.
    + left. apply FloatAxioms.Prim2SF_inj. rewrite !FloatAxioms.add_spec, Ea, Eb, Eb'. reflexivity.
  - destruct (Prim2SF a) as [sa| | |] eqn:Ea; try discriminate Ha.
    destruct (Prim2SF a') as [sa'| | |] eqn:Ea'; try discriminate Ha'.
    destruct (Prim2SF b') as [sb|sb| |sb mb eb] eqn:Eb.
    + right. rewrite !FloatAxioms.add_spec, Ea, Ea', Eb. cbn.
      destruct sa, sa', sb; split; reflexivity.
    + left. apply FloatAxioms.Prim2SF_inj. rewrite !FloatAxioms.add_spec, Ea, Ea', Eb. reflexivity.
    + left. apply FloatAxioms.Prim2SF_inj. rewrite !FloatAxioms.add_spec, Ea, Ea', Eb. reflexivity.
    + left. apply FloatAxioms.Prim2SF_inj. rewrite !FloatAxioms.add_spec, Ea, Ea', Eb. reflexivity.
  - destruct (Prim2SF a) as [sa| | |] eqn:Ea; try discriminate Ha.
    destruct (Prim2SF a') as [sa'| | |] eqn:Ea'; try discriminate Ha'.
    destruct (Prim2SF b) as [sb| | |] eqn:Eb; try discriminate Hb.
    destruct (Prim2SF b') as [sb'| | |] eqn:Eb'; try discriminate Hb'.
    right. rewrite !FloatAxioms.add_spec, Ea, Ea', Eb, Eb'. cbn.
    destruct sa, sa', sb, sb'; split; reflexivity.
Qed.

Lemma half_sameValue (x x' : number) : sameValue x x' -> sameValue (x / 2)%float (x' / 2)%float.
Proof.
  unfold sameValue, isZero. intros [->|[Hx Hx']]; [left; reflexivity|].
  destruct (Prim2SF x) as [s| | |] eqn:Ex; try discriminate Hx.
  destruct (Prim2SF x') as [s'| | |] eqn:Ex'; try discriminate Hx'.
  right. rewrite !FloatAxioms.div_spec, Ex, Ex'.
  change (Prim2SF 2%float) with (S754_finite false 4503599627370496 (-51)).
  split; reflexivity.
Qed.

Lemma sorted_keys_perm (l l' : list number) :
  Permutation l l' -> Forall (fun y => isNaN y = false) l ->
  map (fun x => orderKey (Prim2SF x)) (sort compareNumbers l)
  = map (fun x => orderKey (Prim2SF x)) (sort compareNumbers l').
Proof.
  intros Hp Hn.
  assert (Hn' : Forall (fun y => isNaN y = false) l')
    by (eapply Permutation_Forall; [exact Hp | exact Hn]).
  apply (@sorting.Sorted_unique _ keyLe keyLe_trans keyLe_antisym).
  - apply ascending_keys, sort_ascending, Hn.
  - apply ascending_keys, sort_ascending, Hn'.
  - apply Permutation_map.
    eapply perm_trans; [symmetry; apply sort_perm|].
    eapply perm_trans; [exact Hp | apply sort_perm].
Qed.

Lemma at_index_sameValue (s s' : list number) (i : nat) :
  Forall (fun y => isNaN y = false) s -> Forall (fun y => isNaN y = false) s' ->
  map (fun x => orderKey (Prim2SF x)) s = map (fun x => orderKey (Prim2SF x)) s' ->
  sameValue (at_index s i) (at_index s' i).
Proof.
  intros Hs Hs' Hk. unfold at_index.
  pose proof (f_equal (fun m => m !! i) Hk) as Hi. cbn beta in Hi.
  rewrite !list_lookup_fmap in Hi. unfold number in *. revert Hi.
  destruct (s !! i) as [x|] eqn:Hx, (s' !! i) as [x'|] eqn:Hx'; intros Hi; cbn in Hi;
    try discriminate Hi.
  - unfold fmap, option_fmap, option_map in Hi. injection Hi as Hi.
    cbn [default]. apply orderKey_sameValue; [| |exact Hi].
    + exact (Forall_lookup_1 _ _ _ _ Hs Hx).
    + exact (Forall_lookup_1 _ _ _ _ Hs' Hx').
  - left. reflexivity.
Qed.

(** X19: the median does not depend on the order of the samples: two
    arrays without NaN that are permutations of each other have the same
    median, up to the sign of a zero. *)
Theorem X19_median_ignores_order (numbers numbers' : list number) :
  Permutation numbers numbers' ->
  Forall (fun y => isNaN y = false) numbers ->
  sameMedian (calculateMedian numbers) (calculateMedian numbers').
Proof.
  intros Hp Hn.
  assert (Hn' : Forall (fun y => isNaN y = false) numbers')
    by (eapply Permutation_Forall; [exact Hp | exact Hn]).
  pose proof (sorted_keys_perm numbers numbers' Hp Hn) as Hk.
  assert (Hs : Forall (fun y => isNaN y = false) (sort compareNumbers numbers))
    by (eapply Permutation_Forall; [apply sort_perm | exact Hn]).
  assert (Hs' : Forall (fun y => isNaN y = false) (sort compareNumbers numbers'))
    by (eapply Permutation_Forall; [apply sort_perm | exact Hn']).
  unfold calculateMedian. rewrite !sort_length.
  rewrite <- (Permutation_length Hp).
  destruct (length numbers =? 0)%nat; [exact I|].
  destruct (length numbers mod 2 =? 0)%nat; cbn [sameMedian].
  - apply half_sameValue, add_sameValue; apply at_index_sameValue; assumption.
  - apply at_index_sameValue; assumption.
Qed.

Lemma X19_median_ignores_order_witness :
  sameMedian (calculateMedian [21%float; (-0)%float; 0%float; 19%float])
             (calculateMedian [0%float; 19%float; 21%float; (-0)%float]).
Proof.
  apply X19_median_ignores_order.
  - apply perm_trans with [(-0)%float; 0%float; 19%float; 21%float].
    + apply perm_trans with [(-0)%float; 21%float; 0%float; 19%float]; [apply perm_swap|].
      apply perm_skip.
      apply perm_trans with [0%float; 21%float; 19%float]; [apply perm_swap|].
      apply perm_skip, perm_swap.
    + apply perm_trans with [0%float; (-0)%float; 19%float; 21%float]; [apply perm_swap|].
      apply perm_skip.
      apply perm_trans with [19%float; (-0)%float; 21%float]; [apply perm_swap|].
      apply perm_skip, perm_swap.
  - repeat (first [apply List.Forall_nil | apply List.Forall_cons]); reflexivity.
Defined.

End MedianOrder.
